(** * Platform-aware image resolution (package [images] of the daemon)

    A shallow embedding of [daemon/images]: [OnlyPlatformWithFallback],
    [manifestMatchesPlatform] and [GetImage], together with the properties
    the design document states about them.

    The packages the code imports ([platforms], [encoding/json],
    [reference], [cerrdefs], the lease registry, the content store and the
    image and reference stores) are interfaces here: the functions of the
    daemon are defined over any implementation of them and the theorems hold
    for all implementations, unless a theorem names a particular one. *)

From Stdlib Require Import String Ascii List ZArith Bool Lia Permutation.
From Stdlib Require Import Strings.Byte.
Import ListNotations.
Open Scope string_scope.
Open Scope list_scope.

Set Implicit Arguments.

(* ------------------------------------------------------------------ *)
(** ** Data of the imported packages *)

(** [digest.Digest] is a Go string type. *)
Module digest.
Definition Digest := string.
End digest.

Module ocispec.
(** [ocispec.Platform], with the three fields the daemon reads. *)
Record Platform : Type := {
  Architecture : string;
  OS : string;
  Variant : string
}.

(** Modelled from the spec: the declaration of [ocispec.Descriptor] is not
    part of the sources; the data model of the design document gives each
    entry of a manifest list a content digest, a media type and a platform
    specification.  The field [Platform_] is the [Platform] field. *)
Record Descriptor : Type := {
  MediaType : string;
  Digest : digest.Digest;
  Platform_ : Platform
}.

Definition MediaTypeImageManifest : string :=
  "application/vnd.oci.image.manifest.v1+json".
End ocispec.

Module c8dimages.
Definition MediaTypeDockerSchema2Manifest : string :=
  "application/vnd.docker.distribution.manifest.v2+json".
End c8dimages.

(** The zero values Go gives to declared variables. *)
Definition zeroPlatform : ocispec.Platform :=
  {| ocispec.Architecture := ""; ocispec.OS := ""; ocispec.Variant := "" |}.

Definition zeroDescriptor : ocispec.Descriptor :=
  {| ocispec.MediaType := ""; ocispec.Digest := "";
     ocispec.Platform_ := zeroPlatform |}.

(* ------------------------------------------------------------------ *)
(** ** Package [platforms] *)

Module platforms.
(** [platforms.Matcher]: an interface with the one method [Match]. *)
Record Matcher : Type := { Match : ocispec.Platform -> bool }.

(** The functions of the package the daemon calls. *)
Class Pkg : Type := {
  Only : ocispec.Platform -> Matcher;
  Normalize : ocispec.Platform -> ocispec.Platform;
  FormatAll : ocispec.Platform -> string
}.
End platforms.

(* ------------------------------------------------------------------ *)
(** ** [OnlyPlatformWithFallback] *)

Section Fallback.
Context {PL : platforms.Pkg}.

Record onlyFallbackMatcher : Type := {
  only : platforms.Matcher;
  p : ocispec.Platform
}.

(** [func (m *onlyFallbackMatcher) Match(other ocispec.Platform) bool] *)
Definition onlyFallbackMatcher_Match (m : onlyFallbackMatcher)
    (other : ocispec.Platform) : bool :=
  if platforms.Match (only m) other then true
  else if negb (ocispec.Variant other =? "") then false
  else
    let otherN := platforms.Normalize other in
    (ocispec.OS (p m) =? ocispec.OS otherN)
    && (ocispec.Architecture (p m) =? ocispec.Architecture otherN).

(** [func OnlyPlatformWithFallback(p ocispec.Platform) platforms.Matcher] *)
Definition OnlyPlatformWithFallback (p0 : ocispec.Platform)
    : platforms.Matcher :=
  {| platforms.Match :=
       onlyFallbackMatcher_Match
         {| only := platforms.Only p0; p := platforms.Normalize p0 |} |}.

(** The design document's [Matches(desired, candidate)]. *)
Definition Matches (desired candidate : ocispec.Platform) : bool :=
  platforms.Match (OnlyPlatformWithFallback desired) candidate.
End Fallback.

(* ------------------------------------------------------------------ *)
(** ** References, images, leases, errors *)

Module reference.
(** [reference.Named], by its string form. *)
Definition Named := string.

(** A parsed [reference.Reference], by the two type assertions the daemon
    makes on it: [ref.(reference.Named)] and [ref.(reference.Digested)]. *)
Record Reference : Type := {
  named : option Named;
  digested : option digest.Digest
}.
End reference.

Module image.
(** [image.ID] is a digest; [ID()] and [ID().Digest()] both read it. *)
Definition ID := digest.Digest.

(** [image.Image]: its identity and the platform fields copied from its
    config. *)
Record Image : Type := {
  ID_ : ID;
  OS : string;
  Architecture : string;
  Variant : string
}.
End image.

Module leases.
(** [leases.Resource]; [Type_] is the field [Type]. *)
Record Resource : Type := {
  ID : string;
  Type_ : string
}.
End leases.

Module backend.
(** [backend.GetImageOpts]; [Platform] is a pointer, [None] when nil. *)
Record GetImageOpts : Type := {
  Platform : option ocispec.Platform
}.
End backend.

(** Go [error] values: the errors of the collaborators, which the daemon
    only classifies and passes on, and the ones it builds itself.

    Modelled from the spec: [errdefs.NotFound] and
    [errdefs.InvalidParameter] are declared outside these sources; each
    wraps an error into an error of the kind it names. *)
Inductive error : Type :=
| ExternalError (msg : string)
| ErrImageDoesNotExist (Ref : reference.Reference)
| errdefs_InvalidParameter (err : error)
| errdefs_NotFound (err : error)
| errors_Errorf (msg : string).

(** [errdefs.IsNotFound] of the daemon: [errdefs.NotFound] wraps its
    argument into an error with the [NotFound()] method, which
    [ErrImageDoesNotExist] declares too. *)
Definition errdefs_IsNotFound (e : error) : bool :=
  match e with
  | errdefs_NotFound _ | ErrImageDoesNotExist _ => true
  | _ => false
  end.

(** The text of an error, [Error()]; a wrapper has the text of what it
    wraps.  The text of [ErrImageDoesNotExist] is built by the reference
    package and is left out. *)
Fixpoint error_message (e : error) : option string :=
  match e with
  | ExternalError msg | errors_Errorf msg => Some msg
  | errdefs_InvalidParameter err | errdefs_NotFound err => error_message err
  | ErrImageDoesNotExist _ => None
  end.

(** A Go result pair [(v, err)] of a collaborator: a value or an error. *)
Inductive Result (A : Type) : Type :=
| Ok (a : A)
| Err (e : error).
Arguments Ok {A} a.
Arguments Err {A} e.

(** [cerrdefs.IsNotFound], the classification of collaborators' errors. *)
Class CerrdefsPkg : Type := {
  cerrdefs_IsNotFound : error -> bool
}.

(** Package [reference]. *)
Class ReferencePkg : Type := {
  reference_ParseAnyReference : string -> Result reference.Reference;
  reference_ParseNamed : string -> Result reference.Named;
  reference_FamiliarString : reference.Named -> string
}.

(* ------------------------------------------------------------------ *)
(** ** Readers *)

Module content.
(** [content.ReaderAt]: its [Size()], the bytes [ReadAt] delivers from
    offset 0 on, and the error that ends them ([None]: [io.EOF]). *)
Record ReaderAt : Type := {
  Size : Z;
  contents : list byte;
  readErr : option error
}.
End content.

Module io.
(** An [io.Reader] by what reading it to the end gives: the bytes, then
    [io.EOF] ([None]) or an error. *)
Record Reader : Type := {
  stream : list byte;
  failure : option error
}.

(** The first [n] bytes. *)
Fixpoint take (n : Z) (bytes : list byte) : list byte :=
  match bytes with
  | [] => []
  | b :: rest => if (0 <? n)%Z then b :: take (n - 1) rest else []
  end.

(** A reader stopped after [n] bytes: it ends as the one below it only
    when that one ends first. *)
Definition cut (n : Z) (bytes : list byte) (end_ : option error) : Reader :=
  {| stream := take n bytes;
     failure := if (Z.of_nat (length bytes) <? n)%Z then end_ else None |}.

(** [io.NewSectionReader(ra, 0, n)] *)
Definition NewSectionReader (ra : content.ReaderAt) (n : Z) : Reader :=
  cut n (content.contents ra) (content.readErr ra).

(** [io.LimitReader(r, n)] *)
Definition LimitReader (r : Reader) (n : Z) : Reader :=
  cut n (stream r) (failure r).

(** [io.ReadAll(r)] *)
Definition ReadAll (r : Reader) : list byte * option error :=
  (stream r, failure r).
End io.

(** [makeRdr] of [manifestMatchesPlatform]; [1e6] is 1000000. *)
Definition makeRdr (ra : content.ReaderAt) : io.Reader :=
  io.LimitReader (io.NewSectionReader ra (content.Size ra)) 1000000.
Arguments makeRdr : simpl never.

(* ------------------------------------------------------------------ *)
(** ** Manifests and [encoding/json] *)

Record manifestList : Type := { Manifests : list ocispec.Descriptor }.

Record manifest : Type := { Config : ocispec.Descriptor }.

Definition zeroManifestList : manifestList := {| Manifests := [] |}.
Definition zeroManifest : manifest := {| Config := zeroDescriptor |}.

(** [json.Unmarshal(data, &v)] writes into the value [v] points to: it
    takes the value [v] holds and gives the one it holds afterwards, with
    the error returned. *)
Class JsonPkg : Type := {
  json_Unmarshal_manifestList :
    list byte -> manifestList -> manifestList * option error;
  json_Unmarshal_manifest :
    list byte -> manifest -> manifest * option error
}.

(* ------------------------------------------------------------------ *)
(** ** Calls to the collaborators *)

(** [ImageService], by the collaborators the resolution reads.  They are
    read only, so each is a function. *)
Record ImageService : Type := {
  leases_ListResources : string -> Result (list leases.Resource);
  content_ReaderAt : digest.Digest -> Result content.ReaderAt;
  imageStore_Get : image.ID -> Result image.Image;
  imageStore_Search : string -> Result image.ID;
  referenceStore_Get : reference.Named -> Result digest.Digest
}.

(** What a call leaves behind: the collaborator called, with its argument;
    [ContentRead d n]: [n] bytes were read of the blob opened for [d]. *)
Inductive Event : Type :=
| ReferenceStoreGet (ref : reference.Named)
| ImageStoreGet (id : image.ID)
| ImageStoreSearch (term : string)
| LeasesListResources (leaseID : string)
| ContentReaderAt (dgst : digest.Digest)
| ContentRead (dgst : digest.Digest) (n : Z).

(** A computation that calls collaborators: the calls in order, and the
    result. *)
Definition IO (A : Type) : Type := (list Event * A)%type.

Definition ret {A : Type} (a : A) : IO A := ([], a).

Definition bind {A B : Type} (c : IO A) (k : A -> IO B) : IO B :=
  (fst c ++ fst (k (snd c)), snd (k (snd c))).

Definition emit (e : Event) : IO unit := ([e], tt).

Definition calls {A : Type} (c : IO A) : list Event := fst c.
Definition result {A : Type} (c : IO A) : A := snd c.

Notation "x <- c ;; k" := (bind c (fun x => k))
  (at level 61, c at next level, right associativity).
Notation "' pat <- c ;; k" := (bind c (fun x => match x with pat => k end))
  (at level 61, pat pattern, c at next level, right associativity).
Notation "c ;; k" := (bind c (fun _ => k))
  (at level 61, right associativity).

(** A [for ... range] loop whose body either leaves the function with
    [return true, nil] or goes on to the next element, and which updates
    variables declared before it: the body gives [true] to return, and the
    variables' new values. *)
Fixpoint range {A S : Type} (body : A -> S -> IO (bool * S)) (xs : list A)
    (s : S) : IO (bool * S) :=
  match xs with
  | [] => ret (false, s)
  | x :: rest =>
    '(found, s') <- body x s ;;
    if found then ret (true, s') else range body rest s'
  end.

Definition touchesLeasesOrContent (e : Event) : bool :=
  match e with
  | LeasesListResources _ | ContentReaderAt _ | ContentRead _ _ => true
  | _ => false
  end.

(* ------------------------------------------------------------------ *)
(** ** [manifestMatchesPlatform] and [GetImage] *)

Section Daemon.
Context {PL : platforms.Pkg} {CE : CerrdefsPkg} {RF : ReferencePkg}
        {JS : JsonPkg}.

(** [imageKey], a helper of the package declared outside these sources:
    the lease identifier of an image. *)
Variable imageKey : string -> string.

Variable i : ImageService.

(** The [switch md.MediaType] of the inner loop: the two cases that do
    not [continue]. *)
Definition isManifestMediaType (mt : string) : bool :=
  (mt =? ocispec.MediaTypeImageManifest)
  || (mt =? c8dimages.MediaTypeDockerSchema2Manifest).

(** The body of [for _, md := range ml.Manifests], lines 175 to 216,
    run with the value [m] holds: [true] for [return true, nil], [false]
    when the loop goes on ([continue], or the end of the body), and the
    value [m] holds afterwards. *)
Definition checkManifest (img : image.Image) (comparer : platforms.Matcher)
    (md : ocispec.Descriptor) (m : manifest) : IO (bool * manifest) :=
  if negb (isManifestMediaType (ocispec.MediaType md)) then ret (false, m)
  else
    let p :=
      {| ocispec.Architecture :=
           ocispec.Architecture (ocispec.Platform_ md);
         ocispec.OS := ocispec.OS (ocispec.Platform_ md);
         ocispec.Variant := ocispec.Variant (ocispec.Platform_ md) |} in
    if negb (platforms.Match comparer p) then ret (false, m)
    else
      emit (ContentReaderAt (ocispec.Digest md)) ;;
      match content_ReaderAt i (ocispec.Digest md) with
      | Err _ => ret (false, m)
      | Ok ra =>
        let (data, err) := io.ReadAll (makeRdr ra) in
        emit (ContentRead (ocispec.Digest md) (Z.of_nat (length data))) ;;
        match err with
        | Some _ => ret (false, m)
        | None =>
          let (m', jerr) := json_Unmarshal_manifest data m in
          match jerr with
          | Some _ => ret (false, m')
          | None =>
            if ocispec.Digest (Config m') =? image.ID_ img then ret (true, m')
            else ret (false, m')
          end
        end
      end.

(** [for _, md := range ml.Manifests { ... }] *)
Definition rangeManifests (img : image.Image) (comparer : platforms.Matcher)
    (mds : list ocispec.Descriptor) (m : manifest) : IO (bool * manifest) :=
  range (checkManifest img comparer) mds m.

(** The body of [for _, r := range ls], lines 139 to 217, run with the
    values the variables [ml] and [m] hold. *)
Definition checkResource (img : image.Image) (comparer : platforms.Matcher)
    (r : leases.Resource) (vars : manifestList * manifest)
    : IO (bool * (manifestList * manifest)) :=
  let (ml, m) := vars in
  if negb (leases.Type_ r =? "content") then ret (false, (ml, m))
  else
    emit (ContentReaderAt (leases.ID r)) ;;
    match content_ReaderAt i (leases.ID r) with
    | Err _ => ret (false, (ml, m))
    | Ok ra =>
      let (data, err) := io.ReadAll (makeRdr ra) in
      emit (ContentRead (leases.ID r) (Z.of_nat (length data))) ;;
      match err with
      | Some _ => ret (false, (ml, m))
      | None =>
        let ml0 := {| Manifests := [] |} in
        let (ml', jerr) := json_Unmarshal_manifestList data ml0 in
        match jerr with
        | Some _ => ret (false, (ml', m))
        | None =>
          '(found, m') <- rangeManifests img comparer (Manifests ml') m ;;
          ret (found, (ml', m'))
        end
      end
    end.

(** [for _, r := range ls { ... }] *)
Definition rangeResources (img : image.Image) (comparer : platforms.Matcher)
    (ls : list leases.Resource) (ml : manifestList) (m : manifest)
    : IO (bool * (manifestList * manifest)) :=
  range (checkResource img comparer) ls (ml, m).

(** [func (i *ImageService) manifestMatchesPlatform(ctx, img, platform)
    (bool, error)] *)
Definition manifestMatchesPlatform (img : image.Image)
    (platform : ocispec.Platform) : IO (bool * option error) :=
  emit (LeasesListResources (imageKey (image.ID_ img))) ;;
  match leases_ListResources i (imageKey (image.ID_ img)) with
  | Err err =>
    if cerrdefs_IsNotFound err then ret (false, None)
    else ret (false, Some err)
  | Ok ls =>
    let comparer := platforms.Only platform in
    '(found, _) <-
       rangeResources img comparer ls zeroManifestList zeroManifest ;;
    ret (found, None)
  end.

(** The body of [GetImage], lines 263 to 295: the named results [retImg]
    and [retErr] at its [return]. *)
Definition searchByID (refOrID : string) (ref : reference.Reference)
    : IO (option image.Image * option error) :=
  emit (ImageStoreSearch refOrID) ;;
  match imageStore_Search i refOrID with
  | Ok id =>
    emit (ImageStoreGet id) ;;
    match imageStore_Get i id with
    | Err _ => ret (None, Some (ErrImageDoesNotExist ref))
    | Ok img => ret (Some img, None)
    end
  | Err _ => ret (None, Some (ErrImageDoesNotExist ref))
  end.

Definition lookupImage (refOrID : string)
    : IO (option image.Image * option error) :=
  match reference_ParseAnyReference refOrID with
  | Err err => ret (None, Some (errdefs_InvalidParameter err))
  | Ok ref =>
    match reference.named ref with
    | None =>
      match reference.digested ref with
      | None => ret (None, Some (ErrImageDoesNotExist ref))
      | Some dgst =>
        emit (ImageStoreGet dgst) ;;
        match imageStore_Get i dgst with
        | Ok img => ret (Some img, None)
        | Err _ => ret (None, Some (ErrImageDoesNotExist ref))
        end
      end
    | Some namedRef =>
      emit (ReferenceStoreGet namedRef) ;;
      match referenceStore_Get i namedRef with
      | Ok dgst =>
        emit (ImageStoreGet dgst) ;;
        match imageStore_Get i dgst with
        | Ok img => ret (Some img, None)
        | Err _ => searchByID refOrID ref
        end
      | Err _ => searchByID refOrID ref
      end
    end
  end.

(** The [fmt] string of the platform error. *)
Definition platformMismatchMessage (imgName imgPlat p0 : string) : string :=
  "image with reference " ++ imgName
  ++ " was found but its platform (" ++ imgPlat
  ++ ") does not match the specified platform (" ++ p0 ++ ")".

(** [retErr != nil] *)
Definition isErr (e : option error) : bool :=
  match e with Some _ => true | None => false end.

(** The [imgPlat] of the deferred function. *)
Definition imgPlatOf (retImg : image.Image) : ocispec.Platform :=
  {| ocispec.Architecture := image.Architecture retImg;
     ocispec.OS := image.OS retImg;
     ocispec.Variant := image.Variant retImg |}.

(** The deferred function of [GetImage], run on the named results. *)
Definition checkPlatform (refOrID : string) (options : backend.GetImageOpts)
    (retImg : option image.Image) (retErr : option error)
    : IO (option image.Image * option error) :=
  match retErr, retImg, backend.Platform options with
  | None, Some img, Some p0 =>
    let imgPlat := imgPlatOf img in
    if platforms.Match (OnlyPlatformWithFallback p0) imgPlat then
      ret (retImg, retErr)
    else
      '(matches, retErr') <- manifestMatchesPlatform img p0 ;;
      if matches || isErr retErr' then
        ret (retImg, retErr')
      else
        let imgName :=
          match reference_ParseNamed refOrID with
          | Ok ref => reference_FamiliarString ref
          | Err _ => refOrID
          end in
        ret (retImg,
             Some (errdefs_NotFound (errors_Errorf
               (platformMismatchMessage imgName
                  (platforms.FormatAll imgPlat)
                  (platforms.FormatAll p0)))))
  | _, _, _ => ret (retImg, retErr)
  end.

(** [func (i *ImageService) GetImage(ctx, refOrID, options) (retImg
    *image.Image, retErr error)] *)
Definition GetImage (refOrID : string) (options : backend.GetImageOpts)
    : IO (option image.Image * option error) :=
  '(retImg, retErr) <- lookupImage refOrID ;;
  checkPlatform refOrID options retImg retErr.
End Daemon.

(* ------------------------------------------------------------------ *)
(** ** The baseline matcher as the design document describes it *)

Module SpecPlatforms.
Section Model.
(** The compatible variant families and the implied default variant
    come from the platform-normalization primitive. *)
Variable compatibleVariant : string -> string -> bool.
Variable defaultVariant : string -> string -> string.
Variable formatAll : ocispec.Platform -> string.

(** Modelled from the spec: [platforms.Only] is not part of the sources.
    Two specifications match if OS and architecture match exactly and,
    if the desired variant is set, the candidate's variant is compatible
    with it. *)
Definition Only (desired : ocispec.Platform) : platforms.Matcher :=
  {| platforms.Match := fun candidate =>
       (ocispec.OS desired =? ocispec.OS candidate)
       && (ocispec.Architecture desired =? ocispec.Architecture candidate)
       && ((ocispec.Variant desired =? "")
           || compatibleVariant (ocispec.Variant desired)
                (ocispec.Variant candidate)) |}.

(** Modelled from the spec: [platforms.Normalize] is not part of the
    sources.  Normalizing assigns a specification without variant its
    implied default variant. *)
Definition Normalize (p0 : ocispec.Platform) : ocispec.Platform :=
  {| ocispec.Architecture := ocispec.Architecture p0;
     ocispec.OS := ocispec.OS p0;
     ocispec.Variant :=
       if ocispec.Variant p0 =? "" then
         defaultVariant (ocispec.OS p0) (ocispec.Architecture p0)
       else ocispec.Variant p0 |}.

Definition pkg : platforms.Pkg :=
  {| platforms.Only := Only;
     platforms.Normalize := Normalize;
     platforms.FormatAll := formatAll |}.
End Model.
End SpecPlatforms.

(* ------------------------------------------------------------------ *)
(** ** A small installation, to run the functions on *)

Module Sample.
(** ARM variants: a lower one satisfies a higher one. *)
Definition armLevel (v : string) : option nat :=
  if v =? "v5" then Some 5 else if v =? "v6" then Some 6
  else if v =? "v7" then Some 7 else if v =? "v8" then Some 8 else None.

Definition compatibleVariant (desired candidate : string) : bool :=
  (desired =? candidate)
  || match armLevel desired, armLevel candidate with
     | Some d, Some c => Nat.leb c d
     | _, _ => false
     end.

Definition defaultVariant (os arch : string) : string :=
  if arch =? "arm" then "v7" else if arch =? "arm64" then "v8" else "".

Definition formatAll (p0 : ocispec.Platform) : string :=
  if ocispec.Variant p0 =? "" then
    ocispec.OS p0 ++ "/" ++ ocispec.Architecture p0
  else
    ocispec.OS p0 ++ "/" ++ ocispec.Architecture p0
      ++ "/" ++ ocispec.Variant p0.

Definition PL : platforms.Pkg :=
  SpecPlatforms.pkg compatibleVariant defaultVariant formatAll.

Definition notFound : error := ExternalError "not found".

Definition CE : CerrdefsPkg :=
  {| cerrdefs_IsNotFound := fun e =>
       match e with
       | ExternalError msg => msg =? "not found"
       | _ => false
       end |}.

Definition RF : ReferencePkg :=
  {| reference_ParseAnyReference := fun s =>
       if s =? "" then Err (ExternalError "invalid reference format")
       else if String.prefix "sha256:" s then
         Ok {| reference.named := None; reference.digested := Some s |}
       else Ok {| reference.named := Some s; reference.digested := None |};
     reference_ParseNamed := fun s =>
       if (s =? "") || String.prefix "sha256:" s then
         Err (ExternalError "invalid reference format")
       else Ok s;
     reference_FamiliarString := fun n => n |}.

Definition imageKey (dgst : string) : string := "moby-image-" ++ dgst.

(** JSON documents; [q] is the quotation mark. *)
Definition q : string := String "034"%char EmptyString.
Definition js (s : string) : string := q ++ s ++ q.

Definition platformDoc (arch os variant : string) : string :=
  "{" ++ js "architecture" ++ ":" ++ js arch ++ ","
      ++ js "os" ++ ":" ++ js os ++ ","
      ++ js "variant" ++ ":" ++ js variant ++ "}".

Definition entryDocOf (mediaType dgst arch os variant : string) : string :=
  "{" ++ js "mediaType" ++ ":" ++ js mediaType ++ ","
      ++ js "digest" ++ ":" ++ js dgst ++ ","
      ++ js "platform" ++ ":" ++ platformDoc arch os variant ++ "}".

Definition entryDoc (dgst arch os variant : string) : string :=
  entryDocOf ocispec.MediaTypeImageManifest dgst arch os variant.

(** The media type of an image index, which is not a manifest's. *)
Definition MediaTypeImageIndex : string :=
  "application/vnd.oci.image.index.v1+json".

(** A manifest list with one entry, for linux/arm64/v8. *)
Definition indexDoc : string :=
  "{" ++ js "manifests" ++ ":["
      ++ entryDoc "sha256:m1" "arm64" "linux" "v8" ++ "]}".

(** A manifest list with two entries for linux/arm64/v8. *)
Definition index2Doc : string :=
  "{" ++ js "manifests" ++ ":["
      ++ entryDoc "sha256:bad" "arm64" "linux" "v8" ++ ","
      ++ entryDoc "sha256:bare" "arm64" "linux" "v8" ++ "]}".

(** A manifest list whose one entry, for linux/arm64/v8, has the media
    type of an image index. *)
Definition oddDoc : string :=
  "{" ++ js "manifests" ++ ":["
      ++ entryDocOf MediaTypeImageIndex "sha256:m1" "arm64" "linux" "v8"
      ++ "]}".

(** A manifest whose config is the image [sha256:cfg]. *)
Definition manifestDoc : string :=
  "{" ++ js "config" ++ ":{" ++ js "digest" ++ ":" ++ js "sha256:cfg" ++ "}}".

(** The same config digest, and a size that is not a number. *)
Definition badSizeDoc : string :=
  "{" ++ js "config" ++ ":{" ++ js "digest" ++ ":" ++ js "sha256:cfg" ++ ","
      ++ js "size" ++ ":" ++ js "big" ++ "}}".

(** A JSON object with neither a [manifests] nor a [config] member. *)
Definition bareDoc : string := "{" ++ js "schemaVersion" ++ ":2}".

(** Not JSON. *)
Definition junkDoc : string := "<html>".

Definition entryOf (mediaType dgst arch os variant : string)
    : ocispec.Descriptor :=
  {| ocispec.MediaType := mediaType;
     ocispec.Digest := dgst;
     ocispec.Platform_ :=
       {| ocispec.Architecture := arch; ocispec.OS := os;
          ocispec.Variant := variant |} |}.

Definition entry (dgst arch os variant : string) : ocispec.Descriptor :=
  entryOf ocispec.MediaTypeImageManifest dgst arch os variant.

Definition isDoc (data : list byte) (doc : string) : bool :=
  string_of_list_byte data =? doc.

Definition setConfigDigest (dgst : digest.Digest) (m : manifest) : manifest :=
  {| Config :=
       {| ocispec.MediaType := ocispec.MediaType (Config m);
          ocispec.Digest := dgst;
          ocispec.Platform_ := ocispec.Platform_ (Config m) |} |}.

Definition syntaxError : error :=
  ExternalError "invalid character looking for beginning of value".
Definition typeError : error :=
  ExternalError "json: cannot unmarshal string into Go struct field of type int64".

(** [encoding/json] on the documents above: a member sets its field, a
    field without member keeps its value, a member of the wrong type is
    skipped and reported after the others are stored, and a text that is
    not JSON is refused before anything is stored. *)
Definition JS : JsonPkg :=
  {| json_Unmarshal_manifestList := fun data ml =>
       if isDoc data indexDoc then
         ({| Manifests := [entry "sha256:m1" "arm64" "linux" "v8"] |}, None)
       else if isDoc data index2Doc then
         ({| Manifests := [entry "sha256:bad" "arm64" "linux" "v8";
                           entry "sha256:bare" "arm64" "linux" "v8"] |},
          None)
       else if isDoc data oddDoc then
         ({| Manifests :=
               [entryOf MediaTypeImageIndex "sha256:m1" "arm64" "linux"
                  "v8"] |},
          None)
       else if isDoc data manifestDoc || isDoc data badSizeDoc
               || isDoc data bareDoc then (ml, None)
       else (ml, Some syntaxError);
     json_Unmarshal_manifest := fun data m =>
       if isDoc data manifestDoc then (setConfigDigest "sha256:cfg" m, None)
       else if isDoc data badSizeDoc then
         (setConfigDigest "sha256:cfg" m, Some typeError)
       else if isDoc data bareDoc || isDoc data indexDoc
               || isDoc data index2Doc || isDoc data oddDoc then (m, None)
       else (m, Some syntaxError) |}.

Definition blob (doc : string) : content.ReaderAt :=
  {| content.Size := Z.of_nat (String.length doc);
     content.contents := list_byte_of_string doc;
     content.readErr := None |}.

Fixpoint lookup {A : Type} (k : string) (kvs : list (string * A))
    : Result A :=
  match kvs with
  | [] => Err notFound
  | (k', v) :: rest => if k =? k' then Ok v else lookup k rest
  end.

(** The image [sha256:cfg]: its config says linux/amd64. *)
Definition img : image.Image :=
  {| image.ID_ := "sha256:cfg"; image.OS := "linux";
     image.Architecture := "amd64"; image.Variant := "" |}.

Definition arm64v8 : ocispec.Platform :=
  {| ocispec.Architecture := "arm64"; ocispec.OS := "linux";
     ocispec.Variant := "v8" |}.

Definition contentResource (id : string) : leases.Resource :=
  {| leases.ID := id; leases.Type_ := "content" |}.

(** An image service over a lease table and a content table. *)
Definition service (leaseTable : list (string * list leases.Resource))
    (blobs : list (string * string)) : ImageService :=
  {| leases_ListResources := fun id => lookup id leaseTable;
     content_ReaderAt := fun d =>
       match lookup d blobs with
       | Ok doc => Ok (blob doc)
       | Err e => Err e
       end;
     imageStore_Get := fun id =>
       if id =? "sha256:cfg" then Ok img else Err notFound;
     imageStore_Search := fun term =>
       if term =? "cfg" then Ok "sha256:cfg" else Err notFound;
     referenceStore_Get := fun n =>
       if n =? "busybox" then Ok "sha256:cfg" else Err notFound |}.

Definition blobs : list (string * string) :=
  [("sha256:index", indexDoc); ("sha256:index2", index2Doc);
   ("sha256:odd", oddDoc);
   ("sha256:m1", manifestDoc); ("sha256:bad", badSizeDoc);
   ("sha256:bare", bareDoc); ("sha256:junk", junkDoc)].

(** The image's lease holds its manifest list, next to a snapshot and a
    blob that is not JSON. *)
Definition good : ImageService :=
  service
    [("moby-image-sha256:cfg",
      [ {| leases.ID := "overlay/1"; leases.Type_ := "snapshots/overlayfs" |};
        contentResource "sha256:junk";
        contentResource "sha256:gone";
        contentResource "sha256:index" ])]
    blobs.

(** No lease is recorded for the image. *)
Definition unleased : ImageService := service [] blobs.

(** The lease holds a manifest list whose first manifest has a size of
    the wrong type and whose second has no config. *)
Definition stale : ImageService :=
  service [("moby-image-sha256:cfg", [contentResource "sha256:index2"])]
    blobs.

(** The lease holds a manifest list whose entry for the platform has the
    media type of an image index. *)
Definition odd : ImageService :=
  service [("moby-image-sha256:cfg", [contentResource "sha256:odd"])]
    blobs.
End Sample.

(* ------------------------------------------------------------------ *)
(** ** Vocabulary of the properties *)

(** The cap of [makeRdr], one decimal megabyte. *)
Definition readLimit : Z := 1000000.

(** A read that stayed within the cap. *)
Definition readWithinLimit (e : Event) : Prop :=
  match e with
  | ContentRead _ n => (0 <= n <= readLimit)%Z
  | _ => True
  end.

(** The image service with another listing of the lease resources: the
    registry gives [ls] for every lease; the other collaborators stay. *)
Definition withLeases (i : ImageService) (ls : list leases.Resource)
    : ImageService :=
  {| leases_ListResources := fun _ => Ok ls;
     content_ReaderAt := content_ReaderAt i;
     imageStore_Get := imageStore_Get i;
     imageStore_Search := imageStore_Search i;
     referenceStore_Get := referenceStore_Get i |}.

(** A call that opens or reads the blob of [dgst]. *)
Definition readsOf (dgst : digest.Digest) (e : Event) : Prop :=
  e = ContentReaderAt dgst \/ exists n, e = ContentRead dgst n.

(** [sub] occurs in [s]. *)
Definition Substring (sub s : string) : Prop :=
  exists pre post : string, s = (pre ++ sub ++ post)%string.

(** Two runs of the loop over the lease resources that differ at most in
    the value left in the variable [ml]. *)
Definition sameScan (c1 c2 : IO (bool * (manifestList * manifest))) : Prop :=
  calls c1 = calls c2
  /\ fst (result c1) = fst (result c2)
  /\ snd (snd (result c1)) = snd (snd (result c2)).

Section ScanVocabulary.
Context {PL : platforms.Pkg} {JS : JsonPkg}.
Variable i : ImageService.

(** The bytes a scan gets for a digest: the blob opened without error and
    read without error through [makeRdr]. *)
Definition readBlob (dgst : digest.Digest) : option (list byte) :=
  match content_ReaderAt i dgst with
  | Err _ => None
  | Ok ra =>
    match io.ReadAll (makeRdr ra) with
    | (data, None) => Some data
    | (_, Some _) => None
    end
  end.

(** The manifest-list entries of a lease resource: those its blob decodes
    to, on its own, when it is content that can be read and decoded. *)
Definition resourceEntries (r : leases.Resource)
    : option (list ocispec.Descriptor) :=
  if leases.Type_ r =? "content" then
    match readBlob (leases.ID r) with
    | None => None
    | Some data =>
      match json_Unmarshal_manifestList data zeroManifestList with
      | (ml, None) => Some (Manifests ml)
      | (_, Some _) => None
      end
    end
  else None.

(** The ways a content resource fails to give a manifest list: the content
    store has no reader for it (not found, or another error), reading it
    fails, or it does not decode. *)
Definition resourceUnreadable (r : leases.Resource) : Prop :=
  (exists e, content_ReaderAt i (leases.ID r) = Err e)
  \/ (exists ra e, content_ReaderAt i (leases.ID r) = Ok ra
                   /\ snd (io.ReadAll (makeRdr ra)) = Some e)
  \/ (exists data ml e, readBlob (leases.ID r) = Some data
         /\ json_Unmarshal_manifestList data zeroManifestList = (ml, Some e)).

(** The same for the manifest an entry refers to, before it is decoded. *)
Definition manifestUnreadable (md : ocispec.Descriptor) : Prop :=
  (exists e, content_ReaderAt i (ocispec.Digest md) = Err e)
  \/ (exists ra e, content_ReaderAt i (ocispec.Digest md) = Ok ra
                   /\ snd (io.ReadAll (makeRdr ra)) = Some e).

(** An entry of a manifest list that the design document counts as a match
    for the image: a manifest media type, a platform the exact matcher
    accepts, and a referenced manifest that can be read and that decodes,
    on its own, to a config digest equal to the image's identity. *)
Definition matchingEntry (img : image.Image) (platform : ocispec.Platform)
    (md : ocispec.Descriptor) : Prop :=
  isManifestMediaType (ocispec.MediaType md) = true
  /\ platforms.Match (platforms.Only platform) (ocispec.Platform_ md) = true
  /\ exists data m',
       readBlob (ocispec.Digest md) = Some data
       /\ json_Unmarshal_manifest data zeroManifest = (m', None)
       /\ ocispec.Digest (Config m') = image.ID_ img.

(** Some lease resource carries a matching entry. *)
Definition corroborated (img : image.Image) (platform : ocispec.Platform)
    (ls : list leases.Resource) : Prop :=
  exists r mds md,
    In r ls /\ resourceEntries r = Some mds /\ In md mds
    /\ matchingEntry img platform md.

(** A manifest whose text gives the config digest: decoding it succeeds
    and leaves that digest in the variable, whatever the variable held. *)
Definition manifestDeclaresConfig (data : list byte) (dgst : digest.Digest)
    : Prop :=
  forall m0, exists m1,
    json_Unmarshal_manifest data m0 = (m1, None)
    /\ ocispec.Digest (Config m1) = dgst.

(** An entry that refers to such a manifest of the image. *)
Definition declaredEntry (img : image.Image) (platform : ocispec.Platform)
    (md : ocispec.Descriptor) : Prop :=
  isManifestMediaType (ocispec.MediaType md) = true
  /\ platforms.Match (platforms.Only platform) (ocispec.Platform_ md) = true
  /\ exists data,
       readBlob (ocispec.Digest md) = Some data
       /\ manifestDeclaresConfig data (image.ID_ img).
End ScanVocabulary.

(* ------------------------------------------------------------------ *)
(** ** [PushImage] *)

(** [distribution.Push], by its result for the reference pushed. *)
Class DistributionPkg : Type := {
  distribution_Push : reference.Named -> option error
}.

(** What [PushImage] does, in order: the calls of [GetImage], the push,
    and the update of the metrics of image actions. *)
Inductive PushCall : Type :=
| ImageServiceCall (e : Event)
| DistributionPush (ref : reference.Named)
| MetricsUpdateSince (action : string).

Section Push.
Context {PL : platforms.Pkg} {CE : CerrdefsPkg} {RF : ReferencePkg}
        {JS : JsonPkg} {DP : DistributionPkg}.
Variable imageKey : string -> string.
Variable i : ImageService.

(** [func (i *ImageService) PushImage(ctx, ref, platform, metaHeaders,
    authConfig, outStream) error].  [ref.String()] is the reference itself,
    a [reference.Named] being held by its string form.  The goroutine that
    copies the progress of the push to [outStream] runs beside the push and
    is waited for before the return; it does not take part in the result
    and is left out, with the headers and credentials handed on to
    [distribution.Push]. *)
Definition PushImage (ref : reference.Named)
    (platform : option ocispec.Platform) : list PushCall * option error :=
  let checked :=
    match platform with
    | Some _ =>
      let c := GetImage imageKey i ref {| backend.Platform := platform |} in
      (map ImageServiceCall (calls c), snd (result c))
    | None => ([], None)
    end in
  match snd checked with
  | Some err => (fst checked, Some err)
  | None =>
    (fst checked ++ [DistributionPush ref; MetricsUpdateSince "push"],
     distribution_Push ref)
  end.
End Push.

Definition isDistributionPush (c : PushCall) : bool :=
  match c with DistributionPush _ => true | _ => false end.

(* ------------------------------------------------------------------ *)
(** ** Package [strings] *)

(** [strings.HasPrefix(s, prefix)] *)
Definition strings_HasPrefix (s prefix : string) : bool :=
  String.prefix prefix s.

(** [strings.Contains(s, substr)]: [substr] starts at some position of
    [s]. *)
Fixpoint strings_Contains (s substr : string) : bool :=
  String.prefix substr s
  || match s with
     | EmptyString => false
     | String _ s' => strings_Contains s' substr
     end.

(** Go's [int], 64 bits wide on the platforms the daemon runs on: the
    value of an arithmetic result that does not fit. *)
Definition wrapInt (z : Z) : Z :=
  ((z + 9223372036854775808) mod 18446744073709551616
   - 9223372036854775808)%Z.

(* ------------------------------------------------------------------ *)
(** ** Package [daemon] of the test utilities *)

Module daemon.

(** The errors of the package: its sentinel, those of the operating
    system, and those it wraps or builds with [github.com/pkg/errors], held
    by the format and its arguments. *)
Inductive error : Type :=
| errDaemonNotStarted
| External (msg : string)
| Wrapf (cause : error) (format : string) (args : list string)
| Errorf (format : string) (args : list string).

(** [os.Signal] *)
Inductive Signal : Type :=
| Interrupt_
| OtherSignal (n : Z).

(** [user.User], with the fields the start of the daemon reads. *)
Record User : Type := {
  Username : string;
  HomeDir : string
}.

(** [exec.Cmd] once started, by the process it runs. *)
Record Cmd : Type := {
  Pid : Z
}.

(** The daemon's log file as [ScanLogs] sees it: the error of [Stat], the
    lines [bufio.Scanner] gives for what the file holds, and the error
    that ends the scan ([None] at the end of the file). *)
Record LogFile : Type := {
  statErr : option error;
  Lines : list string;
  scanErr : option error
}.

(** [Daemon], with the fields the functions below use.  [Wait] is the
    channel the exit of the process is sent on; only its being nil or not
    is read here. *)
Record Daemon : Type := {
  Root : string;
  Folder : string;
  Wait : option unit;
  UseDefaultHost : bool;
  UseDefaultTLSHost : bool;
  id : string;
  logFile : LogFile;
  cmd : option Cmd;
  storageDriver : string;
  userlandProxy : bool;
  defaultCgroupNamespaceMode : string;
  execRoot : string;
  experimental : bool;
  init : bool;
  dockerdBinary : string;
  pidFile : string;
  args : list string;
  extraEnv : list string;
  containerdSocket : string;
  usernsRemap : string;
  rootlessUser : option User;
  rootlessXDGRuntimeDir : string
}.

(** Assignments to the fields that are written. *)
Definition setRoot (d : Daemon) (v : string) : Daemon :=
  {| Root := v; Folder := Folder d; Wait := Wait d;
     UseDefaultHost := UseDefaultHost d;
     UseDefaultTLSHost := UseDefaultTLSHost d; id := id d;
     logFile := logFile d; cmd := cmd d; storageDriver := storageDriver d;
     userlandProxy := userlandProxy d;
     defaultCgroupNamespaceMode := defaultCgroupNamespaceMode d;
     execRoot := execRoot d; experimental := experimental d;
     init := init d; dockerdBinary := dockerdBinary d;
     pidFile := pidFile d; args := args d; extraEnv := extraEnv d;
     containerdSocket := containerdSocket d; usernsRemap := usernsRemap d;
     rootlessUser := rootlessUser d;
     rootlessXDGRuntimeDir := rootlessXDGRuntimeDir d |}.

Definition setCmd (d : Daemon) (v : option Cmd) : Daemon :=
  {| Root := Root d; Folder := Folder d; Wait := Wait d;
     UseDefaultHost := UseDefaultHost d;
     UseDefaultTLSHost := UseDefaultTLSHost d; id := id d;
     logFile := logFile d; cmd := v; storageDriver := storageDriver d;
     userlandProxy := userlandProxy d;
     defaultCgroupNamespaceMode := defaultCgroupNamespaceMode d;
     execRoot := execRoot d; experimental := experimental d;
     init := init d; dockerdBinary := dockerdBinary d;
     pidFile := pidFile d; args := args d; extraEnv := extraEnv d;
     containerdSocket := containerdSocket d; usernsRemap := usernsRemap d;
     rootlessUser := rootlessUser d;
     rootlessXDGRuntimeDir := rootlessXDGRuntimeDir d |}.

Definition setPidFile (d : Daemon) (v : string) : Daemon :=
  {| Root := Root d; Folder := Folder d; Wait := Wait d;
     UseDefaultHost := UseDefaultHost d;
     UseDefaultTLSHost := UseDefaultTLSHost d; id := id d;
     logFile := logFile d; cmd := cmd d; storageDriver := storageDriver d;
     userlandProxy := userlandProxy d;
     defaultCgroupNamespaceMode := defaultCgroupNamespaceMode d;
     execRoot := execRoot d; experimental := experimental d;
     init := init d; dockerdBinary := dockerdBinary d;
     pidFile := v; args := args d; extraEnv := extraEnv d;
     containerdSocket := containerdSocket d; usernsRemap := usernsRemap d;
     rootlessUser := rootlessUser d;
     rootlessXDGRuntimeDir := rootlessXDGRuntimeDir d |}.

Definition setArgs (d : Daemon) (v : list string) : Daemon :=
  {| Root := Root d; Folder := Folder d; Wait := Wait d;
     UseDefaultHost := UseDefaultHost d;
     UseDefaultTLSHost := UseDefaultTLSHost d; id := id d;
     logFile := logFile d; cmd := cmd d; storageDriver := storageDriver d;
     userlandProxy := userlandProxy d;
     defaultCgroupNamespaceMode := defaultCgroupNamespaceMode d;
     execRoot := execRoot d; experimental := experimental d;
     init := init d; dockerdBinary := dockerdBinary d;
     pidFile := pidFile d; args := v; extraEnv := extraEnv d;
     containerdSocket := containerdSocket d; usernsRemap := usernsRemap d;
     rootlessUser := rootlessUser d;
     rootlessXDGRuntimeDir := rootlessXDGRuntimeDir d |}.

Definition setExtraEnv (d : Daemon) (v : list string) : Daemon :=
  {| Root := Root d; Folder := Folder d; Wait := Wait d;
     UseDefaultHost := UseDefaultHost d;
     UseDefaultTLSHost := UseDefaultTLSHost d; id := id d;
     logFile := logFile d; cmd := cmd d; storageDriver := storageDriver d;
     userlandProxy := userlandProxy d;
     defaultCgroupNamespaceMode := defaultCgroupNamespaceMode d;
     execRoot := execRoot d; experimental := experimental d;
     init := init d; dockerdBinary := dockerdBinary d;
     pidFile := pidFile d; args := args d; extraEnv := v;
     containerdSocket := containerdSocket d; usernsRemap := usernsRemap d;
     rootlessUser := rootlessUser d;
     rootlessXDGRuntimeDir := rootlessXDGRuntimeDir d |}.

(* ---------------- the log scanners ---------------- *)

(** A [func(string) bool] that keeps variables between its calls: a call
    takes the variables' values and the line, and gives their new values
    and the result. *)
Definition Match (St : Type) : Type := St -> string -> St * bool.

(** [func ScanLogsMatchString(contains string) func(string) bool] *)
Definition ScanLogsMatchString (contains : string) : Match unit :=
  fun _ line => (tt, strings_Contains line contains).

(** [func ScanLogsMatchCount(f func(string) bool, count int)
    func(string) bool]; the variable [matched] starts at 0. *)
Definition ScanLogsMatchCount {St : Type} (f : Match St) (count : Z)
    : Match (St * Z) :=
  fun vars line =>
    let (s, matched) := vars in
    let (s', hit) := f s line in
    let matched' := if hit then wrapInt (matched + 1) else matched in
    ((s', matched'), (matched' =? count)%Z).

(** [matched[c] = true] on a [map[string]bool], held by its keys. *)
Definition markMatched (c : string) (matched : list string) : list string :=
  if existsb (String.eqb c) matched then matched else matched ++ [c].

(** [func ScanLogsMatchAll(contains ...string) func(string) bool]; the map
    [matched] starts empty. *)
Definition ScanLogsMatchAll (contains : list string) : Match (list string) :=
  fun matched line =>
    let matched' :=
      fold_left
        (fun m c => if strings_Contains line c then markMatched c m else m)
        contains matched in
    (matched', Nat.eqb (length matched') (length contains)).

(** The loop of [ScanLogs] from the [k]-th line on.  [ctx k] is what
    [ctx.Err()] gives when the context is looked at after the [k]-th line:
    [None] while it is not done. *)
Fixpoint scanFrom {St : Type} (ctx : nat -> option error) (match_ : Match St)
    (scanErr_ : option error) (k : nat) (lines : list string) (st : St)
    : (bool * string * option error) * St :=
  match lines with
  | [] => ((false, "", scanErr_), st)
  | line :: rest =>
    let (st', ok) := match_ st line in
    if ok then ((true, line, None), st')
    else
      match ctx k with
      | Some err => ((false, "", Some err), st')
      | None => scanFrom ctx match_ scanErr_ (S k) rest st'
      end
  end.

(** [func (d *Daemon) ScanLogs(ctx, match) (bool, string, error)], with
    the values the variables of [match] hold before and after. *)
Definition ScanLogs {St : Type} (d : Daemon) (ctx : nat -> option error)
    (match_ : Match St) (st : St) : (bool * string * option error) * St :=
  match statErr (logFile d) with
  | Some err => ((false, "", Some err), st)
  | None =>
    scanFrom ctx match_ (scanErr (logFile d)) 0 (Lines (logFile d)) st
  end.

(** [poll.Result] *)
Inductive PollResult : Type :=
| PollSuccess
| PollContinue (msg : string)
| PollError (err : error).

(** One call of the check [PollCheckLogs(ctx, match)] returns. *)
Definition PollCheckLogs {St : Type} (d : Daemon) (ctx : nat -> option error)
    (match_ : Match St) (st : St) : PollResult * St :=
  let '((ok, _, err), st') := ScanLogs d ctx match_ st in
  (match err with
   | Some e => PollError e
   | None =>
     if negb ok then PollContinue "waiting for daemon logs match"
     else PollSuccess
   end, st').

(* ---------------- the environment of the daemon ---------------- *)

(** [slices.IndexFunc(s, f)]: the first index at which [f] holds, or -1. *)
Fixpoint IndexFunc {A : Type} (s : list A) (f : A -> bool) : Z :=
  match s with
  | [] => (-1)%Z
  | x :: rest =>
    if f x then 0%Z
    else let k := IndexFunc rest f in
         if (k <? 0)%Z then (-1)%Z else (k + 1)%Z
  end.

(** [s[idx] = v], for an index within the slice. *)
Fixpoint setIndex {A : Type} (s : list A) (idx : nat) (v : A) : list A :=
  match s, idx with
  | [], _ => []
  | _ :: rest, O => v :: rest
  | x :: rest, S n => x :: setIndex rest n v
  end.

(** [func (d *Daemon) SetEnvVar(name, val string)] *)
Definition SetEnvVar (d : Daemon) (name val : string) : Daemon :=
  let prefix := (name ++ "=")%string in
  let idx :=
    IndexFunc (extraEnv d) (fun ev => strings_HasPrefix ev prefix) in
  if (0 <? idx)%Z then
    setExtraEnv d (setIndex (extraEnv d) (Z.to_nat idx) (prefix ++ val)%string)
  else setExtraEnv d (extraEnv d ++ [(prefix ++ val)%string]).

(* ---------------- the process of the daemon ---------------- *)

(** What the functions below ask of the operating system. *)
Class OS : Type := {
  os_Getenv : string -> string;
  os_Environ : list string;
  exec_LookPath : string -> string + error;
  filepath_Join : list string -> string;
  filepath_Dir : string -> string;
  filepath_Base : string -> string;
  (** [tlsconfig.Client] on the fixtures of the tests, by its error *)
  tlsconfig_Client : option error;
  (** [sockets.ConfigureTransport(transport, proto, addr)], by its error *)
  sockets_ConfigureTransport : string -> string -> option error;
  (** the package variable [SockRoot] *)
  SockRoot : string;
  Process_Kill : Z -> option error;
  Process_Wait : Z -> option error;
  Process_Signal : Z -> Signal -> option error;
  (** [errors.Is(err, syscall.ECHILD)] *)
  isECHILD : error -> bool;
  os_RemoveAll : string -> option error
}.

(** An argument of a log line. *)
Inductive Arg : Type :=
| ArgS (s : string)
| ArgE (e : error).

(** What a function does to the world, in order. *)
Inductive Call : Type :=
| ProcessKill (pid : Z)
| ProcessWait (pid : Z)
| ProcessSignal (pid : Z) (sig : Signal)
| SignalDaemonDump (pid : Z)
| OsRemove (path : string)
| OsRemoveAll (path : string)
| LogFileClose
| Logf (format : string) (args : list Arg).

Definition defaultDockerdBinary : string := "dockerd".
Definition defaultDockerdRootlessBinary : string := "dockerd-rootless.sh".

Section Process.
Context {os : OS}.

(** [func (d *Daemon) Kill() error]: the calls made, the daemon
    afterwards, and the error. *)
Definition Kill (d : Daemon) : list Call * (Daemon * option error) :=
  match cmd d, Wait d with
  | Some c, Some _ =>
    (* the deferred function runs at each return below *)
    let d' := setCmd d None in
    match Process_Kill (Pid c) with
    | Some err => ([ProcessKill (Pid c); LogFileClose], (d', Some err))
    | None =>
      let werr := Process_Wait (Pid c) in
      let failed :=
        match werr with
        | Some err => negb (isECHILD err)
        | None => false
        end in
      if failed then
        ([ProcessKill (Pid c); ProcessWait (Pid c); LogFileClose],
         (d', werr))
      else if negb (pidFile d =? "") then
        ([ProcessKill (Pid c); ProcessWait (Pid c); OsRemove (pidFile d);
          LogFileClose],
         (d', None))
      else
        ([ProcessKill (Pid c); ProcessWait (Pid c); LogFileClose],
         (d', None))
    end
  | _, _ => ([], (d, Some errDaemonNotStarted))
  end.

(** [func (d *Daemon) Signal(signal os.Signal) error] *)
Definition Signal_ (d : Daemon) (sig : Signal) : list Call * option error :=
  match cmd d, Wait d with
  | Some c, Some _ => ([ProcessSignal (Pid c) sig], Process_Signal (Pid c) sig)
  | _, _ => ([], Some errDaemonNotStarted)
  end.

(** [func (d *Daemon) Interrupt() error] *)
Definition Interrupt (d : Daemon) : list Call * option error :=
  Signal_ d Interrupt_.

(** [func (d *Daemon) DumpStackAndQuit()] *)
Definition DumpStackAndQuit (d : Daemon) : list Call :=
  match cmd d with
  | None => []
  | Some c => [SignalDaemonDump (Pid c)]
  end.

(** [func (d *Daemon) sockPath() string] *)
Definition sockPath (d : Daemon) : string :=
  filepath_Join [SockRoot; (id d ++ ".sock")%string].

(** [func (d *Daemon) Sock() string] *)
Definition Sock (d : Daemon) : string := ("unix://" ++ sockPath d)%string.

(** [func (d *Daemon) BinaryPath() (string, error)] *)
Definition BinaryPath (d : Daemon) : string + error :=
  match exec_LookPath (dockerdBinary d) with
  | inr err =>
    inr (Wrapf err "[%s] could not find docker binary in $PATH" [id d])
  | inl dockerdBinary_ => inl dockerdBinary_
  end.

(** [func (d *Daemon) handleUserns()] *)
Definition handleUserns (d : Daemon) : Daemon :=
  if negb (os_Getenv "DOCKER_REMAP_ROOT" =? "") then
    setRoot d (filepath_Dir (Root d))
  else d.

Definition defaultUnixSocket : string := "/var/run/docker.sock".
Definition defaultTLSHost : string := "localhost:2376".

(** [http.Transport] as [getClientConfig] leaves it: whether it has a TLS
    configuration, the protocol and address it was configured to dial, and
    [DisableKeepAlives]. *)
Record Transport : Type := {
  TLSClientConfig : bool;
  dialProto : string;
  dialAddr : string;
  DisableKeepAlives : bool
}.

(** [clientConfig] *)
Record clientConfig : Type := {
  transport : Transport;
  scheme : string;
  addr : string
}.

(** [func (d *Daemon) getClientConfig()], which returns a pointer to a
    [clientConfig], or an error. *)
Definition getClientConfig (d : Daemon) : clientConfig + error :=
  let chosen : (bool * string * string * string) + error :=
    if UseDefaultTLSHost d then
      match tlsconfig_Client with
      | Some err => inr err
      | None => inl (true, "https", defaultTLSHost, "tcp")
      end
    else if UseDefaultHost d then
      inl (false, "http", defaultUnixSocket, "unix")
    else inl (false, "http", sockPath d, "unix") in
  match chosen with
  | inr err => inr err
  | inl (tls, scheme_, addr_, proto) =>
    match sockets_ConfigureTransport proto addr_ with
    | Some err => inr err
    | None =>
      inl {| transport :=
               {| TLSClientConfig := tls; dialProto := proto;
                  dialAddr := addr_; DisableKeepAlives := true |};
             scheme := scheme_;
             addr := if proto =? "unix" then filepath_Base addr_
                     else addr_ |}
    end
  end.

(** [strconv.FormatBool] *)
Definition FormatBool (b : bool) : string := if b then "true" else "false".

(** The command [exec.Command(dockerdBinary, d.args...)] with its
    environment. *)
Record Command : Type := {
  Path : string;
  Args : list string;
  Env : list string
}.

(** [d.args = append(d.args, flag...)] when [cond] holds. *)
Definition appendIf (cond : bool) (flags : list string) (a : list string)
    : list string :=
  if cond then a ++ flags else a.

(** The flags [StartWithLogFile] gives the daemon before the provided
    ones, lines 485 to 538, on top of [args0]. *)
Definition ownArgs (d : Daemon) (args0 providedArgs : list string)
    : list string :=
  let a :=
    args0 ++
    ["--config-file"; "/dev/null";
     "--data-root"; Root d;
     "--exec-root"; execRoot d;
     "--pidfile"; pidFile d;
     ("--userland-proxy=" ++ FormatBool (userlandProxy d))%string;
     "--containerd-namespace"; id d;
     "--containerd-plugins-namespace"; (id d ++ "p")%string] in
  let a := appendIf (negb (containerdSocket d =? ""))
             ["--containerd"; containerdSocket d] a in
  let a := appendIf (negb (usernsRemap d =? ""))
             ["--userns-remap"; usernsRemap d] a in
  let a := appendIf (negb (defaultCgroupNamespaceMode d =? ""))
             ["--default-cgroupns-mode"; defaultCgroupNamespaceMode d] a in
  let a := appendIf (experimental d) ["--experimental"] a in
  let a := appendIf (init d) ["--init"] a in
  let a := appendIf (negb (UseDefaultHost d) && negb (UseDefaultTLSHost d))
             ["--host"; Sock d] a in
  let a := appendIf (negb (os_Getenv "DOCKER_REMAP_ROOT" =? ""))
             ["--userns-remap"; os_Getenv "DOCKER_REMAP_ROOT"] a in
  let foundLog :=
    existsb (fun a0 => strings_Contains a0 "--log-level"
                       || strings_Contains a0 "-D"
                       || strings_Contains a0 "--debug") providedArgs in
  let foundSd :=
    existsb (fun a0 => strings_Contains a0 "--storage-driver")
      providedArgs in
  let a := appendIf (negb foundLog) ["--debug"] a in
  let a := appendIf (negb (storageDriver d =? "") && negb foundSd)
             ["--storage-driver"; storageDriver d] a in
  let hasFwBackendArg :=
    negb (existsb (fun s => strings_HasPrefix s "--firewall-backend")
            providedArgs) in
  appendIf (hasFwBackendArg
            && negb (os_Getenv "DOCKER_FIREWALL_BACKEND" =? ""))
    [("--firewall-backend=" ++ os_Getenv "DOCKER_FIREWALL_BACKEND")%string] a.

(** [StartWithLogFile], lines 453 to 544: the daemon as its fields are
    left, and the command that is about to be started or the error
    returned before. *)
Definition StartWithLogFile_command (d : Daemon)
    (providedArgs : list string) : Daemon * (Command + error) :=
  let d := handleUserns d in
  match BinaryPath d with
  | inr err => (d, inr err)
  | inl dockerdBinary_ =>
    let d :=
      if pidFile d =? "" then
        setPidFile d (filepath_Join [Folder d; "docker.pid"])
      else d in
    let d := setArgs d [] in
    let env :=
      (os_Environ ++ ["DOCKER_SERVICE_PREFER_OFFLINE_IMAGE=1"])
      ++ extraEnv d ++ [("OTEL_SERVICE_NAME=dockerd-" ++ id d)%string] in
    match rootlessUser d with
    | Some u =>
      if negb (dockerdBinary d =? defaultDockerdBinary) then
        (d, inr (Errorf
           "[%s] DOCKER_ROOTLESS doesn't support non-default dockerd binary path %q"
           [id d; dockerdBinary d]))
      else
        let args0 :=
          ["-u"; Username u; "--preserve-env"; "--preserve-env=PATH";
           ("XDG_RUNTIME_DIR=" ++ rootlessXDGRuntimeDir d)%string;
           ("HOME=" ++ HomeDir u)%string; "--";
           defaultDockerdRootlessBinary] in
        let a := ownArgs d args0 providedArgs ++ providedArgs in
        (setArgs d a, inl {| Path := "sudo"; Args := a; Env := env |})
    | None =>
      let a := ownArgs d [] providedArgs ++ providedArgs in
      (setArgs d a, inl {| Path := dockerdBinary_; Args := a; Env := env |})
    end
  end.

(** The loop of [cleanupRaftDir] and [cleanupDaemonStorage]: each
    directory under [base] is removed, and a failure is logged. *)
Fixpoint removeDirs (d : Daemon) (base : list string) (dirs : list string)
    : list Call :=
  match dirs with
  | [] => []
  | p0 :: rest =>
    let dir := filepath_Join (base ++ [p0]) in
    match os_RemoveAll dir with
    | Some err =>
      OsRemoveAll dir
      :: Logf "[%s] error removing %v: %v" [ArgS (id d); ArgS dir; ArgE err]
      :: removeDirs d base rest
    | None => OsRemoveAll dir :: removeDirs d base rest
    end
  end.

(** [func cleanupRaftDir(t testing.TB, d *Daemon)] *)
Definition cleanupRaftDir (d : Daemon) : list Call :=
  removeDirs d [Root d; "swarm/raft"]
    ["wal"; "wal-v3-encrypted"; "snap-v3-encrypted"].

(** [func cleanupDaemonStorage(t testing.TB, d *Daemon)] *)
Definition cleanupDaemonStorage (d : Daemon) : list Call :=
  removeDirs d [Root d]
    ["builder"; "buildkit"; "containers"; "image"; "network"; "plugins";
     "tmp"; "trust"; "volumes"; storageDriver d].
End Process.
End daemon.

(* ------------------------------------------------------------------ *)
(** ** Package [client]: exec and container listing *)

Module client.

(** A console size, [*[2]uint]. *)
Definition ConsoleSize := option (Z * Z).

(** [container.ExecOptions], with the fields read here and the command. *)
Record ExecOptions : Type := {
  Tty : bool;
  ExecConsoleSize : ConsoleSize;
  ExecEnv : list string;
  Cmd : list string
}.

(** [container.ExecStartOptions], which [container.ExecAttachOptions]
    names too. *)
Record ExecStartOptions : Type := {
  Detach : bool;
  StartTty : bool;
  StartConsoleSize : ConsoleSize
}.

(** [url.Values], a map from a key to its values, held as the list of its
    entries. *)
Definition Values := list (string * list string).



(** [v.Has(key)] *)
Definition Values_Has (v : Values) (key : string) : bool :=
  existsb (fun kv => fst kv =? key) v.

(** What is sent as the body of a request. *)
Inductive Body : Type :=
| NoBody
| ExecOptionsBody (options : ExecOptions)
| ExecStartBody (config : ExecStartOptions).

(** A request of the client, and the closing of the reader of a response
    by [ensureReaderClosed]. *)
Inductive Call : Type :=
| Post (path : string) (body : Body)
| PostHijacked (path : string) (body : Body)
    (headers : list (string * list string))
| Get (path : string) (query : Values)
| ReaderClosed.

(** The client's own helpers, declared outside these sources, the server
    it talks to and the decoders of its answers.  [Filters] is
    [filters.Args]; [Response] what a request gives back;
    [ExecCreateResponse], [ExecInspect], [Summary] and [HijackedResponse]
    the decoded answers. *)
Class Env : Type := {
  Filters : Type;
  Response : Type;
  ExecCreateResponse : Type;
  ExecInspect : Type;
  Summary : Type;
  HijackedResponse : Type;
  zeroExecCreateResponse : ExecCreateResponse;
  zeroExecInspect : ExecInspect;
  trimID : string -> string -> Result string;
  checkVersion : option error;
  NewVersionError : string -> string -> option error;
  ClientVersion : string;
  (** the field [cli.version] *)
  version : string;
  versions_LessThan : string -> string -> bool;
  post : string -> Body -> Result Response;
  postHijacked :
    string -> Body -> list (string * list string)
    -> HijackedResponse * option error;
  get : string -> Values -> Result Response;
  filters_Len : Filters -> Z;
  filters_ToParamWithVersion : string -> Filters -> Result string;
  strconv_Itoa : Z -> string;
  decodeExecCreateResponse :
    Response -> ExecCreateResponse -> ExecCreateResponse * option error;
  decodeExecInspect : Response -> ExecInspect -> ExecInspect * option error;
  decodeSummaries :
    Response -> list Summary -> list Summary * option error
}.

Section Client.
Context {E : Env}.


(** [options.ConsoleSize = nil] for a client older than API 1.42. *)
Definition dropConsoleSize (cs : ConsoleSize) : ConsoleSize :=
  if versions_LessThan ClientVersion "1.42" then None else cs.

(** [func (cli *Client) ContainerExecCreate(ctx, containerID, options)
    (container.ExecCreateResponse, error)] *)
Definition ContainerExecCreate (containerID : string)
    (options : ExecOptions) : list Call * (ExecCreateResponse * option error) :=
  match trimID "container" containerID with
  | Err err => ([], (zeroExecCreateResponse, Some err))
  | Ok containerID =>
    match checkVersion with
    | Some err => ([], (zeroExecCreateResponse, Some err))
    | None =>
      let envErr := NewVersionError "1.25" "env" in
      match envErr, negb (Nat.eqb (length (ExecEnv options)) 0) with
      | Some err, true => ([], (zeroExecCreateResponse, Some err))
      | _, _ =>
        let options :=
          {| Tty := Tty options;
             ExecConsoleSize := dropConsoleSize (ExecConsoleSize options);
             ExecEnv := ExecEnv options; Cmd := Cmd options |} in
        let path := ("/containers/" ++ containerID ++ "/exec")%string in
        match post path (ExecOptionsBody options) with
        | Err err =>
          ([Post path (ExecOptionsBody options); ReaderClosed],
           (zeroExecCreateResponse, Some err))
        | Ok resp =>
          ([Post path (ExecOptionsBody options); ReaderClosed],
           decodeExecCreateResponse resp zeroExecCreateResponse)
        end
      end
    end
  end.

(** [config.ConsoleSize = nil] for a client older than API 1.42. *)
Definition dropStartConsoleSize (config : ExecStartOptions)
    : ExecStartOptions :=
  {| Detach := Detach config; StartTty := StartTty config;
     StartConsoleSize := dropConsoleSize (StartConsoleSize config) |}.

(** [func (cli *Client) ContainerExecStart(ctx, execID, config) error] *)
Definition ContainerExecStart (execID : string) (config : ExecStartOptions)
    : list Call * option error :=
  let config := dropStartConsoleSize config in
  let path := ("/exec/" ++ execID ++ "/start")%string in
  ([Post path (ExecStartBody config); ReaderClosed],
   match post path (ExecStartBody config) with
   | Err err => Some err
   | Ok _ => None
   end).

(** [func (cli *Client) ContainerExecAttach(ctx, execID, config)
    (types.HijackedResponse, error)] *)
Definition ContainerExecAttach (execID : string) (config : ExecStartOptions)
    : list Call * (HijackedResponse * option error) :=
  let config := dropStartConsoleSize config in
  let path := ("/exec/" ++ execID ++ "/start")%string in
  let headers := [("Content-Type", ["application/json"])] in
  ([PostHijacked path (ExecStartBody config) headers],
   postHijacked path (ExecStartBody config) headers).

(** [func (cli *Client) ContainerExecInspect(ctx, execID)
    (container.ExecInspect, error)] *)
Definition ContainerExecInspect (execID : string)
    : list Call * (ExecInspect * option error) :=
  let path := ("/exec/" ++ execID ++ "/json")%string in
  match get path [] with
  | Err err => ([Get path []], (zeroExecInspect, Some err))
  | Ok resp =>
    ([Get path []; ReaderClosed], decodeExecInspect resp zeroExecInspect)
  end.


End Client.

Definition isRequest (c : Call) : bool :=
  match c with ReaderClosed => false | _ => true end.
End client.

(* ------------------------------------------------------------------ *)
(** ** [ProvenanceProcessor] *)

Module proc.

(** [map[string]string], held as the list of its entries. *)
Definition Attrs := list (string * string).




(** The build result, the solver and [strconv.ParseBool]. *)
Class Env : Type := {
  Capture : Type;
  Ref : Type;
  Creator : Type;
  (** [exptypes.ParsePlatforms(res.Metadata)], by the platforms' IDs *)
  ParsePlatforms : Result (list string);
  (** [res.Provenance.FindRef(id)]: [None] when not found, [Some None] for
      a nil capture *)
  Provenance_FindRef : string -> option (option Capture);
  (** [res.FindRef(id)] *)
  FindRef : string -> option Ref;
  NewProvenanceCreator : Capture -> Ref -> Attrs -> Result Creator;
  Creator_PredicateType : Creator -> string;
  ParseBool : string -> bool * option error
}.

Section Processor.
Context {E : Env}.

Definition FormatBool (b : bool) : string := if b then "true" else "false".


End Processor.
End proc.

(* ------------------------------------------------------------------ *)
(** ** Vocabulary of the properties of the test daemon *)

(** The results of the calls of a matcher on the lines of a log, in
    order, and the values of its variables afterwards. *)
Fixpoint runMatch {St : Type} (m : daemon.Match St) (st : St)
    (lines : list string) : list bool * St :=
  match lines with
  | [] => ([], st)
  | line :: rest =>
    let (st', b) := m st line in
    let (bs, st'') := runMatch m st' rest in
    (b :: bs, st'')
  end.

(** How many calls returned [true]. *)
Definition hits (bs : list bool) : nat := length (filter (fun b => b) bs).

(** Some line of the log contains [c]. *)
Definition seenIn (lines : list string) (c : string) : bool :=
  existsb (fun line => strings_Contains line c) lines.

(** A context that is not done during a scan. *)
Definition notDone : nat -> option daemon.error := fun _ => None.


(** An argument of the command line that [StartWithLogFile] takes as
    setting the log level. *)
Definition logFlag (a0 : string) : bool :=
  strings_Contains a0 "--log-level" || strings_Contains a0 "-D"
  || strings_Contains a0 "--debug".

(** The paths [os.RemoveAll] was called on, in order. *)
Definition removed (calls : list daemon.Call) : list string :=
  flat_map (fun c => match c with
                     | daemon.OsRemoveAll p0 => [p0]
                     | _ => []
                     end) calls.

(** The paths whose removal was logged as failed, in order. *)
Definition loggedFailures (calls : list daemon.Call) : list string :=
  flat_map (fun c => match c with
                     | daemon.Logf _ [_; daemon.ArgS dir; daemon.ArgE _] =>
                       [dir]
                     | _ => []
                     end) calls.

(** The directories [cleanupDaemonStorage] removes under the root. *)
Definition storageDirs (d : daemon.Daemon) : list string :=
  ["builder"; "buildkit"; "containers"; "image"; "network"; "plugins";
   "tmp"; "trust"; "volumes"; daemon.storageDriver d].

(** [RemoveAll] fails on a path. *)
Definition removalFails {os : daemon.OS} (dir : string) : bool :=
  match daemon.os_RemoveAll dir with
  | Some _ => true
  | None => false
  end.

(* ------------------------------------------------------------------ *)
(** ** Vocabulary of the properties of the client and the processor *)

(** The console size a body carries. *)
Definition bodyConsoleSize (b : client.Body) : client.ConsoleSize :=
  match b with
  | client.NoBody => None
  | client.ExecOptionsBody o => client.ExecConsoleSize o
  | client.ExecStartBody c => client.StartConsoleSize c
  end.

(** The body of a request. *)
Definition callBody (c : client.Call) : client.Body :=
  match c with
  | client.Post _ b => b
  | client.PostHijacked _ b _ => b
  | _ => client.NoBody
  end.




(* ------------------------------------------------------------------ *)
(** ** A test daemon, its operating system and a build result *)

Module Testbed.

(** Every push succeeds. *)
Definition DP : DistributionPkg :=
  {| distribution_Push := fun _ => None |}.

(** [filepath.Join] on clean elements: the elements that are not empty,
    with a separator between them. *)
Fixpoint join (elems : list string) : string :=
  match elems with
  | [] => ""
  | e :: rest =>
    if e =? "" then join rest
    else let r := join rest in
         if r =? "" then e else (e ++ "/" ++ r)%string
  end.

Fixpoint hasSeparator (s : string) : bool :=
  match s with
  | EmptyString => false
  | String c rest => (c =? "/")%char || hasSeparator rest
  end.

(** [filepath.Dir] on a clean path with a directory part: the path
    without its last element. *)
Fixpoint dir (s : string) : string :=
  match s with
  | EmptyString => EmptyString
  | String c rest => if hasSeparator rest then String c (dir rest)
                     else EmptyString
  end.

(** [filepath.Base] on a clean path: its last element. *)
Fixpoint base (s : string) : string :=
  match s with
  | EmptyString => EmptyString
  | String c rest => if hasSeparator rest then base rest
                     else if (c =? "/")%char then rest else s
  end.

Definition noChild : daemon.error :=
  daemon.External "wait: no child processes".

Definition busy : daemon.error :=
  daemon.External "device or resource busy".

(** An operating system where [dockerd] is found, every process can be
    killed and signalled and has been reaped when it is waited for, and
    the directory [tmp] of the daemon is busy. *)
Definition os : daemon.OS :=
  {| daemon.os_Getenv := fun k =>
       if k =? "DOCKER_FIREWALL_BACKEND" then "nftables" else "";
     daemon.os_Environ := ["PATH=/usr/bin"];
     daemon.exec_LookPath := fun b =>
       if (b =? "dockerd") || (b =? "dockerd-dev") then
         inl ("/usr/bin/" ++ b)%string
       else
         inr (daemon.External "executable file not found in $PATH");
     daemon.filepath_Join := join;
     daemon.filepath_Dir := dir;
     daemon.filepath_Base := base;
     daemon.tlsconfig_Client := None;
     daemon.sockets_ConfigureTransport := fun _ _ => None;
     daemon.SockRoot := "/tmp/docker-integration";
     daemon.Process_Kill := fun _ => None;
     daemon.Process_Wait := fun _ => Some noChild;
     daemon.Process_Signal := fun _ _ => None;
     daemon.isECHILD := fun e =>
       match e with
       | daemon.External msg => msg =? "wait: no child processes"
       | _ => false
       end;
     daemon.os_RemoveAll := fun p0 =>
       if p0 =? "/var/lib/d1/tmp" then Some busy else None |}.

Definition log : daemon.LogFile :=
  {| daemon.statErr := None;
     daemon.Lines :=
       ["level=info msg=starting";
        "level=debug msg=listening";
        "level=info msg=ready"];
     daemon.scanErr := None |}.

(** A started daemon, and a rootless one. *)
Definition started (rootless : option daemon.User) (binary : string)
    (lf : daemon.LogFile) (env : list string) : daemon.Daemon :=
  {| daemon.Root := "/var/lib/d1"; daemon.Folder := "/tmp/d1";
     daemon.Wait := Some tt; daemon.UseDefaultHost := false;
     daemon.UseDefaultTLSHost := false; daemon.id := "d1";
     daemon.logFile := lf; daemon.cmd := Some {| daemon.Pid := 42 |};
     daemon.storageDriver := "overlay2"; daemon.userlandProxy := true;
     daemon.defaultCgroupNamespaceMode := ""; daemon.execRoot := "/tmp/dxr/d1";
     daemon.experimental := false; daemon.init := false;
     daemon.dockerdBinary := binary; daemon.pidFile := "/tmp/d1/docker.pid";
     daemon.args := []; daemon.extraEnv := env;
     daemon.containerdSocket := ""; daemon.usernsRemap := "";
     daemon.rootlessUser := rootless;
     daemon.rootlessXDGRuntimeDir := "/tmp/xdg" |}.

Definition d1 : daemon.Daemon :=
  started None "dockerd" log ["FOO=1"; "BAR=2"].

Definition unpriv : daemon.User :=
  {| daemon.Username := "unpriv"; daemon.HomeDir := "/home/unpriv" |}.

Definition rootless : daemon.Daemon :=
  started (Some unpriv) "dockerd-dev" log [].

(** A daemon whose log holds the lines of [log] twice. *)
Definition twice : daemon.Daemon :=
  started None "dockerd"
    {| daemon.statErr := None;
       daemon.Lines := daemon.Lines log ++ daemon.Lines log;
       daemon.scanErr := None |}
    ["FOO=1"; "BAR=2"].

End Testbed.
(* ------------------------------------------------------------------ *)
(** * Properties *)

(** ** The fallback matcher *)

Section FallbackProperties.
Context {PL : platforms.Pkg}.

Lemma Matches_unfold (d c : ocispec.Platform) :
  Matches d c =
  platforms.Match (platforms.Only d) c
  || ((ocispec.Variant c =? "")
      && (ocispec.OS (platforms.Normalize d)
            =? ocispec.OS (platforms.Normalize c))
      && (ocispec.Architecture (platforms.Normalize d)
            =? ocispec.Architecture (platforms.Normalize c))).
Proof.
  unfold Matches, OnlyPlatformWithFallback, onlyFallbackMatcher_Match; simpl.
  destruct (platforms.Match (platforms.Only d) c); simpl; [reflexivity|].
  destruct (ocispec.Variant c =? ""); reflexivity.
Qed.

Lemma Matches_baseline (d c : ocispec.Platform) :
  platforms.Match (platforms.Only d) c = true -> Matches d c = true.
Proof. intros H. rewrite Matches_unfold, H. reflexivity. Qed.

Lemma Matches_variant_set (d c : ocispec.Platform) :
  platforms.Match (platforms.Only d) c = false ->
  ocispec.Variant c <> "" ->
  Matches d c = false.
Proof.
  intros H Hv. rewrite Matches_unfold, H.
  apply String.eqb_neq in Hv. rewrite Hv. reflexivity.
Qed.

(** C2: the fallback matcher accepts a candidate exactly when the baseline
    matcher accepts it, or the baseline rejects it, the candidate's variant
    is empty and the normalized candidate has the OS and the architecture
    of the normalized desired platform; a candidate the baseline rejects
    and whose variant is set is rejected. *)
Theorem Matches_iff_baseline_or_fallback (d c : ocispec.Platform) :
  (Matches d c = true <->
     platforms.Match (platforms.Only d) c = true
     \/ (platforms.Match (platforms.Only d) c = false
         /\ ocispec.Variant c = ""
         /\ ocispec.OS (platforms.Normalize c)
              = ocispec.OS (platforms.Normalize d)
         /\ ocispec.Architecture (platforms.Normalize c)
              = ocispec.Architecture (platforms.Normalize d)))
  /\ (platforms.Match (platforms.Only d) c = false
      /\ ocispec.Variant c <> "" -> Matches d c = false).
Proof.
  split.
  - rewrite Matches_unfold. split.
    + destruct (platforms.Match (platforms.Only d) c) eqn:B; [now left|].
      simpl. intros H. right.
      apply andb_prop in H as [H Ha]. apply andb_prop in H as [Hv Ho].
      apply String.eqb_eq in Hv, Ho, Ha. auto.
    + intros [B | (B & Hv & Ho & Ha)]; rewrite B; [reflexivity|]. simpl.
      rewrite Ho, Ha, Hv, !String.eqb_refl. reflexivity.
  - intros [B Hv]. now apply Matches_variant_set.
Qed.
End FallbackProperties.

(** C2 on the image of the design document's example: linux/arm without
    variant, asked for as linux/arm/v7, is accepted by the fallback. *)
Lemma Matches_iff_baseline_or_fallback_example :
  let d := {| ocispec.Architecture := "arm"; ocispec.OS := "linux";
              ocispec.Variant := "v7" |} in
  let c := {| ocispec.Architecture := "arm"; ocispec.OS := "linux";
              ocispec.Variant := "" |} in
  platforms.Match (@platforms.Only Sample.PL d) c = false
  /\ @Matches Sample.PL d c = true.
Proof.
  split; [reflexivity|].
  apply (proj1 (@Matches_iff_baseline_or_fallback Sample.PL _ _)).
  right. repeat split.
Defined.

Section SpecBaseline.
Variable compatibleVariant : string -> string -> bool.
Variable defaultVariant : string -> string -> string.
Variable formatAll : ocispec.Platform -> string.

Let SPL : platforms.Pkg :=
  SpecPlatforms.pkg compatibleVariant defaultVariant formatAll.

Lemma SpecNormalize_OS (p0 : ocispec.Platform) :
  ocispec.OS (@platforms.Normalize SPL p0) = ocispec.OS p0.
Proof. reflexivity. Qed.

Lemma SpecNormalize_Architecture (p0 : ocispec.Platform) :
  ocispec.Architecture (@platforms.Normalize SPL p0)
  = ocispec.Architecture p0.
Proof. reflexivity. Qed.

Lemma SpecOnly_same_OS_Architecture (d c : ocispec.Platform) :
  platforms.Match (@platforms.Only SPL d) c = true ->
  ocispec.OS d = ocispec.OS c
  /\ ocispec.Architecture d = ocispec.Architecture c.
Proof.
  simpl. intros H.
  apply andb_prop in H as [H _]. apply andb_prop in H as [Ho Ha].
  apply String.eqb_eq in Ho, Ha. now split.
Qed.

(** C7: over the baseline matcher and the normalization of the design
    document, the fallback matcher rejects every candidate whose OS or
    whose architecture differs from the desired one, whatever the two
    variants are. *)
Theorem Matches_false_on_OS_or_Architecture_mismatch
    (desired candidate : ocispec.Platform) :
  ocispec.OS desired <> ocispec.OS candidate
  \/ ocispec.Architecture desired <> ocispec.Architecture candidate ->
  @Matches SPL desired candidate = false.
Proof.
  intros Hne. rewrite Matches_unfold.
  apply orb_false_intro.
  - destruct (platforms.Match (@platforms.Only SPL desired) candidate)
      eqn:B; [exfalso|reflexivity].
    apply SpecOnly_same_OS_Architecture in B as [Ho Ha].
    destruct Hne as [Hne | Hne]; contradiction.
  - rewrite !SpecNormalize_OS, !SpecNormalize_Architecture.
    destruct Hne as [Hne | Hne]; apply String.eqb_neq in Hne; rewrite Hne;
      [rewrite andb_false_r; reflexivity | apply andb_false_r].
Qed.
End SpecBaseline.

(** C7 on the design document's second example: linux/arm asked for as
    linux/arm64/v8. *)
Lemma Matches_false_on_OS_or_Architecture_mismatch_example :
  @Matches Sample.PL Sample.arm64v8
    {| ocispec.Architecture := "arm"; ocispec.OS := "linux";
       ocispec.Variant := "" |} = false.
Proof.
  apply (Matches_false_on_OS_or_Architecture_mismatch
           Sample.compatibleVariant Sample.defaultVariant Sample.formatAll).
  right. simpl. discriminate.
Defined.

(* ------------------------------------------------------------------ *)
(** ** Calls and results *)

Lemma calls_bind (A B : Type) (c : IO A) (k : A -> IO B) :
  calls (bind c k) = calls c ++ calls (k (result c)).
Proof. reflexivity. Qed.

Lemma result_bind (A B : Type) (c : IO A) (k : A -> IO B) :
  result (bind c k) = result (k (result c)).
Proof. reflexivity. Qed.

Lemma bind_emit (A : Type) (e : Event) (c : IO A) :
  (emit e ;; c) = (e :: calls c, result c).
Proof. reflexivity. Qed.

Lemma IO_eta (A : Type) (c : IO A) : c = (calls c, result c).
Proof. now destruct c. Qed.

(* ------------------------------------------------------------------ *)
(** ** The bounded reader *)

Lemma take_firstn (bytes : list byte) :
  forall n : Z, io.take n bytes = firstn (Z.to_nat n) bytes.
Proof.
  induction bytes as [|b rest IH]; intros n; simpl.
  - now rewrite firstn_nil.
  - destruct (0 <? n)%Z eqn:Hn.
    + apply Z.ltb_lt in Hn. rewrite IH.
      replace (Z.to_nat n) with (S (Z.to_nat (n - 1))) by lia.
      reflexivity.
    + apply Z.ltb_ge in Hn.
      replace (Z.to_nat n) with 0%nat by lia. reflexivity.
Qed.

Lemma take_length (bytes : list byte) (n : Z) :
  (0 <= n)%Z ->
  Z.of_nat (length (io.take n bytes))
  = Z.min n (Z.of_nat (length bytes)).
Proof.
  intros Hn. rewrite take_firstn, length_firstn. lia.
Qed.

Lemma take_prefix (bytes : list byte) (n : Z) :
  io.take n bytes = firstn (length (io.take n bytes)) bytes.
Proof.
  rewrite take_firstn, length_firstn.
  destruct (Nat.le_ge_cases (Z.to_nat n) (length bytes)) as [H | H].
  - now rewrite Nat.min_l.
  - rewrite Nat.min_r by exact H. now rewrite !firstn_all2 by lia.
Qed.

Lemma take_take (bytes : list byte) (n k : Z) :
  io.take n (io.take k bytes) = io.take (Z.min n k) bytes.
Proof.
  rewrite !take_firstn, firstn_firstn. f_equal. lia.
Qed.

Lemma makeRdr_stream (ra : content.ReaderAt) :
  io.stream (makeRdr ra)
  = io.take (Z.min readLimit (content.Size ra)) (content.contents ra).
Proof. unfold makeRdr. simpl. rewrite take_take. f_equal. Qed.

Lemma makeRdr_length (ra : content.ReaderAt) :
  (0 <= Z.of_nat (length (io.stream (makeRdr ra))) <= readLimit)%Z.
Proof.
  split; [lia|]. unfold makeRdr. simpl.
  rewrite take_length by (unfold readLimit; lia). unfold readLimit. lia.
Qed.

(* ------------------------------------------------------------------ *)
(** ** Loops with an early return *)

Section Range.
Variables A S : Type.
Variable body : A -> S -> IO (bool * S).

Lemma range_cons_found (x : A) (rest : list A) (s s' : S) :
  result (body x s) = (true, s') ->
  calls (range body (x :: rest) s) = calls (body x s)
  /\ result (range body (x :: rest) s) = (true, s').
Proof.
  simpl. unfold bind, calls, result.
  destruct (body x s) as [tr [f st]]; simpl. intros H; inversion H; subst.
  simpl. now rewrite app_nil_r.
Qed.

Lemma range_cons_continue (x : A) (rest : list A) (s s' : S) :
  result (body x s) = (false, s') ->
  calls (range body (x :: rest) s)
  = calls (body x s) ++ calls (range body rest s')
  /\ result (range body (x :: rest) s) = result (range body rest s').
Proof.
  simpl. unfold bind, calls, result.
  destruct (body x s) as [tr [f st]]; simpl. intros H; inversion H; subst.
  now split.
Qed.

Lemma range_cons_cases (x : A) (rest : list A) (s : S) :
  (fst (result (body x s)) = true
   /\ calls (range body (x :: rest) s) = calls (body x s)
   /\ result (range body (x :: rest) s) = (true, snd (result (body x s))))
  \/ (fst (result (body x s)) = false
      /\ calls (range body (x :: rest) s)
         = calls (body x s)
           ++ calls (range body rest (snd (result (body x s))))
      /\ result (range body (x :: rest) s)
         = result (range body rest (snd (result (body x s))))).
Proof.
  destruct (result (body x s)) as [f st] eqn:E. destruct f.
  - left. simpl. split; [reflexivity|]. now apply range_cons_found.
  - right. simpl. split; [reflexivity|]. now apply range_cons_continue.
Qed.

Lemma range_calls_Forall (P : Event -> Prop) :
  (forall x s, Forall P (calls (body x s))) ->
  forall xs s, Forall P (calls (range body xs s)).
Proof.
  intros Hb. induction xs as [|x rest IH]; intros s.
  - constructor.
  - destruct (range_cons_cases x rest s) as [(_ & -> & _) | (_ & -> & _)].
    + apply Hb.
    + apply Forall_app. split; [apply Hb | apply IH].
Qed.

(** An element whose body returns [true] whatever the variables hold makes
    the loop return [true], wherever it stands in the list. *)
Lemma range_found_In (x : A) :
  (forall s, fst (result (body x s)) = true) ->
  forall xs s, In x xs -> fst (result (range body xs s)) = true.
Proof.
  intros Hx. induction xs as [|y rest IH]; intros s Hin; [easy|].
  destruct (range_cons_cases y rest s) as [(_ & _ & ->) | (Hy & _ & ->)].
  - reflexivity.
  - destruct Hin as [-> | Hin]; [now rewrite Hx in Hy | now apply IH].
Qed.

(** The loop returns [true] only from the body of one of its elements. *)
Lemma range_found_inv :
  forall xs s, fst (result (range body xs s)) = true ->
  exists x s0, In x xs /\ fst (result (body x s0)) = true.
Proof.
  induction xs as [|y rest IH]; intros s H; [discriminate|].
  destruct (range_cons_cases y rest s) as [(Hy & _ & _) | (_ & _ & E)].
  - exists y, s. split; [now left | exact Hy].
  - rewrite E in H. apply IH in H as (x & s0 & Hin & Hx).
    exists x, s0. split; [now right | exact Hx].
Qed.

Lemma range_not_found :
  forall xs, (forall x s, In x xs -> fst (result (body x s)) = false) ->
  forall s, fst (result (range body xs s)) = false.
Proof.
  induction xs as [|y rest IH]; intros Hb s; [reflexivity|].
  destruct (range_cons_cases y rest s) as [(Hy & _ & _) | (_ & _ & ->)].
  - rewrite Hb in Hy by now left. discriminate.
  - apply IH. intros x s0 Hin. apply Hb. now right.
Qed.

(** The loop stops at the first body that returns [true]: what follows it
    in the list is not looked at. *)
Lemma range_stops (pre post : list A) (x : A) :
  forall s,
  fst (result (range body pre s)) = false ->
  fst (result (body x (snd (result (range body pre s))))) = true ->
  calls (range body (pre ++ x :: post) s)
  = calls (range body pre s)
    ++ calls (body x (snd (result (range body pre s))))
  /\ fst (result (range body (pre ++ x :: post) s)) = true.
Proof.
  induction pre as [|y pre IH]; intros s Hpre Hx.
  - simpl in Hx. rewrite app_nil_l.
    destruct (range_cons_cases x post s) as [(_ & -> & ->) | (Hx' & _ & _)].
    + now split.
    + rewrite Hx in Hx'. discriminate.
  - rewrite <- app_comm_cons.
    destruct (range_cons_cases y pre s) as [(_ & _ & E) | (Hy & Ec & Er)].
    + rewrite E in Hpre. discriminate.
    + rewrite Er in Hpre, Hx. rewrite Ec.
      destruct (range_cons_cases y (pre ++ x :: post) s)
        as [(Hy' & _ & _) | (_ & -> & ->)]; [congruence|].
      destruct (IH _ Hpre Hx) as [-> ->]. now rewrite Er, app_assoc.
Qed.

(** Bodies that agree on related variables give loops that agree. *)
Lemma range_related (R : S -> S -> Prop) :
  (forall x s1 s2, R s1 s2 ->
     calls (body x s1) = calls (body x s2)
     /\ fst (result (body x s1)) = fst (result (body x s2))
     /\ R (snd (result (body x s1))) (snd (result (body x s2)))) ->
  forall xs s1 s2, R s1 s2 ->
     calls (range body xs s1) = calls (range body xs s2)
     /\ fst (result (range body xs s1)) = fst (result (range body xs s2))
     /\ R (snd (result (range body xs s1))) (snd (result (range body xs s2))).
Proof.
  intros Hb. induction xs as [|x rest IH]; intros s1 s2 HR.
  - simpl. auto.
  - destruct (Hb x s1 s2 HR) as (Ec & Ef & HR').
    destruct (range_cons_cases x rest s1) as [(H1 & -> & ->) | (H1 & -> & ->)];
      destruct (range_cons_cases x rest s2)
        as [(H2 & -> & ->) | (H2 & -> & ->)]; try congruence.
    + simpl. auto.
    + destruct (IH _ _ HR') as (-> & -> & HR''). rewrite Ec. auto.
Qed.
End Range.

(* ------------------------------------------------------------------ *)
(** ** The scan of the lease resources *)

Lemma Platform_eta (p0 : ocispec.Platform) :
  {| ocispec.Architecture := ocispec.Architecture p0;
     ocispec.OS := ocispec.OS p0;
     ocispec.Variant := ocispec.Variant p0 |} = p0.
Proof. now destruct p0. Qed.

Section ScanLoops.
Context {JS : JsonPkg}.
Variable i : ImageService.
Variable img : image.Image.
Variable comparer : platforms.Matcher.

Lemma readBlob_Some (dgst : digest.Digest) (data : list byte) :
  readBlob i dgst = Some data <->
  exists ra, content_ReaderAt i dgst = Ok ra
             /\ io.stream (makeRdr ra) = data
             /\ io.failure (makeRdr ra) = None.
Proof.
  unfold readBlob, io.ReadAll. split.
  - destruct (content_ReaderAt i dgst) as [ra|e]; [|discriminate].
    destruct (io.failure (makeRdr ra)) as [e|] eqn:E; [discriminate|].
    intros H; inversion H; subst. now exists ra.
  - intros (ra & -> & -> & ->). reflexivity.
Qed.

Lemma readBlob_length (dgst : digest.Digest) (data : list byte) :
  readBlob i dgst = Some data ->
  (0 <= Z.of_nat (length data) <= readLimit)%Z.
Proof.
  intros H. apply readBlob_Some in H as (ra & _ & <- & _).
  apply makeRdr_length.
Qed.

(** What one pass of the inner loop does, by the blob of the entry. *)
Lemma checkManifest_unfold (md : ocispec.Descriptor) (m : manifest) :
  checkManifest i img comparer md m =
  if negb (isManifestMediaType (ocispec.MediaType md)) then ret (false, m)
  else if negb (platforms.Match comparer (ocispec.Platform_ md)) then
    ret (false, m)
  else
    match content_ReaderAt i (ocispec.Digest md) with
    | Err _ => ([ContentReaderAt (ocispec.Digest md)], (false, m))
    | Ok ra =>
      ([ContentReaderAt (ocispec.Digest md);
        ContentRead (ocispec.Digest md)
          (Z.of_nat (length (io.stream (makeRdr ra))))],
       match io.failure (makeRdr ra) with
       | Some _ => (false, m)
       | None =>
         let r := json_Unmarshal_manifest (io.stream (makeRdr ra)) m in
         match snd r with
         | Some _ => (false, fst r)
         | None =>
           (ocispec.Digest (Config (fst r)) =? image.ID_ img, fst r)
         end
       end)
    end.
Proof.
  unfold checkManifest. rewrite Platform_eta.
  destruct (negb (isManifestMediaType _)); [reflexivity|].
  destruct (negb (platforms.Match _ _)); [reflexivity|].
  destruct (content_ReaderAt i _) as [ra|e]; [|reflexivity].
  generalize (makeRdr ra). intros [bytes [e|]]; [reflexivity|].
  unfold io.ReadAll; simpl.
  destruct (json_Unmarshal_manifest bytes m) as [m' [e|]]; [reflexivity|].
  simpl. destruct (_ =? _); reflexivity.
Qed.

Lemma checkManifest_calls (md : ocispec.Descriptor) (m : manifest) :
  Forall readWithinLimit (calls (checkManifest i img comparer md m)).
Proof.
  rewrite checkManifest_unfold.
  destruct (negb (isManifestMediaType _)); [constructor|].
  destruct (negb (platforms.Match _ _)); [constructor|].
  destruct (content_ReaderAt i _) as [ra|e]; repeat constructor.
  all: apply makeRdr_length.
Qed.

(** One pass of the inner loop returns [true] exactly for an entry with a
    manifest media type and a matching platform, whose manifest is read and
    decodes into the variable [m] without error, leaving in it a config
    digest equal to the image's identity. *)
Lemma checkManifest_found (md : ocispec.Descriptor) (m : manifest) :
  fst (result (checkManifest i img comparer md m)) = true <->
  isManifestMediaType (ocispec.MediaType md) = true
  /\ platforms.Match comparer (ocispec.Platform_ md) = true
  /\ exists data m',
       readBlob i (ocispec.Digest md) = Some data
       /\ json_Unmarshal_manifest data m = (m', None)
       /\ ocispec.Digest (Config m') = image.ID_ img.
Proof.
  rewrite checkManifest_unfold. unfold readBlob, io.ReadAll.
  destruct (isManifestMediaType _); cbn; [|split; [easy | now intros [? _]]].
  destruct (platforms.Match _ _); cbn;
    [|split; [easy | now intros (_ & ? & _)]].
  destruct (content_ReaderAt i _) as [ra|e]; cbn;
    [|split; [easy | now intros (_ & _ & ? & ? & ? & _)]].
  generalize (makeRdr ra). intros [bytes [e|]]; cbn;
    [split; [easy | now intros (_ & _ & ? & ? & ? & _)]|].
  destruct (json_Unmarshal_manifest bytes m) as [m1 [e|]] eqn:E; cbn.
  - split; [easy|]. intros (_ & _ & data & m' & H & H' & _).
    inversion H; subst. congruence.
  - rewrite String.eqb_eq. split.
    + intros H. repeat split. now exists bytes, m1.
    + intros (_ & _ & data & m' & H & H' & Hd).
      inversion H; subst. congruence.
Qed.

Lemma checkManifest_unreadable (md : ocispec.Descriptor) (m : manifest) :
  manifestUnreadable i md ->
  result (checkManifest i img comparer md m) = (false, m).
Proof.
  rewrite checkManifest_unfold. unfold io.ReadAll.
  destruct (negb (isManifestMediaType _)); [reflexivity|].
  destruct (negb (platforms.Match _ _)); [reflexivity|].
  intros [(e & ->) | (ra & e & -> & H)]; [reflexivity|].
  cbn in H. cbn. now rewrite H.
Qed.

Lemma checkManifest_undecodable (md : ocispec.Descriptor) (m m' : manifest)
    (data : list byte) (e : error) :
  isManifestMediaType (ocispec.MediaType md) = true ->
  platforms.Match comparer (ocispec.Platform_ md) = true ->
  readBlob i (ocispec.Digest md) = Some data ->
  json_Unmarshal_manifest data m = (m', Some e) ->
  result (checkManifest i img comparer md m) = (false, m').
Proof.
  intros Hm Hp Hb Hj. apply readBlob_Some in Hb as (ra & Hra & Hs & Hf).
  now rewrite checkManifest_unfold, Hm, Hp, Hra, Hf, Hs, Hj.
Qed.

Lemma rangeManifests_calls (mds : list ocispec.Descriptor) (m : manifest) :
  Forall readWithinLimit (calls (rangeManifests i img comparer mds m)).
Proof. apply range_calls_Forall. apply checkManifest_calls. Qed.

(** What one pass of the outer loop does, by the blob of the resource. *)
Lemma checkResource_unfold (r : leases.Resource) (ml : manifestList)
    (m : manifest) :
  checkResource i img comparer r (ml, m) =
  if negb (leases.Type_ r =? "content") then ret (false, (ml, m))
  else
    match content_ReaderAt i (leases.ID r) with
    | Err _ => ([ContentReaderAt (leases.ID r)], (false, (ml, m)))
    | Ok ra =>
      let opened :=
        [ContentReaderAt (leases.ID r);
         ContentRead (leases.ID r)
           (Z.of_nat (length (io.stream (makeRdr ra))))] in
      match io.failure (makeRdr ra) with
      | Some _ => (opened, (false, (ml, m)))
      | None =>
        let d :=
          json_Unmarshal_manifestList (io.stream (makeRdr ra))
            zeroManifestList in
        match snd d with
        | Some _ => (opened, (false, (fst d, m)))
        | None =>
          let c := rangeManifests i img comparer (Manifests (fst d)) m in
          (opened ++ calls c, (fst (result c), (fst d, snd (result c))))
        end
      end
    end.
Proof.
  unfold checkResource.
  destruct (negb (_ =? _)); [reflexivity|].
  destruct (content_ReaderAt i _) as [ra|e]; [|reflexivity].
  generalize (makeRdr ra). intros [bytes [e|]]; [reflexivity|].
  unfold io.ReadAll; cbn. unfold zeroManifestList.
  destruct (json_Unmarshal_manifestList bytes _) as [ml' [e|]];
    [reflexivity|].
  cbn. destruct (rangeManifests i img comparer (Manifests ml') m)
    as [tr [f m']].
  unfold bind, emit, ret, calls, result. cbn. now rewrite app_nil_r.
Qed.

Lemma checkResource_calls (r : leases.Resource)
    (vars : manifestList * manifest) :
  Forall readWithinLimit (calls (checkResource i img comparer r vars)).
Proof.
  destruct vars as [ml m]. rewrite checkResource_unfold.
  destruct (negb (_ =? _)); [constructor|].
  destruct (content_ReaderAt i _) as [ra|e]; [|repeat constructor].
  assert (Hop : Forall readWithinLimit
                  [ContentReaderAt (leases.ID r);
                   ContentRead (leases.ID r)
                     (Z.of_nat (length (io.stream (makeRdr ra))))])
    by (repeat constructor; apply makeRdr_length).
  cbv zeta. destruct (io.failure (makeRdr ra)); [exact Hop|].
  destruct (snd _); [exact Hop|].
  unfold calls at 1. cbn [fst]. apply Forall_app. split; [exact Hop|].
  apply rangeManifests_calls.
Qed.

Lemma readsOf_opened (dgst : digest.Digest) (n : Z) :
  Forall (readsOf dgst) [ContentReaderAt dgst; ContentRead dgst n].
Proof.
  constructor; [now left|]. constructor; [|constructor]. right. now exists n.
Qed.

Lemma readsOf_refused (dgst : digest.Digest) :
  Forall (readsOf dgst) [ContentReaderAt dgst].
Proof. constructor; [now left | constructor]. Qed.

(** The entries the inner loop ranges over are those of [resourceEntries],
    whatever the variable [ml] held before. *)
Lemma checkResource_entries (r : leases.Resource) (ml : manifestList)
    (m : manifest) :
  match resourceEntries i r with
  | Some mds =>
    exists opened,
      calls (checkResource i img comparer r (ml, m))
      = opened ++ calls (rangeManifests i img comparer mds m)
      /\ Forall (readsOf (leases.ID r)) opened
      /\ fst (result (checkResource i img comparer r (ml, m)))
         = fst (result (rangeManifests i img comparer mds m))
      /\ snd (snd (result (checkResource i img comparer r (ml, m))))
         = snd (result (rangeManifests i img comparer mds m))
  | None =>
    Forall (readsOf (leases.ID r))
      (calls (checkResource i img comparer r (ml, m)))
    /\ fst (result (checkResource i img comparer r (ml, m))) = false
    /\ snd (snd (result (checkResource i img comparer r (ml, m)))) = m
  end.
Proof.
  rewrite checkResource_unfold. unfold resourceEntries, readBlob, io.ReadAll.
  destruct (leases.Type_ r =? "content"); cbn [negb];
    [|cbn; repeat split; constructor].
  destruct (content_ReaderAt i _) as [ra|e];
    [|cbn; repeat split; apply readsOf_refused].
  cbv zeta. destruct (io.failure (makeRdr ra)) as [e|];
    [cbn; repeat split; apply readsOf_opened|].
  destruct (json_Unmarshal_manifestList _ _) as [ml' [e|]]; cbn [fst snd].
  - cbn. repeat split. apply readsOf_opened.
  - eexists. split; [reflexivity|]. split; [|now split].
    apply readsOf_opened.
Qed.

Lemma rangeResources_calls (ls : list leases.Resource) (ml : manifestList)
    (m : manifest) :
  Forall readWithinLimit (calls (rangeResources i img comparer ls ml m)).
Proof. apply range_calls_Forall. apply checkResource_calls. Qed.

(** The variable [ml] carries nothing from one pass of the outer loop to
    the next. *)
Lemma checkResource_ml (r : leases.Resource) (ml1 ml2 : manifestList)
    (m : manifest) :
  calls (checkResource i img comparer r (ml1, m))
  = calls (checkResource i img comparer r (ml2, m))
  /\ fst (result (checkResource i img comparer r (ml1, m)))
     = fst (result (checkResource i img comparer r (ml2, m)))
  /\ snd (snd (result (checkResource i img comparer r (ml1, m))))
     = snd (snd (result (checkResource i img comparer r (ml2, m)))).
Proof.
  rewrite !checkResource_unfold.
  destruct (negb (_ =? _)); [now cbn|].
  destruct (content_ReaderAt i _) as [ra|e]; [|now cbn].
  cbv zeta. destruct (io.failure (makeRdr ra)); [now cbn|].
  destruct (snd _); now cbn.
Qed.

Lemma rangeResources_ml (ls : list leases.Resource) (ml1 ml2 : manifestList)
    (m : manifest) :
  sameScan (rangeResources i img comparer ls ml1 m)
           (rangeResources i img comparer ls ml2 m).
Proof.
  unfold sameScan, rangeResources.
  apply (range_related (checkResource i img comparer)
           (fun s1 s2 => snd s1 = snd s2)); [|reflexivity].
  intros r [ml m1] [ml' m2] E. cbn in E. subst m2. apply checkResource_ml.
Qed.

(** A pass of the outer loop that does not return, followed by the rest of
    the loop. *)
Lemma rangeResources_continue (r : leases.Resource)
    (rest : list leases.Resource) (ml : manifestList) (m : manifest) :
  fst (result (checkResource i img comparer r (ml, m))) = false ->
  calls (rangeResources i img comparer (r :: rest) ml m)
  = calls (checkResource i img comparer r (ml, m))
    ++ calls (rangeResources i img comparer rest ml
                (snd (snd (result (checkResource i img comparer r (ml, m))))))
  /\ fst (result (rangeResources i img comparer (r :: rest) ml m))
     = fst (result (rangeResources i img comparer rest ml
                      (snd (snd (result
                         (checkResource i img comparer r (ml, m)))))))
  /\ snd (snd (result (rangeResources i img comparer (r :: rest) ml m)))
     = snd (snd (result (rangeResources i img comparer rest ml
                      (snd (snd (result
                         (checkResource i img comparer r (ml, m)))))))).
Proof.
  intros Hf. unfold rangeResources at 1 3 5.
  destruct (range_cons_cases (checkResource i img comparer) r rest (ml, m))
    as [(H & _ & _) | (_ & -> & ->)]; [congruence|].
  destruct (snd (result (checkResource i img comparer r (ml, m))))
    as [ml' m'] eqn:E. cbn [snd].
  destruct (rangeResources_ml rest ml' ml m') as (Ec & Ef & Em).
  unfold rangeResources in Ec, Ef, Em. now rewrite Ec, Ef, Em.
Qed.

Lemma rangeManifests_continue (md : ocispec.Descriptor)
    (rest : list ocispec.Descriptor) (m m' : manifest) :
  result (checkManifest i img comparer md m) = (false, m') ->
  calls (rangeManifests i img comparer (md :: rest) m)
  = calls (checkManifest i img comparer md m)
    ++ calls (rangeManifests i img comparer rest m')
  /\ result (rangeManifests i img comparer (md :: rest) m)
     = result (rangeManifests i img comparer rest m').
Proof. apply range_cons_continue. Qed.

(** An entry whose manifest declares the image's config digest makes the
    inner loop return [true], whatever the variable [m] holds. *)
Lemma checkManifest_declared (md : ocispec.Descriptor) :
  isManifestMediaType (ocispec.MediaType md) = true ->
  platforms.Match comparer (ocispec.Platform_ md) = true ->
  (exists data, readBlob i (ocispec.Digest md) = Some data
                /\ manifestDeclaresConfig data (image.ID_ img)) ->
  forall m, fst (result (checkManifest i img comparer md m)) = true.
Proof.
  intros Hm Hp (data & Hb & Hd) m. apply checkManifest_found.
  destruct (Hd m) as (m1 & Hj & Hc). repeat split; try assumption.
  now exists data, m1.
Qed.

Lemma checkResource_declared (r : leases.Resource)
    (mds : list ocispec.Descriptor) (md : ocispec.Descriptor) :
  resourceEntries i r = Some mds -> In md mds ->
  isManifestMediaType (ocispec.MediaType md) = true ->
  platforms.Match comparer (ocispec.Platform_ md) = true ->
  (exists data, readBlob i (ocispec.Digest md) = Some data
                /\ manifestDeclaresConfig data (image.ID_ img)) ->
  forall vars, fst (result (checkResource i img comparer r vars)) = true.
Proof.
  intros He Hin Hm Hp Hd [ml m].
  pose proof (checkResource_entries r ml m) as H. rewrite He in H.
  destruct H as (_ & _ & _ & -> & _).
  apply range_found_In with (x := md); [|exact Hin].
  now apply checkManifest_declared.
Qed.

Lemma rangeResources_declared (r : leases.Resource)
    (mds : list ocispec.Descriptor) (md : ocispec.Descriptor)
    (ls : list leases.Resource) :
  In r ls ->
  resourceEntries i r = Some mds -> In md mds ->
  isManifestMediaType (ocispec.MediaType md) = true ->
  platforms.Match comparer (ocispec.Platform_ md) = true ->
  (exists data, readBlob i (ocispec.Digest md) = Some data
                /\ manifestDeclaresConfig data (image.ID_ img)) ->
  forall ml m, fst (result (rangeResources i img comparer ls ml m)) = true.
Proof.
  intros Hr He Hin Hm Hp Hd ml m.
  apply range_found_In with (x := r); [|exact Hr].
  now apply checkResource_declared with (mds := mds) (md := md).
Qed.

(** The outer loop returns [true] only at an entry of some resource, with
    a manifest media type and a matching platform, whose manifest decoded
    without error into the variable [m] and left the image's identity in
    its config digest. *)
Lemma rangeResources_found_inv (ls : list leases.Resource)
    (ml : manifestList) (m : manifest) :
  fst (result (rangeResources i img comparer ls ml m)) = true ->
  exists r mds md m0 data m',
    In r ls /\ resourceEntries i r = Some mds /\ In md mds
    /\ isManifestMediaType (ocispec.MediaType md) = true
    /\ platforms.Match comparer (ocispec.Platform_ md) = true
    /\ readBlob i (ocispec.Digest md) = Some data
    /\ json_Unmarshal_manifest data m0 = (m', None)
    /\ ocispec.Digest (Config m') = image.ID_ img.
Proof.
  intros H. apply range_found_inv in H as (r & [ml0 m0] & Hr & H).
  pose proof (checkResource_entries r ml0 m0) as He.
  destruct (resourceEntries i r) as [mds|] eqn:E.
  - destruct He as (_ & _ & _ & Hf & _). rewrite Hf in H.
    apply range_found_inv in H as (md & m1 & Hin & H).
    apply checkManifest_found in H as (Hm & Hp & data & m' & Hb & Hj & Hd).
    now exists r, mds, md, m1, data, m'.
  - destruct He as (_ & Hf & _). congruence.
Qed.
End ScanLoops.

(* ------------------------------------------------------------------ *)
(** ** [manifestMatchesPlatform] *)

Section Scanner.
Context {PL : platforms.Pkg} {CE : CerrdefsPkg} {JS : JsonPkg}.
Variable imageKey : string -> string.
Variable i : ImageService.
Variable img : image.Image.

Lemma manifestMatchesPlatform_unfold (platform : ocispec.Platform) :
  manifestMatchesPlatform imageKey i img platform =
  match leases_ListResources i (imageKey (image.ID_ img)) with
  | Err err =>
    ([LeasesListResources (imageKey (image.ID_ img))],
     (false, if cerrdefs_IsNotFound err then None else Some err))
  | Ok ls =>
    let c := rangeResources i img (platforms.Only platform) ls
               zeroManifestList zeroManifest in
    (LeasesListResources (imageKey (image.ID_ img)) :: calls c,
     (fst (result c), None))
  end.
Proof.
  unfold manifestMatchesPlatform.
  destruct (leases_ListResources i _) as [ls|err].
  - cbv zeta.
    destruct (rangeResources i img (platforms.Only platform) ls
                zeroManifestList zeroManifest) as [tr [f [ml m]]].
    unfold bind, emit, ret, calls, result. cbn. now rewrite app_nil_r.
  - destruct (cerrdefs_IsNotFound err); reflexivity.
Qed.

(** C5: when the lease registry reports the image's lease as not found,
    the scanner returns [false] and a nil error; it has called nothing but
    the registry. *)
Theorem manifestMatchesPlatform_lease_not_found
    (platform : ocispec.Platform) (err : error) :
  leases_ListResources i (imageKey (image.ID_ img)) = Err err ->
  cerrdefs_IsNotFound err = true ->
  result (manifestMatchesPlatform imageKey i img platform) = (false, None)
  /\ calls (manifestMatchesPlatform imageKey i img platform)
     = [LeasesListResources (imageKey (image.ID_ img))].
Proof.
  intros Hl Hnf. rewrite manifestMatchesPlatform_unfold, Hl, Hnf.
  now split.
Qed.

(** C9: a read through [makeRdr] gives at most 1000000 bytes, the first
    ones of the blob; of a blob longer than that it gives exactly the
    first 1000000, without error, and not the whole; and every read of a
    scan, of a manifest list or of a manifest, is such a read. *)
Theorem blob_reads_capped :
  (forall ra : content.ReaderAt,
     let data := fst (io.ReadAll (makeRdr ra)) in
     (Z.of_nat (length data) <= 1000000)%Z
     /\ data = firstn (length data) (content.contents ra)
     /\ ((1000000 < content.Size ra)%Z ->
         (1000000 < Z.of_nat (length (content.contents ra)))%Z ->
         data = firstn (Z.to_nat 1000000) (content.contents ra)
         /\ Z.of_nat (length data) = 1000000%Z
         /\ snd (io.ReadAll (makeRdr ra)) = None))
  /\ (forall platform : ocispec.Platform,
        Forall readWithinLimit
          (calls (manifestMatchesPlatform imageKey i img platform)))
  /\ (forall (dgst : digest.Digest) (data : list byte),
        readBlob i dgst = Some data ->
        (Z.of_nat (length data) <= 1000000)%Z).
Proof.
  split; [|split].
  - intros ra. cbv zeta. unfold io.ReadAll. cbn [fst snd].
    split; [apply makeRdr_length|]. rewrite makeRdr_stream. split.
    + apply take_prefix.
    + intros Hs Hl. unfold readLimit.
      rewrite Z.min_l by lia. split; [apply take_firstn|]. split.
      * rewrite take_length by lia. lia.
      * unfold makeRdr, io.LimitReader, io.NewSectionReader, io.cut.
        cbn [io.failure io.stream].
        rewrite take_length by lia.
        destruct (Z.ltb_spec (Z.min (content.Size ra)
                    (Z.of_nat (length (content.contents ra)))) 1000000);
          [lia | reflexivity].
  - intros platform. rewrite manifestMatchesPlatform_unfold.
    destruct (leases_ListResources i _) as [ls|err].
    + constructor; [exact I | apply rangeResources_calls].
    + repeat constructor.
  - intros dgst data H. now apply readBlob_length in H.
Qed.

(** C10: the entries the scan considers for a lease resource are those its
    own blob decodes to, from an empty list, whatever the variable [ml]
    held; so the variable carries nothing from one resource to the next;
    and a blob that decodes without error and without touching the list of
    manifests contributes no entry: after its two reads the scan goes on as
    if the resource were not there. *)
Theorem manifest_entries_reset_per_resource (comparer : platforms.Matcher) :
  (forall (r : leases.Resource) (ml : manifestList) (m : manifest),
     let c := checkResource i img comparer r (ml, m) in
     match resourceEntries i r with
     | Some mds =>
       fst (result c) = fst (result (rangeManifests i img comparer mds m))
       /\ snd (snd (result c))
          = snd (result (rangeManifests i img comparer mds m))
     | None => fst (result c) = false /\ snd (snd (result c)) = m
     end)
  /\ (forall (ls : list leases.Resource) (ml1 ml2 : manifestList)
             (m : manifest),
        sameScan (rangeResources i img comparer ls ml1 m)
                 (rangeResources i img comparer ls ml2 m))
  /\ (forall (r : leases.Resource) (data : list byte),
        leases.Type_ r = "content" ->
        readBlob i (leases.ID r) = Some data ->
        (forall ml0, json_Unmarshal_manifestList data ml0 = (ml0, None)) ->
        resourceEntries i r = Some []
        /\ forall (rest : list leases.Resource) (ml : manifestList)
                  (m : manifest),
             calls (rangeResources i img comparer (r :: rest) ml m)
             = [ContentReaderAt (leases.ID r);
                ContentRead (leases.ID r) (Z.of_nat (length data))]
               ++ calls (rangeResources i img comparer rest ml m)
             /\ fst (result (rangeResources i img comparer (r :: rest) ml m))
                = fst (result (rangeResources i img comparer rest ml m))).
Proof.
  split; [|split].
  - intros r ml m. cbv zeta.
    pose proof (checkResource_entries i img comparer r ml m) as H.
    destruct (resourceEntries i r).
    + destruct H as (_ & _ & _ & H1 & H2). now split.
    + destruct H as (_ & H1 & H2). now split.
  - apply rangeResources_ml.
  - intros r data Ht Hb Hj.
    assert (He : resourceEntries i r = Some []).
    { unfold resourceEntries. now rewrite Ht, String.eqb_refl, Hb, Hj. }
    split; [exact He|]. intros rest ml m.
    assert (Hc : checkResource i img comparer r (ml, m)
                 = ([ContentReaderAt (leases.ID r);
                     ContentRead (leases.ID r) (Z.of_nat (length data))],
                    (false, (zeroManifestList, m)))).
    { apply readBlob_Some in Hb as (ra & Hra & Hs & Hf).
      rewrite checkResource_unfold, Ht, String.eqb_refl, Hra, Hf, Hs.
      cbn [negb]. cbv zeta. rewrite Hj. reflexivity. }
    destruct (rangeResources_continue i img comparer r rest ml m)
      as (Ec & Ef & _); [now rewrite Hc|].
    rewrite Ec, Ef, Hc. now split.
Qed.

(** C4: the error the scanner returns is the one of the lease registry
    when that is not a not-found error, and nil otherwise, whatever the
    content store and the decoder do; a content resource that cannot be
    opened, read or decoded is passed over and the scan goes on with the
    resources after it; and so is an entry whose manifest cannot be
    opened or read, or does not decode, the loop then going on with the
    value the failed decoding left in [m]. *)
Theorem scan_errors_are_contained (comparer : platforms.Matcher) :
  (forall platform : ocispec.Platform,
     snd (result (manifestMatchesPlatform imageKey i img platform))
     = match leases_ListResources i (imageKey (image.ID_ img)) with
       | Err err => if cerrdefs_IsNotFound err then None else Some err
       | Ok _ => None
       end)
  /\ (forall (r : leases.Resource) (rest : list leases.Resource)
             (ml : manifestList) (m : manifest),
        leases.Type_ r = "content" ->
        resourceUnreadable i r ->
        Forall (readsOf (leases.ID r))
          (calls (checkResource i img comparer r (ml, m)))
        /\ calls (rangeResources i img comparer (r :: rest) ml m)
           = calls (checkResource i img comparer r (ml, m))
             ++ calls (rangeResources i img comparer rest ml m)
        /\ fst (result (rangeResources i img comparer (r :: rest) ml m))
           = fst (result (rangeResources i img comparer rest ml m)))
  /\ (forall (md : ocispec.Descriptor) (rest : list ocispec.Descriptor)
             (m : manifest),
        manifestUnreadable i md ->
        calls (rangeManifests i img comparer (md :: rest) m)
        = calls (checkManifest i img comparer md m)
          ++ calls (rangeManifests i img comparer rest m)
        /\ result (rangeManifests i img comparer (md :: rest) m)
           = result (rangeManifests i img comparer rest m))
  /\ (forall (md : ocispec.Descriptor) (rest : list ocispec.Descriptor)
             (m m' : manifest) (data : list byte) (e : error),
        isManifestMediaType (ocispec.MediaType md) = true ->
        platforms.Match comparer (ocispec.Platform_ md) = true ->
        readBlob i (ocispec.Digest md) = Some data ->
        json_Unmarshal_manifest data m = (m', Some e) ->
        calls (rangeManifests i img comparer (md :: rest) m)
        = calls (checkManifest i img comparer md m)
          ++ calls (rangeManifests i img comparer rest m')
        /\ result (rangeManifests i img comparer (md :: rest) m)
           = result (rangeManifests i img comparer rest m')).
Proof.
  split; [|split; [|split]].
  - intros platform. rewrite manifestMatchesPlatform_unfold.
    now destruct (leases_ListResources i _).
  - intros r rest ml m Ht Hu.
    assert (He : resourceEntries i r = None).
    { unfold resourceEntries. rewrite Ht, String.eqb_refl.
      destruct Hu as [(e & H) | [(ra & e & H & H') | (data & ml0 & e & H & H')]].
      - unfold readBlob. now rewrite H.
      - unfold readBlob, io.ReadAll. rewrite H. cbn in H'. now rewrite H'.
      - now rewrite H, H'. }
    pose proof (checkResource_entries i img comparer r ml m) as H.
    rewrite He in H. destruct H as (Hc & Hf & Hm).
    split; [exact Hc|].
    destruct (rangeResources_continue i img comparer r rest ml m Hf)
      as (-> & -> & _). now rewrite Hm.
  - intros md rest m Hu. apply rangeManifests_continue.
    now apply checkManifest_unreadable.
  - intros md rest m m' data e Hm Hp Hb Hj. apply rangeManifests_continue.
    now apply checkManifest_undecodable with (data := data) (e := e).
Qed.

End Scanner.

Section ScannerListings.
Context {PL : platforms.Pkg} {CE : CerrdefsPkg} {JS : JsonPkg}.
Variable imageKey : string -> string.
Variable i : ImageService.
Variable img : image.Image.

(** C8, amended: when a lease resource carries an entry with a manifest
    media type, for the desired platform, which the exact matcher accepts,
    whose manifest declares the image's config digest, the scanner returns
    [true] for every listing of the lease that holds this resource: in any
    order, and with any other resources, well formed or not, added. *)
Theorem scan_finds_entry_in_any_listing
    (platform : ocispec.Platform) (r : leases.Resource)
    (mds : list ocispec.Descriptor) (md : ocispec.Descriptor)
    (ls junk ls' : list leases.Resource) :
  In r ls ->
  resourceEntries i r = Some mds ->
  In md mds ->
  isManifestMediaType (ocispec.MediaType md) = true ->
  ocispec.Platform_ md = platform ->
  platforms.Match (platforms.Only platform) platform = true ->
  (exists data, readBlob i (ocispec.Digest md) = Some data
                /\ manifestDeclaresConfig data (image.ID_ img)) ->
  Permutation (junk ++ ls) ls' ->
  result (manifestMatchesPlatform imageKey (withLeases i ls') img platform)
  = (true, None).
Proof.
  intros Hr He Hin Hm Hp Hrefl Hd Hperm.
  rewrite (manifestMatchesPlatform_unfold imageKey (withLeases i ls')).
  cbn [withLeases leases_ListResources].
  cbv zeta. cbn [fst snd result]. f_equal.
  apply rangeResources_declared with (r := r) (mds := mds) (md := md).
  - apply (Permutation_in _ Hperm). apply in_or_app. now right.
  - exact He.
  - exact Hin.
  - exact Hm.
  - now rewrite Hp.
  - exact Hd.
Qed.
End ScannerListings.

(* ------------------------------------------------------------------ *)
(** ** [GetImage] *)

Lemma string_app_assoc (a b c : string) :
  ((a ++ b) ++ c = a ++ b ++ c)%string.
Proof. induction a as [|ch a IH]; simpl; [reflexivity | now rewrite IH]. Qed.

Lemma platformMismatchMessage_platforms (imgName imgPlat p0 : string) :
  Substring imgPlat (platformMismatchMessage imgName imgPlat p0)
  /\ Substring p0 (platformMismatchMessage imgName imgPlat p0).
Proof.
  unfold platformMismatchMessage. split.
  - exists ("image with reference " ++ imgName
            ++ " was found but its platform (")%string,
           (") does not match the specified platform (" ++ p0 ++ ")")%string.
    now rewrite !string_app_assoc.
  - exists ("image with reference " ++ imgName
            ++ " was found but its platform (" ++ imgPlat
            ++ ") does not match the specified platform (")%string,
           ")"%string.
    now rewrite !string_app_assoc.
Qed.

Section Resolver.
Context {PL : platforms.Pkg} {CE : CerrdefsPkg} {RF : ReferencePkg}
        {JS : JsonPkg}.
Variable imageKey : string -> string.
Variable i : ImageService.

Lemma searchByID_calls (refOrID : string) (ref : reference.Reference) :
  Forall (fun e => touchesLeasesOrContent e = false)
    (calls (searchByID i refOrID ref)).
Proof.
  unfold searchByID.
  destruct (imageStore_Search i refOrID) as [id|e]; [|repeat constructor].
  destruct (imageStore_Get i id); repeat constructor.
Qed.

(** Looking an image up calls the reference store and the image store
    only. *)
Lemma lookupImage_calls (refOrID : string) :
  Forall (fun e => touchesLeasesOrContent e = false)
    (calls (lookupImage i refOrID)).
Proof.
  unfold lookupImage.
  destruct (reference_ParseAnyReference refOrID) as [ref|e]; [|constructor].
  destruct (reference.named ref) as [namedRef|].
  - rewrite bind_emit. constructor; [reflexivity|].
    destruct (referenceStore_Get i namedRef) as [dgst|e];
      [|apply searchByID_calls].
    rewrite bind_emit. constructor; [reflexivity|].
    destruct (imageStore_Get i dgst); [constructor | apply searchByID_calls].
  - destruct (reference.digested ref) as [dgst|]; [|constructor].
    destruct (imageStore_Get i dgst); repeat constructor.
Qed.

(** Looking an image up gives an image or an error, never both and never
    neither. *)
Lemma lookupImage_result (refOrID : string) :
  (exists img, result (lookupImage i refOrID) = (Some img, None))
  \/ (exists err, result (lookupImage i refOrID) = (None, Some err)).
Proof.
  unfold lookupImage, searchByID.
  destruct (reference_ParseAnyReference refOrID) as [ref|e];
    [|right; now eexists].
  destruct (reference.named ref) as [namedRef|].
  - destruct (referenceStore_Get i namedRef) as [dgst|e].
    + destruct (imageStore_Get i dgst); [left; now eexists|].
      destruct (imageStore_Search i refOrID) as [id|e'];
        [|right; now eexists].
      destruct (imageStore_Get i id); [left|right]; now eexists.
    + destruct (imageStore_Search i refOrID) as [id|e'];
        [|right; now eexists].
      destruct (imageStore_Get i id); [left|right]; now eexists.
  - destruct (reference.digested ref) as [dgst|]; [|right; now eexists].
    destruct (imageStore_Get i dgst); [left|right]; now eexists.
Qed.

Lemma GetImage_unfold (refOrID : string) (options : backend.GetImageOpts) :
  GetImage imageKey i refOrID options =
  (calls (lookupImage i refOrID)
   ++ calls (checkPlatform imageKey i refOrID options
               (fst (result (lookupImage i refOrID)))
               (snd (result (lookupImage i refOrID)))),
   result (checkPlatform imageKey i refOrID options
             (fst (result (lookupImage i refOrID)))
             (snd (result (lookupImage i refOrID))))).
Proof.
  unfold GetImage, bind, calls, result.
  now destruct (lookupImage i refOrID) as [tr [retImg retErr]].
Qed.

(** C6: without a requested platform [GetImage] is the lookup of the
    image: it returns what the lookup returns, the resolved record as it
    is, and calls what the lookup calls, which is neither the lease
    registry nor the content store; the platform matcher, the decoder
    and the scanner have no part in it. *)
Theorem GetImage_without_platform (refOrID : string)
    (options : backend.GetImageOpts) :
  backend.Platform options = None ->
  GetImage imageKey i refOrID options = lookupImage i refOrID
  /\ Forall (fun e => touchesLeasesOrContent e = false)
       (calls (GetImage imageKey i refOrID options))
  /\ forall img : image.Image,
       result (lookupImage i refOrID) = (Some img, None) ->
       result (GetImage imageKey i refOrID options) = (Some img, None).
Proof.
  intros Hp.
  assert (E : GetImage imageKey i refOrID options = lookupImage i refOrID).
  { rewrite GetImage_unfold. unfold checkPlatform. rewrite Hp.
    destruct (lookupImage i refOrID) as [tr [[img|] [err|]]];
      unfold calls, result; cbn; now rewrite app_nil_r. }
  rewrite E. split; [reflexivity|]. split; [apply lookupImage_calls|].
  now intros img H.
Qed.

(** C1: when the reference resolves to an image, the fallback matcher
    rejects the image's platform fields for the requested platform and the
    scanner reports no match and no error, [GetImage] returns an error
    classified as not found whose message holds the requested platform's
    string and the image's recorded platform's string. *)
Theorem GetImage_platform_mismatch_not_found (refOrID : string)
    (p0 : ocispec.Platform) (img : image.Image) :
  result (lookupImage i refOrID) = (Some img, None) ->
  Matches p0 (imgPlatOf img) = false ->
  result (manifestMatchesPlatform imageKey i img p0) = (false, None) ->
  exists (err : error) (msg : string),
    snd (result (GetImage imageKey i refOrID
                   {| backend.Platform := Some p0 |})) = Some err
    /\ errdefs_IsNotFound err = true
    /\ error_message err = Some msg
    /\ Substring (platforms.FormatAll p0) msg
    /\ Substring (platforms.FormatAll (imgPlatOf img)) msg.
Proof.
  intros Hl Hm Hs. rewrite GetImage_unfold, Hl. cbn [fst snd].
  unfold checkPlatform. cbn [backend.Platform]. cbv zeta.
  unfold Matches in Hm. rewrite Hm.
  unfold bind, result in *. rewrite Hs. cbn.
  eexists. eexists. split; [reflexivity|]. split; [reflexivity|].
  split; [reflexivity|].
  split; apply platformMismatchMessage_platforms.
Qed.
End Resolver.

(* ------------------------------------------------------------------ *)
(** ** The properties on the small installation *)

(** C5 for the image without lease. *)
Lemma manifestMatchesPlatform_lease_not_found_example :
  result (@manifestMatchesPlatform Sample.PL Sample.CE Sample.JS
            Sample.imageKey Sample.unleased Sample.img Sample.arm64v8)
  = (false, None)
  /\ calls (@manifestMatchesPlatform Sample.PL Sample.CE Sample.JS
              Sample.imageKey Sample.unleased Sample.img Sample.arm64v8)
     = [LeasesListResources "moby-image-sha256:cfg"].
Proof.
  apply (@manifestMatchesPlatform_lease_not_found Sample.PL Sample.CE
           Sample.JS Sample.imageKey Sample.unleased Sample.img
           Sample.arm64v8 Sample.notFound); reflexivity.
Defined.

(** C9 for a blob of 1000001 bytes: 1000000 of them are read. *)
Lemma blob_reads_capped_example :
  let ra := {| content.Size := 1000001;
               content.contents := repeat "a"%byte (Z.to_nat 1000001);
               content.readErr := None |} in
  Z.of_nat (length (fst (io.ReadAll (makeRdr ra)))) = 1000000%Z
  /\ snd (io.ReadAll (makeRdr ra)) = None.
Proof.
  intros ra.
  destruct (@blob_reads_capped Sample.PL Sample.CE Sample.JS Sample.imageKey
              Sample.good Sample.img) as [H _].
  destruct (H ra) as (_ & _ & Hbig).
  destruct Hbig as (_ & Hlen & Herr).
  - unfold ra. cbn [content.Size]. lia.
  - unfold ra. cbn [content.contents]. rewrite repeat_length. lia.
  - now split.
Defined.

(** C10 for a lease resource that is JSON without a list of manifests. *)
Lemma manifest_entries_reset_per_resource_example :
  let r := Sample.contentResource "sha256:bare" in
  let comparer := @platforms.Only Sample.PL Sample.arm64v8 in
  @resourceEntries Sample.JS Sample.good r = Some []
  /\ forall ml m,
       fst (result (@rangeResources Sample.JS Sample.good Sample.img comparer
                      [r] ml m)) = false.
Proof.
  intros r comparer.
  destruct (@manifest_entries_reset_per_resource Sample.JS Sample.good
              Sample.img comparer) as (_ & _ & H).
  destruct (H r (list_byte_of_string Sample.bareDoc)) as [He Hr].
  - reflexivity.
  - reflexivity.
  - intros ml0. reflexivity.
  - split; [exact He|]. intros ml m. now destruct (Hr [] ml m) as [_ ->].
Defined.

(** C4 for a lease resource that is not JSON: the scan passes over it. *)
Lemma scan_errors_are_contained_example :
  let r := Sample.contentResource "sha256:junk" in
  let rest := [Sample.contentResource "sha256:index"] in
  let comparer := @platforms.Only Sample.PL Sample.arm64v8 in
  snd (result (@manifestMatchesPlatform Sample.PL Sample.CE Sample.JS
                 Sample.imageKey Sample.good Sample.img Sample.arm64v8))
  = None
  /\ fst (result (@rangeResources Sample.JS Sample.good Sample.img comparer
                    (r :: rest) zeroManifestList zeroManifest))
     = fst (result (@rangeResources Sample.JS Sample.good Sample.img comparer
                      rest zeroManifestList zeroManifest)).
Proof.
  intros r rest comparer.
  destruct (@scan_errors_are_contained Sample.PL Sample.CE Sample.JS
              Sample.imageKey Sample.good Sample.img comparer)
    as (He & Hr & _).
  split.
  - now rewrite He.
  - destruct (Hr r rest zeroManifestList zeroManifest) as (_ & _ & H).
    + reflexivity.
    + right. right.
      exists (list_byte_of_string Sample.junkDoc), zeroManifestList,
             Sample.syntaxError.
      split; reflexivity.
    + exact H.
Defined.

(** C8 for the image's lease: its resources in another order. *)
Lemma scan_finds_entry_in_any_listing_example :
  let index := Sample.contentResource "sha256:index" in
  let junk := [Sample.contentResource "sha256:junk";
               Sample.contentResource "sha256:gone"] in
  result (@manifestMatchesPlatform Sample.PL Sample.CE Sample.JS
            Sample.imageKey (withLeases Sample.good ([index] ++ junk))
            Sample.img Sample.arm64v8)
  = (true, None).
Proof.
  intros index junk.
  apply (@scan_finds_entry_in_any_listing Sample.PL Sample.CE Sample.JS
           Sample.imageKey Sample.good Sample.img Sample.arm64v8 index
           [Sample.entry "sha256:m1" "arm64" "linux" "v8"]
           (Sample.entry "sha256:m1" "arm64" "linux" "v8")
           [index] junk ([index] ++ junk)).
  - now left.
  - reflexivity.
  - now left.
  - reflexivity.
  - reflexivity.
  - reflexivity.
  - exists (list_byte_of_string Sample.manifestDoc). split; [reflexivity|].
    intros m0. eexists. split; reflexivity.
  - apply Permutation_app_comm.
Defined.

(** C8 as stated does not hold: the one entry of the lease below is for
    the desired platform and its manifest declares the image's config
    digest, but its media type is the one of an image index, so the
    scanner passes over it and returns [false]. *)
Lemma scan_skips_other_media_types :
  let r := Sample.contentResource "sha256:odd" in
  let md := Sample.entryOf Sample.MediaTypeImageIndex "sha256:m1" "arm64"
              "linux" "v8" in
  leases_ListResources Sample.odd (Sample.imageKey "sha256:cfg") = Ok [r]
  /\ @resourceEntries Sample.JS Sample.odd r = Some [md]
  /\ ocispec.Platform_ md = Sample.arm64v8
  /\ platforms.Match (@platforms.Only Sample.PL Sample.arm64v8)
       Sample.arm64v8 = true
  /\ (exists data, readBlob Sample.odd (ocispec.Digest md) = Some data
         /\ @manifestDeclaresConfig Sample.JS data "sha256:cfg")
  /\ result (@manifestMatchesPlatform Sample.PL Sample.CE Sample.JS
               Sample.imageKey Sample.odd Sample.img Sample.arm64v8)
     = (false, None).
Proof.
  repeat split; try reflexivity.
  exists (list_byte_of_string Sample.manifestDoc). split; [reflexivity|].
  intros m0. eexists. split; reflexivity.
Qed.

(** C6 for a tagged image. *)
Lemma GetImage_without_platform_example :
  @GetImage Sample.PL Sample.CE Sample.RF Sample.JS Sample.imageKey
    Sample.good "busybox" {| backend.Platform := None |}
  = ([ReferenceStoreGet "busybox"; ImageStoreGet "sha256:cfg"],
     (Some Sample.img, None)).
Proof.
  destruct (@GetImage_without_platform Sample.PL Sample.CE Sample.RF
              Sample.JS Sample.imageKey Sample.good "busybox"
              {| backend.Platform := None |} eq_refl) as (-> & _).
  reflexivity.
Defined.

(** C1 for the image without lease, asked for as linux/arm64/v8. *)
Lemma GetImage_platform_mismatch_not_found_example :
  exists (err : error) (msg : string),
    snd (result (@GetImage Sample.PL Sample.CE Sample.RF Sample.JS
                   Sample.imageKey Sample.unleased "busybox"
                   {| backend.Platform := Some Sample.arm64v8 |}))
    = Some err
    /\ errdefs_IsNotFound err = true
    /\ error_message err = Some msg
    /\ Substring "linux/arm64/v8" msg
    /\ Substring "linux/amd64" msg.
Proof.
  apply (@GetImage_platform_mismatch_not_found Sample.PL Sample.CE Sample.RF
           Sample.JS Sample.imageKey Sample.unleased "busybox"
           Sample.arm64v8 Sample.img); reflexivity.
Defined.

(* ------------------------------------------------------------------ *)
(** ** What makes the scanner return [true] *)

Section ScannerMatches.
Context {PL : platforms.Pkg} {CE : CerrdefsPkg} {JS : JsonPkg}.
Variable imageKey : string -> string.
Variable i : ImageService.
Variable img : image.Image.

(** X1: the scanner returns [true] only for an entry of a content resource
    of the lease, with a manifest media type and a platform the exact matcher
    accepts, whose manifest was read and decoded without error into the
    variable [m], as some earlier decode had left it, and gave it a config
    digest equal to the image's identity. *)
Theorem manifestMatchesPlatform_found_inv (platform : ocispec.Platform) :
  fst (result (manifestMatchesPlatform imageKey i img platform)) = true ->
  exists ls r mds md m0 data m',
    leases_ListResources i (imageKey (image.ID_ img)) = Ok ls
    /\ In r ls /\ resourceEntries i r = Some mds /\ In md mds
    /\ isManifestMediaType (ocispec.MediaType md) = true
    /\ platforms.Match (platforms.Only platform) (ocispec.Platform_ md) = true
    /\ readBlob i (ocispec.Digest md) = Some data
    /\ json_Unmarshal_manifest data m0 = (m', None)
    /\ ocispec.Digest (Config m') = image.ID_ img.
Proof.
  rewrite manifestMatchesPlatform_unfold.
  destruct (leases_ListResources i _) as [ls|err]; [|discriminate].
  cbv zeta. cbn [fst snd result]. intros H.
  apply rangeResources_found_inv in H
    as (r & mds & md & m0 & data & m' & H).
  now exists ls, r, mds, md, m0, data, m'.
Qed.

(** X2: the scanner returns [true] when the lease lists a resource with an
    entry for the platform whose manifest declares the image's config
    digest. *)
Theorem manifestMatchesPlatform_declared (platform : ocispec.Platform)
    (ls : list leases.Resource) (r : leases.Resource)
    (mds : list ocispec.Descriptor) (md : ocispec.Descriptor) :
  leases_ListResources i (imageKey (image.ID_ img)) = Ok ls ->
  In r ls -> resourceEntries i r = Some mds -> In md mds ->
  declaredEntry i img platform md ->
  result (manifestMatchesPlatform imageKey i img platform) = (true, None).
Proof.
  intros Hl Hr He Hin (Hm & Hp & Hd).
  rewrite manifestMatchesPlatform_unfold, Hl. cbv zeta.
  cbn [fst snd result]. f_equal.
  now apply rangeResources_declared with (r := r) (mds := mds) (md := md).
Qed.
End ScannerMatches.

(** C3 does not hold of the scanner: in the lease below the first manifest
    of the list has a size that is not a number, so its decoding fails
    after its config digest is stored in [m]; the second has no config, so
    its decoding succeeds and leaves [m] as it is, and the scanner returns
    [true], though the second entry alone is no match and no entry of the
    lease is a matching entry. *)
Lemma manifestMatchesPlatform_stale_config_digest :
  result (@manifestMatchesPlatform Sample.PL Sample.CE Sample.JS
            Sample.imageKey Sample.stale Sample.img Sample.arm64v8)
  = (true, None)
  /\ leases_ListResources Sample.stale (Sample.imageKey "sha256:cfg")
     = Ok [Sample.contentResource "sha256:index2"]
  /\ fst (result (@rangeManifests Sample.JS Sample.stale Sample.img
                    (@platforms.Only Sample.PL Sample.arm64v8)
                    [Sample.entry "sha256:bare" "arm64" "linux" "v8"]
                    zeroManifest))
     = false
  /\ ~ @corroborated Sample.PL Sample.JS Sample.stale Sample.img
         Sample.arm64v8 [Sample.contentResource "sha256:index2"].
Proof.
  split; [reflexivity|]. split; [reflexivity|]. split; [reflexivity|].
  intros (r & mds & md & Hr & He & Hin & _ & _ & data & m' & Hb & Hj & Hd).
  destruct Hr as [<- | []].
  vm_compute in He. inversion He; subst mds; clear He.
  destruct Hin as [<- | [<- | []]];
    vm_compute in Hb; inversion Hb; subst data; clear Hb;
    vm_compute in Hj; inversion Hj; subst m'; clear Hj;
    vm_compute in Hd; discriminate.
Qed.

(** The calls of that scan: the second manifest is the last blob read. *)
Lemma manifestMatchesPlatform_stale_calls :
  calls (@manifestMatchesPlatform Sample.PL Sample.CE Sample.JS
           Sample.imageKey Sample.stale Sample.img Sample.arm64v8)
  = [LeasesListResources "moby-image-sha256:cfg";
     ContentReaderAt "sha256:index2"; ContentRead "sha256:index2" 306;
     ContentReaderAt "sha256:bad"; ContentRead "sha256:bad" 47;
     ContentReaderAt "sha256:bare"; ContentRead "sha256:bare" 19].
Proof. reflexivity. Qed.

(* ------------------------------------------------------------------ *)
(** ** The other ways out of [GetImage] *)

Section ResolverCases.
Context {PL : platforms.Pkg} {CE : CerrdefsPkg} {RF : ReferencePkg}
        {JS : JsonPkg}.
Variable imageKey : string -> string.
Variable i : ImageService.

(** X3: when the fallback matcher accepts the image's platform fields for the
    requested platform, [GetImage] returns the record and calls neither
    the lease registry nor the content store. *)
Theorem GetImage_platform_match (refOrID : string) (p0 : ocispec.Platform)
    (img : image.Image) :
  result (lookupImage i refOrID) = (Some img, None) ->
  Matches p0 (imgPlatOf img) = true ->
  GetImage imageKey i refOrID {| backend.Platform := Some p0 |}
  = lookupImage i refOrID
  /\ Forall (fun e => touchesLeasesOrContent e = false)
       (calls (GetImage imageKey i refOrID
                 {| backend.Platform := Some p0 |})).
Proof.
  intros Hl Hm.
  assert (E : GetImage imageKey i refOrID {| backend.Platform := Some p0 |}
              = lookupImage i refOrID).
  { rewrite GetImage_unfold, Hl. cbn [fst snd].
    unfold checkPlatform. cbn [backend.Platform]. cbv zeta.
    unfold Matches in Hm. rewrite Hm. cbn. rewrite app_nil_r.
    rewrite <- Hl. symmetry. apply IO_eta. }
  rewrite E. split; [reflexivity | apply lookupImage_calls].
Qed.

(** X4: when the fallback matcher rejects the image's platform fields,
    [GetImage] returns what the scanner decides: the record when the
    scanner finds a match, and the scanner's error, beside the record,
    when it fails. *)
Theorem GetImage_scanner_decides (refOrID : string) (p0 : ocispec.Platform)
    (img : image.Image) (matches : bool) (err : option error) :
  result (lookupImage i refOrID) = (Some img, None) ->
  Matches p0 (imgPlatOf img) = false ->
  result (manifestMatchesPlatform imageKey i img p0) = (matches, err) ->
  matches || isErr err = true ->
  result (GetImage imageKey i refOrID {| backend.Platform := Some p0 |})
  = (Some img, err).
Proof.
  intros Hl Hm Hs Hb. rewrite GetImage_unfold, Hl. cbn [fst snd].
  unfold checkPlatform. cbn [backend.Platform]. cbv zeta.
  unfold Matches in Hm. rewrite Hm.
  unfold bind, result in *. rewrite Hs. cbn [fst snd]. now rewrite Hb.
Qed.

(** X5: an error of the lookup is the error of [GetImage], whatever platform
    is requested. *)
Theorem GetImage_lookup_error (refOrID : string)
    (options : backend.GetImageOpts) (err : error) :
  result (lookupImage i refOrID) = (None, Some err) ->
  GetImage imageKey i refOrID options = lookupImage i refOrID.
Proof.
  intros Hl. rewrite GetImage_unfold, Hl. cbn [fst snd].
  unfold checkPlatform. cbn. rewrite app_nil_r.
  rewrite <- Hl. symmetry. apply IO_eta.
Qed.
End ResolverCases.

(** The design document's example: linux/arm without variant, asked for as
    linux/arm/v7, is returned without a scan. *)
Lemma GetImage_platform_match_example :
  let armImage := {| image.ID_ := "sha256:cfg"; image.OS := "linux";
                     image.Architecture := "arm"; image.Variant := "" |} in
  let i := {| leases_ListResources := fun _ => Err Sample.notFound;
              content_ReaderAt := fun _ => Err Sample.notFound;
              imageStore_Get := fun _ => Ok armImage;
              imageStore_Search := fun _ => Err Sample.notFound;
              referenceStore_Get := fun _ => Ok "sha256:cfg" |} in
  @GetImage Sample.PL Sample.CE Sample.RF Sample.JS Sample.imageKey i
    "busybox"
    {| backend.Platform :=
         Some {| ocispec.Architecture := "arm"; ocispec.OS := "linux";
                 ocispec.Variant := "v7" |} |}
  = ([ReferenceStoreGet "busybox"; ImageStoreGet "sha256:cfg"],
     (Some armImage, None)).
Proof.
  intros armImage i.
  destruct (@GetImage_platform_match Sample.PL Sample.CE Sample.RF Sample.JS
              Sample.imageKey i "busybox"
              {| ocispec.Architecture := "arm"; ocispec.OS := "linux";
                 ocispec.Variant := "v7" |} armImage eq_refl eq_refl)
    as [-> _].
  reflexivity.
Defined.

(** The image whose config says linux/amd64 and whose manifest list says
    linux/arm64/v8 is returned for linux/arm64/v8. *)
Lemma GetImage_scanner_decides_example :
  result (@GetImage Sample.PL Sample.CE Sample.RF Sample.JS Sample.imageKey
            Sample.good "busybox"
            {| backend.Platform := Some Sample.arm64v8 |})
  = (Some Sample.img, None).
Proof.
  apply (@GetImage_scanner_decides Sample.PL Sample.CE Sample.RF Sample.JS
           Sample.imageKey Sample.good "busybox" Sample.arm64v8 Sample.img
           true None); reflexivity.
Defined.

Lemma GetImage_lookup_error_example :
  @GetImage Sample.PL Sample.CE Sample.RF Sample.JS Sample.imageKey
    Sample.good "alpine" {| backend.Platform := Some Sample.arm64v8 |}
  = ([ReferenceStoreGet "alpine"; ImageStoreSearch "alpine"],
     (None,
      Some (ErrImageDoesNotExist
              {| reference.named := Some "alpine";
                 reference.digested := None |}))).
Proof.
  rewrite (@GetImage_lookup_error Sample.PL Sample.CE Sample.RF Sample.JS
             Sample.imageKey Sample.good "alpine"
             {| backend.Platform := Some Sample.arm64v8 |}
             (ErrImageDoesNotExist
                {| reference.named := Some "alpine";
                   reference.digested := None |}) eq_refl).
  reflexivity.
Defined.

(** The scanner's two directions on the image's lease. *)
Lemma manifestMatchesPlatform_found_inv_example :
  exists ls r mds md m0 data m',
    leases_ListResources Sample.good (Sample.imageKey "sha256:cfg") = Ok ls
    /\ In r ls /\ @resourceEntries Sample.JS Sample.good r = Some mds
    /\ In md mds
    /\ isManifestMediaType (ocispec.MediaType md) = true
    /\ platforms.Match (@platforms.Only Sample.PL Sample.arm64v8)
         (ocispec.Platform_ md) = true
    /\ readBlob Sample.good (ocispec.Digest md) = Some data
    /\ @json_Unmarshal_manifest Sample.JS data m0 = (m', None)
    /\ ocispec.Digest (Config m') = "sha256:cfg".
Proof.
  apply (@manifestMatchesPlatform_found_inv Sample.PL Sample.CE Sample.JS
           Sample.imageKey Sample.good Sample.img Sample.arm64v8).
  reflexivity.
Defined.

Lemma manifestMatchesPlatform_declared_example :
  result (@manifestMatchesPlatform Sample.PL Sample.CE Sample.JS
            Sample.imageKey Sample.good Sample.img Sample.arm64v8)
  = (true, None).
Proof.
  apply (@manifestMatchesPlatform_declared Sample.PL Sample.CE Sample.JS
           Sample.imageKey Sample.good Sample.img Sample.arm64v8
           _ (Sample.contentResource "sha256:index")
           [Sample.entry "sha256:m1" "arm64" "linux" "v8"]
           (Sample.entry "sha256:m1" "arm64" "linux" "v8") eq_refl).
  - right. right. right. now left.
  - reflexivity.
  - now left.
  - split; [reflexivity|]. split; [reflexivity|].
    exists (list_byte_of_string Sample.manifestDoc). split; [reflexivity|].
    intros m0. eexists. split; reflexivity.
Defined.

(* ------------------------------------------------------------------ *)
(** ** The first match ends the scan *)

Section FirstMatch.
Context {JS : JsonPkg}.
Variable i : ImageService.
Variable img : image.Image.
Variable comparer : platforms.Matcher.

(** X6: both loops end at the first pass that returns [true]: the calls of
    the scan are those made up to and in that pass, and neither the
    entries nor the lease resources after it are opened. *)
Theorem scan_stops_at_first_match :
  (forall (pre post : list ocispec.Descriptor) (md : ocispec.Descriptor)
          (m : manifest),
     let before := rangeManifests i img comparer pre m in
     fst (result before) = false ->
     fst (result (checkManifest i img comparer md (snd (result before))))
     = true ->
     calls (rangeManifests i img comparer (pre ++ md :: post) m)
     = calls before
       ++ calls (checkManifest i img comparer md (snd (result before)))
     /\ fst (result (rangeManifests i img comparer (pre ++ md :: post) m))
        = true)
  /\ (forall (pre post : list leases.Resource) (r : leases.Resource)
             (ml : manifestList) (m : manifest),
        let before := rangeResources i img comparer pre ml m in
        fst (result before) = false ->
        fst (result (checkResource i img comparer r (snd (result before))))
        = true ->
        calls (rangeResources i img comparer (pre ++ r :: post) ml m)
        = calls before
          ++ calls (checkResource i img comparer r (snd (result before)))
        /\ fst (result (rangeResources i img comparer (pre ++ r :: post)
                          ml m))
           = true).
Proof.
  split.
  - intros pre post md m before Hpre Hmd. now apply range_stops.
  - intros pre post r ml m before Hpre Hr. now apply range_stops.
Qed.
End FirstMatch.

(** On the image's lease: a resource listed after the manifest list is
    not opened. *)
Lemma scan_stops_at_first_match_example :
  let comparer := @platforms.Only Sample.PL Sample.arm64v8 in
  calls (@rangeResources Sample.JS Sample.good Sample.img comparer
           ([Sample.contentResource "sha256:junk"]
            ++ Sample.contentResource "sha256:index"
               :: [Sample.contentResource "sha256:bare"])
           zeroManifestList zeroManifest)
  = [ContentReaderAt "sha256:junk"; ContentRead "sha256:junk" 6;
     ContentReaderAt "sha256:index"; ContentRead "sha256:index" 159;
     ContentReaderAt "sha256:m1"; ContentRead "sha256:m1" 34].
Proof.
  intros comparer.
  destruct (@scan_stops_at_first_match Sample.JS Sample.good Sample.img
              comparer) as [_ H].
  destruct (H [Sample.contentResource "sha256:junk"]
              [Sample.contentResource "sha256:bare"]
              (Sample.contentResource "sha256:index")
              zeroManifestList zeroManifest eq_refl eq_refl) as [-> _].
  reflexivity.
Defined.

(* ------------------------------------------------------------------ *)
(** ** The results of [GetImage] and the platform check of [PushImage] *)

Section ResolverResults.
Context {PL : platforms.Pkg} {CE : CerrdefsPkg} {RF : ReferencePkg}
        {JS : JsonPkg}.
Variable imageKey : string -> string.
Variable i : ImageService.

(** A failed lookup is a reference that does not parse, before any store
    is asked, or a parsed reference for which no image is found. *)
Lemma lookupImage_failure (refOrID : string) (err : error) :
  result (lookupImage i refOrID) = (None, Some err) ->
  (exists perr, reference_ParseAnyReference refOrID = Err perr
                /\ err = errdefs_InvalidParameter perr
                /\ calls (lookupImage i refOrID) = [])
  \/ (exists ref, reference_ParseAnyReference refOrID = Ok ref
                  /\ err = ErrImageDoesNotExist ref).
Proof.
  unfold lookupImage, searchByID.
  destruct (reference_ParseAnyReference refOrID) as [ref|perr].
  - intros H. right. exists ref. split; [reflexivity|].
    destruct (reference.named ref) as [namedRef|].
    + destruct (referenceStore_Get i namedRef) as [dgst|e].
      * destruct (imageStore_Get i dgst); [discriminate|].
        destruct (imageStore_Search i refOrID) as [id|e'];
          [destruct (imageStore_Get i id)|]; cbn in H; congruence.
      * destruct (imageStore_Search i refOrID) as [id|e'];
          [destruct (imageStore_Get i id)|]; cbn in H; congruence.
    + destruct (reference.digested ref) as [dgst|];
        [destruct (imageStore_Get i dgst)|]; cbn in H; congruence.
  - intros H. left. exists perr. cbn in H. split; [reflexivity|].
    split; [congruence | reflexivity].
Qed.

(** The deferred platform check on a resolved image the fallback matcher
    rejects: the scanner decides. *)
Lemma checkPlatform_scanned (refOrID : string) (p0 : ocispec.Platform)
    (img : image.Image) :
  Matches p0 (imgPlatOf img) = false ->
  let s := result (manifestMatchesPlatform imageKey i img p0) in
  result (checkPlatform imageKey i refOrID {| backend.Platform := Some p0 |}
            (Some img) None)
  = if fst s || isErr (snd s) then (Some img, snd s)
    else
      (Some img,
       Some (errdefs_NotFound (errors_Errorf
         (platformMismatchMessage
            match reference_ParseNamed refOrID with
            | Ok ref => reference_FamiliarString ref
            | Err _ => refOrID
            end
            (platforms.FormatAll (imgPlatOf img))
            (platforms.FormatAll p0))))).
Proof.
  intros Hm. unfold checkPlatform. cbn [backend.Platform]. cbv zeta.
  unfold Matches in Hm. rewrite Hm. unfold bind, result.
  destruct (manifestMatchesPlatform imageKey i img p0) as [tr [m e]].
  cbn [fst snd]. now destruct (m || isErr e).
Qed.

(** X7: what [GetImage] returns has one of four shapes: the image and no
    error; no image and the parse error as an invalid parameter, no store
    having been asked; no image and [ErrImageDoesNotExist] for the parsed
    reference; or, a platform being requested that the fallback matcher
    rejects, the image beside an error, which is the lease registry's
    error other than not found or the not-found error of the platform
    mismatch.  It never returns neither image nor error. *)
Theorem GetImage_result_shapes (refOrID : string)
    (options : backend.GetImageOpts) :
  (exists img, result (GetImage imageKey i refOrID options)
               = (Some img, None))
  \/ (exists perr,
        reference_ParseAnyReference refOrID = Err perr
        /\ GetImage imageKey i refOrID options
           = ([], (None, Some (errdefs_InvalidParameter perr))))
  \/ (exists ref,
        reference_ParseAnyReference refOrID = Ok ref
        /\ result (GetImage imageKey i refOrID options)
           = (None, Some (ErrImageDoesNotExist ref)))
  \/ (exists img p0 err,
        backend.Platform options = Some p0
        /\ Matches p0 (imgPlatOf img) = false
        /\ result (GetImage imageKey i refOrID options)
           = (Some img, Some err)
        /\ ((leases_ListResources i (imageKey (image.ID_ img)) = Err err
             /\ cerrdefs_IsNotFound err = false)
            \/ (result (manifestMatchesPlatform imageKey i img p0)
                = (false, None)
                /\ errdefs_IsNotFound err = true
                /\ exists msg, err = errdefs_NotFound (errors_Errorf msg)))).
Proof.
  rewrite GetImage_unfold.
  destruct (lookupImage_result i refOrID) as [(img & Hl) | (err & Hl)].
  - rewrite Hl. cbn [fst snd].
    destruct options as [[p0|]]; [|left; now exists img].
    destruct (Matches p0 (imgPlatOf img)) eqn:Hm.
    { left. exists img. unfold checkPlatform. cbn [backend.Platform].
      cbv zeta. unfold Matches in Hm. now rewrite Hm. }
    unfold result at 1 2 3 4. cbn [snd].
    change (snd (checkPlatform imageKey i refOrID
                   {| backend.Platform := Some p0 |} (Some img) None))
      with (result (checkPlatform imageKey i refOrID
                      {| backend.Platform := Some p0 |} (Some img) None)).
    rewrite (checkPlatform_scanned refOrID p0 img Hm). cbv zeta.
    destruct (result (manifestMatchesPlatform imageKey i img p0))
      as [m e] eqn:Hs.
    cbn [fst snd]. pose proof Hs as Hs0.
    rewrite manifestMatchesPlatform_unfold in Hs.
    destruct (leases_ListResources i _) as [ls|lerr] eqn:Hls.
    + cbn in Hs. injection Hs as _ <-. rewrite orb_false_r.
      destruct m; [left; now exists img|].
      right. right. right. eexists img, p0, _.
      split; [reflexivity|]. split; [exact Hm|]. split; [reflexivity|].
      right. split; [exact Hs0|]. split; [reflexivity|]. now eexists.
    + unfold result in Hs. cbn in Hs. injection Hs as <- <-.
      destruct (cerrdefs_IsNotFound lerr) eqn:Hnf; cbn [orb isErr].
      * right. right. right. eexists img, p0, _.
        split; [reflexivity|]. split; [exact Hm|]. split; [reflexivity|].
        right. split; [exact Hs0|]. split; [reflexivity|]. now eexists.
      * right. right. right. exists img, p0, lerr.
        split; [reflexivity|]. split; [exact Hm|]. split; [reflexivity|].
        left. now split.
  - rewrite Hl. cbn [fst snd]. unfold checkPlatform. cbn.
    destruct (lookupImage_failure refOrID Hl)
      as [(perr & Hp & -> & Hc) | (ref & Hp & ->)].
    + right. left. exists perr. split; [exact Hp|]. now rewrite Hc.
    + right. right. left. exists ref. now split.
Qed.

(** X8: the search by ID is a fallback: for a reference that parses, the
    image store is searched exactly when the reference is a named one and
    the reference store, followed by the image store, did not give an
    image for it; a digest alone is never searched for. *)
Theorem lookupImage_search_is_fallback (refOrID : string)
    (ref : reference.Reference) :
  reference_ParseAnyReference refOrID = Ok ref ->
  (In (ImageStoreSearch refOrID) (calls (lookupImage i refOrID)) <->
   exists namedRef,
     reference.named ref = Some namedRef
     /\ forall dgst img, referenceStore_Get i namedRef = Ok dgst ->
                         imageStore_Get i dgst <> Ok img).
Proof.
  intros Hp. unfold lookupImage, searchByID. rewrite Hp.
  destruct (reference.named ref) as [namedRef|].
  - destruct (referenceStore_Get i namedRef) as [dgst|e] eqn:Hr.
    + destruct (imageStore_Get i dgst) as [img|e] eqn:Hg.
      * split.
        -- cbn. intros [H | [H | []]]; discriminate.
        -- intros (n & Hn & H). exfalso. injection Hn as <-.
           exact (H dgst img Hr Hg).
      * split; [|intros _].
        -- intros _. exists namedRef. split; [reflexivity|].
           intros d img Hd. rewrite Hr in Hd. injection Hd as <-.
           now rewrite Hg.
        -- destruct (imageStore_Search i refOrID) as [id|e'];
             [destruct (imageStore_Get i id)|]; cbn; auto.
    + split; [|intros _].
      * intros _. exists namedRef. split; [reflexivity|].
        intros d img Hd. rewrite Hr in Hd. discriminate.
      * destruct (imageStore_Search i refOrID) as [id|e'];
          [destruct (imageStore_Get i id)|]; cbn; auto.
  - split.
    + destruct (reference.digested ref) as [dgst|];
        [destruct (imageStore_Get i dgst)|]; cbn;
        intros H; repeat (destruct H as [H | H]; try discriminate);
        contradiction.
    + intros (n & Hn & _). discriminate.
Qed.
End ResolverResults.

Section PushGate.
Context {PL : platforms.Pkg} {CE : CerrdefsPkg} {RF : ReferencePkg}
        {JS : JsonPkg} {DP : DistributionPkg}.
Variable imageKey : string -> string.
Variable i : ImageService.


(** X10: an image whose recorded platform the fallback matcher rejects for
    the platform to push, and which no manifest list of its lease
    corroborates, is not pushed: [PushImage] returns an error classified
    as not found, and [distribution.Push] is not called. *)
Theorem PushImage_platform_mismatch (ref : reference.Named)
    (p0 : ocispec.Platform) (img : image.Image) :
  result (lookupImage i ref) = (Some img, None) ->
  Matches p0 (imgPlatOf img) = false ->
  result (manifestMatchesPlatform imageKey i img p0) = (false, None) ->
  (exists err, snd (PushImage imageKey i ref (Some p0)) = Some err
               /\ errdefs_IsNotFound err = true)
  /\ filter isDistributionPush (fst (PushImage imageKey i ref (Some p0)))
     = [].
Proof.
  intros Hl Hm Hs.
  assert (He : exists err,
             snd (result (GetImage imageKey i ref
                            {| backend.Platform := Some p0 |})) = Some err
             /\ errdefs_IsNotFound err = true).
  { rewrite GetImage_unfold, Hl. cbn [fst snd].
    unfold checkPlatform. cbn [backend.Platform]. cbv zeta.
    unfold Matches in Hm. rewrite Hm.
    unfold bind, result in *. rewrite Hs. cbn. now eexists. }
  destruct He as (err & He & Hnf).
  assert (Hf : forall l : list Event,
             filter isDistributionPush (map ImageServiceCall l) = []).
  { induction l as [|e l IH]; [reflexivity | exact IH]. }
  unfold PushImage. cbv zeta. cbn [fst snd]. rewrite He. cbn [fst snd].
  split; [now exists err | apply Hf].
Qed.
End PushGate.

(* ------------------------------------------------------------------ *)
(** ** Substrings *)

Lemma prefix_iff (p0 s : string) :
  String.prefix p0 s = true <-> exists post, s = (p0 ++ post)%string.
Proof.
  revert s. induction p0 as [|a p0 IH]; intros s.
  - destruct s; simpl; (split; [intros _; now eexists | reflexivity]).
  - destruct s as [|b s]; simpl;
      [split; [discriminate | intros [post H]; discriminate]|].
    destruct (Ascii.ascii_dec a b) as [->|Hne].
    + rewrite IH. split; intros [post H]; exists post; congruence.
    + split; [discriminate|]. intros [post H]. congruence.
Qed.

(** [strings_Contains] decides [Substring]. *)
Lemma strings_Contains_iff (s sub : string) :
  strings_Contains s sub = true <-> Substring sub s.
Proof.
  unfold Substring. induction s as [|a s IH]; cbn [strings_Contains].
  - rewrite orb_false_r, prefix_iff. split.
    + intros [post H]. now exists ""%string, post.
    + intros (pre & post & H). destruct pre; [now exists post|discriminate].
  - rewrite orb_true_iff, prefix_iff, IH. split.
    + intros [[post H] | (pre & post & H)].
      * now exists ""%string, post.
      * exists (String a pre), post. simpl. now rewrite H.
    + intros (pre & post & H). destruct pre as [|b pre].
      * left. now exists post.
      * right. simpl in H. exists pre, post. congruence.
Qed.

(* ------------------------------------------------------------------ *)
(** ** The matchers of the log scanner *)

Lemma wrapInt_small (z : Z) :
  (-9223372036854775808 <= z < 9223372036854775808)%Z -> wrapInt z = z.
Proof. intros H. unfold wrapInt. rewrite Z.mod_small; lia. Qed.

Lemma runMatch_cons (St : Type) (m : daemon.Match St) (st : St)
    (line : string) (rest : list string) :
  runMatch m st (line :: rest)
  = (snd (m st line) :: fst (runMatch m (fst (m st line)) rest),
     snd (runMatch m (fst (m st line)) rest)).
Proof.
  simpl. destruct (m st line) as [st' b]. simpl.
  now destruct (runMatch m st' rest).
Qed.

Lemma runMatch_app (St : Type) (m : daemon.Match St) (l1 l2 : list string) :
  forall st,
  runMatch m st (l1 ++ l2)
  = (fst (runMatch m st l1) ++ fst (runMatch m (snd (runMatch m st l1)) l2),
     snd (runMatch m (snd (runMatch m st l1)) l2)).
Proof.
  induction l1 as [|line l1 IH]; intros st; simpl.
  - now destruct (runMatch m st l2).
  - destruct (m st line) as [st' b]. rewrite IH.
    destruct (runMatch m st' l1) as [bs st'']. simpl.
    now destruct (runMatch m st'' l2).
Qed.

Lemma runMatch_length (St : Type) (m : daemon.Match St) (lines : list string) :
  forall st, length (fst (runMatch m st lines)) = length lines.
Proof.
  induction lines as [|line lines IH]; intros st; simpl; [reflexivity|].
  destruct (m st line) as [st' b]. specialize (IH st').
  destruct (runMatch m st' lines). simpl in *. now rewrite IH.
Qed.

Lemma hits_app (l1 l2 : list bool) : hits (l1 ++ l2) = (hits l1 + hits l2)%nat.
Proof. unfold hits. now rewrite filter_app, length_app. Qed.

Lemma hits_le (l : list bool) : (hits l <= length l)%nat.
Proof. apply filter_length_le. Qed.

Section MatchCount.
Variable St : Type.
Variable f : daemon.Match St.
Variable count : Z.

(** The variables of the counting matcher after some lines: those of [f],
    and the number of lines [f] accepted, added to the count it started
    from. *)
Lemma ScanLogsMatchCount_call (s : St) (matched : Z) (line : string) :
  daemon.ScanLogsMatchCount f count (s, matched) line
  = let matched' :=
      if snd (f s line) then wrapInt (matched + 1) else matched in
    ((fst (f s line), matched'), (matched' =? count)%Z).
Proof.
  unfold daemon.ScanLogsMatchCount. now destruct (f s line).
Qed.

Lemma ScanLogsMatchCount_state (lines : list string) :
  forall (s0 : St) (matched : Z),
  (0 <= matched)%Z ->
  (matched + Z.of_nat (length lines) < 9223372036854775808)%Z ->
  snd (runMatch (daemon.ScanLogsMatchCount f count) (s0, matched) lines)
  = (snd (runMatch f s0 lines),
     (matched + Z.of_nat (hits (fst (runMatch f s0 lines))))%Z).
Proof.
  induction lines as [|line lines IH]; intros s0 matched H0 Hlen.
  - simpl. f_equal. unfold hits. simpl. lia.
  - rewrite !runMatch_cons, ScanLogsMatchCount_call. cbv zeta.
    cbn [fst snd]. cbn [length] in Hlen.
    destruct (snd (f s0 line)).
    + rewrite wrapInt_small by lia. rewrite IH by lia.
      f_equal. unfold hits. cbn [filter length]. lia.
    + rewrite IH by lia. f_equal.
Qed.

(** X11: on a log of fewer than 2^63 lines,
    [ScanLogsMatchCount(f, count)] returns [true] on a line exactly when
    the number of lines [f] has accepted so far, this one included, is
    [count], whether or not [f] accepts the line itself. *)
Theorem ScanLogsMatchCount_counts (s0 : St) (lines : list string)
    (line : string) :
  (Z.of_nat (length lines) < 9223372036854775807)%Z ->
  let before :=
    snd (runMatch (daemon.ScanLogsMatchCount f count) (s0, 0%Z) lines) in
  snd (daemon.ScanLogsMatchCount f count before line)
  = (Z.of_nat (hits (fst (runMatch f s0 (lines ++ [line])))) =? count)%Z.
Proof.
  intros Hlen. cbv zeta.
  rewrite ScanLogsMatchCount_state by lia.
  rewrite ScanLogsMatchCount_call. cbv zeta. cbn [snd].
  rewrite runMatch_app. cbn [fst]. rewrite hits_app.
  pose proof (hits_le (fst (runMatch f s0 lines))) as Hh.
  rewrite runMatch_length in Hh.
  rewrite runMatch_cons. cbn [fst runMatch].
  destruct (snd (f (snd (runMatch f s0 lines)) line)).
  - change (hits [true]) with 1%nat.
    rewrite wrapInt_small by lia. f_equal. lia.
  - change (hits [false]) with 0%nat. f_equal. lia.
Qed.
End MatchCount.

Lemma filter_length_all (A : Type) (p0 : A -> bool) (l : list A) :
  length (filter p0 l) = length l <-> forall x, In x l -> p0 x = true.
Proof.
  induction l as [|a l IH]; simpl; [now split|].
  pose proof (filter_length_le p0 l) as Hle.
  destruct (p0 a) eqn:Ha; simpl.
  - split.
    + intros H x [<- | Hx]; [exact Ha|]. apply IH; [lia | exact Hx].
    + intros H. f_equal. apply IH. intros x Hx. apply H. now right.
  - split; [lia|]. intros H. specialize (H a (or_introl eq_refl)). congruence.
Qed.

Lemma nodup_length_bound (l : list string) :
  (length (nodup string_dec l) <= length l)%nat.
Proof.
  induction l as [|a l IH]; simpl; [lia|].
  destruct (in_dec string_dec a l); simpl; lia.
Qed.

Lemma nodup_length_lt (l : list string) :
  ~ NoDup l -> (length (nodup string_dec l) < length l)%nat.
Proof.
  induction l as [|a l IH]; intros H; [exfalso; apply H; constructor|].
  simpl. pose proof (nodup_length_bound l) as Hle.
  destruct (in_dec string_dec a l) as [Hin|Hin]; [simpl; lia|].
  simpl. apply -> Nat.succ_lt_mono. apply IH. intros Hnd. apply H.
  now constructor.
Qed.

Section MatchAll.
Variable contains : list string.

Lemma markMatched_In (c x : string) (m : list string) :
  In x (daemon.markMatched c m) <-> x = c \/ In x m.
Proof.
  unfold daemon.markMatched.
  destruct (existsb (String.eqb c) m) eqn:E.
  - apply existsb_exists in E as (y & Hy & Hc). apply String.eqb_eq in Hc.
    subst y. split; [now right | intros [-> | H]; assumption].
  - rewrite in_app_iff. simpl. split.
    + intros [H | [<- | []]]; [now right | now left].
    + intros [-> | H]; [right; now left | now left].
Qed.

Lemma markMatched_NoDup (c : string) (m : list string) :
  NoDup m -> NoDup (daemon.markMatched c m).
Proof.
  intros Hnd. unfold daemon.markMatched.
  destruct (existsb (String.eqb c) m) eqn:E; [exact Hnd|].
  apply NoDup_app; [exact Hnd | repeat constructor; easy|].
  intros x Hx [Hc | []]. subst x.
  assert (existsb (String.eqb c) m = true); [|congruence].
  apply existsb_exists. exists c. split; [exact Hx | apply String.eqb_refl].
Qed.

(** One call of the matcher marks the strings the line contains. *)
Lemma markLine (line : string) (cs : list string) :
  forall m, NoDup m ->
  let m' :=
    fold_left
      (fun m c => if strings_Contains line c then daemon.markMatched c m
                  else m) cs m in
  NoDup m'
  /\ forall x, In x m' <->
               In x m \/ (In x cs /\ strings_Contains line x = true).
Proof.
  induction cs as [|c cs IH]; intros m Hnd; cbv zeta; simpl.
  - split; [exact Hnd|]. intros x. split; [now left | now intros [H | [[] _]]].
  - destruct (strings_Contains line c) eqn:Ec.
    + destruct (IH _ (markMatched_NoDup c Hnd)) as [Hnd' Hin].
      split; [exact Hnd'|]. intros x. rewrite Hin, markMatched_In.
      split.
      * intros [[-> | H] | [H1 H2]]; auto.
      * intros [H | [[<- | H1] H2]]; auto.
    + destruct (IH _ Hnd) as [Hnd' Hin].
      split; [exact Hnd'|]. intros x. rewrite Hin. split.
      * intros [H | [H1 H2]]; auto.
      * intros [H | [[<- | H1] H2]]; auto. congruence.
Qed.

(** The marked strings are those of [contains] seen in the lines so far,
    each once. *)
Definition marks (matched ls : list string) : Prop :=
  NoDup matched
  /\ forall c, In c matched <-> In c contains /\ seenIn ls c = true.

Lemma seenIn_snoc (ls : list string) (line c : string) :
  seenIn (ls ++ [line]) c = seenIn ls c || strings_Contains line c.
Proof. unfold seenIn. rewrite existsb_app. simpl. now rewrite orb_false_r. Qed.

Lemma marks_call (matched ls : list string) (line : string) :
  marks matched ls ->
  marks (fst (daemon.ScanLogsMatchAll contains matched line)) (ls ++ [line]).
Proof.
  intros [Hnd Hin]. unfold daemon.ScanLogsMatchAll. cbn [fst].
  destruct (markLine line contains Hnd) as [Hnd' Hin'].
  split; [exact Hnd'|]. intros c. rewrite Hin', Hin, seenIn_snoc.
  rewrite orb_true_iff. tauto.
Qed.

Lemma marks_run (lines : list string) :
  forall matched ls,
  marks matched ls ->
  marks (snd (runMatch (daemon.ScanLogsMatchAll contains) matched lines))
        (ls ++ lines).
Proof.
  induction lines as [|line lines IH]; intros matched ls H.
  - simpl. now rewrite app_nil_r.
  - rewrite runMatch_cons. cbn [snd].
    replace (ls ++ line :: lines) with ((ls ++ [line]) ++ lines)
      by now rewrite <- app_assoc.
    apply IH. now apply marks_call.
Qed.

Lemma marks_length (matched ls : list string) :
  marks matched ls ->
  length matched
  = length (nodup string_dec (filter (seenIn ls) contains)).
Proof.
  intros [Hnd Hin]. apply Permutation_length.
  apply NoDup_Permutation; [exact Hnd | apply NoDup_nodup|].
  intros c. now rewrite Hin, nodup_In, filter_In.
Qed.

(** X12: [ScanLogsMatchAll(contains...)] returns [true] on a line exactly
    when the number of different strings of [contains] that some line so
    far contains is the number of strings given: with strings that are all
    different, when each has been seen in some line; with a string given
    twice, never. *)
Theorem ScanLogsMatchAll_spec (lines : list string) (line : string) :
  let before :=
    snd (runMatch (daemon.ScanLogsMatchAll contains) [] lines) in
  let out := snd (daemon.ScanLogsMatchAll contains before line) in
  out = Nat.eqb
          (length (nodup string_dec
                     (filter (seenIn (lines ++ [line])) contains)))
          (length contains)
  /\ (NoDup contains ->
      (out = true <->
       forall c, In c contains -> seenIn (lines ++ [line]) c = true))
  /\ (~ NoDup contains -> out = false).
Proof.
  cbv zeta.
  assert (H0 : marks [] []).
  { split; [constructor|]. intros c. split; [intros []|].
    intros [_ H]. discriminate. }
  pose proof (marks_run lines H0) as Hb. simpl app in Hb.
  pose proof (marks_call line Hb) as Hc.
  apply marks_length in Hc.
  assert (E : snd (daemon.ScanLogsMatchAll contains
                     (snd (runMatch (daemon.ScanLogsMatchAll contains) []
                             lines)) line)
              = Nat.eqb
                  (length (nodup string_dec
                             (filter (seenIn (lines ++ [line])) contains)))
                  (length contains)).
  { rewrite <- Hc. reflexivity. }
  rewrite E. split; [reflexivity|]. split.
  - intros Hnd.
    rewrite (nodup_fixed_point string_dec (NoDup_filter _ Hnd)).
    rewrite Nat.eqb_eq. apply filter_length_all.
  - intros Hnd. apply Nat.eqb_neq.
    pose proof (nodup_length_lt Hnd) as Hlt.
    assert (Hle : (length (nodup string_dec
                             (filter (seenIn (lines ++ [line])) contains))
                   <= length (nodup string_dec contains))%nat).
    { apply NoDup_incl_length; [apply NoDup_nodup|].
      intros c Hc'. apply nodup_In in Hc'. apply filter_In in Hc'.
      apply nodup_In. tauto. }
    lia.
Qed.
End MatchAll.

Section Scan.
Context {St : Type}.
Variable ctx : nat -> option daemon.error.
Variable match_ : daemon.Match St.
Variable scanErr_ : option daemon.error.

Lemma scanFrom_cons (k : nat) (line : string) (rest : list string) (st : St) :
  daemon.scanFrom ctx match_ scanErr_ k (line :: rest) st
  = if snd (match_ st line)
    then ((true, line, None), fst (match_ st line))
    else match ctx k with
         | Some err => ((false, "", Some err), fst (match_ st line))
         | None =>
           daemon.scanFrom ctx match_ scanErr_ (S k) rest
             (fst (match_ st line))
         end.
Proof. simpl. now destruct (match_ st line) as [st' []]. Qed.

(** What a scan returns: a line of the log, the first one [match] accepts,
    and no error; or no line. *)
Lemma scanFrom_outcome (lines : list string) :
  forall k st,
  let r := daemon.scanFrom ctx match_ scanErr_ k lines st in
  (fst (fst (fst r)) = true ->
   snd (fst r) = None
   /\ exists pre post,
        lines = pre ++ snd (fst (fst r)) :: post
        /\ forallb negb (fst (runMatch match_ st pre)) = true
        /\ snd (match_ (snd (runMatch match_ st pre)) (snd (fst (fst r))))
           = true
        /\ snd r
           = fst (match_ (snd (runMatch match_ st pre))
                    (snd (fst (fst r)))))
  /\ (fst (fst (fst r)) = false -> snd (fst (fst r)) = "").
Proof.
  induction lines as [|line rest IH]; intros k st; cbv zeta.
  - simpl. split; [discriminate | reflexivity].
  - rewrite scanFrom_cons.
    destruct (snd (match_ st line)) eqn:Hm.
    + cbn [fst snd]. split; [|discriminate]. intros _. split; [reflexivity|].
      exists [], rest. simpl. auto.
    + destruct (ctx k) as [err|].
      * cbn [fst snd]. split; [discriminate | reflexivity].
      * specialize (IH (S k) (fst (match_ st line))). cbv zeta in IH.
        destruct IH as [IH1 IH2]. split; [|exact IH2].
        intros Hok. destruct (IH1 Hok) as (He & pre & post & Hl & Hp & Hh & Hs).
        split; [exact He|]. exists (line :: pre), post.
        rewrite runMatch_cons. cbn [fst snd]. rewrite Hm. simpl.
        rewrite Hl at 1. auto.
Qed.

Hypothesis notCancelled : forall k, ctx k = None.

Lemma scanFrom_index (lines : list string) :
  forall k k' st,
  daemon.scanFrom ctx match_ scanErr_ k lines st
  = daemon.scanFrom ctx match_ scanErr_ k' lines st.
Proof.
  induction lines as [|line rest IH]; intros k k' st; [reflexivity|].
  rewrite !scanFrom_cons, !notCancelled.
  destruct (snd (match_ st line)); [reflexivity | apply IH].
Qed.

(** A scan that is not cancelled and finds nothing has passed every line
    to [match]. *)
Lemma scanFrom_miss (lines : list string) :
  forall k st,
  fst (fst (fst (daemon.scanFrom ctx match_ scanErr_ k lines st))) = false ->
  snd (daemon.scanFrom ctx match_ scanErr_ k lines st)
  = snd (runMatch match_ st lines)
  /\ forallb negb (fst (runMatch match_ st lines)) = true.
Proof.
  induction lines as [|line rest IH]; intros k st; [now simpl|].
  rewrite scanFrom_cons, runMatch_cons, notCancelled.
  destruct (snd (match_ st line)) eqn:Hm; cbn [fst snd]; [discriminate|].
  intros H. destruct (IH _ _ H) as [H1 H2]. simpl. auto.
Qed.

Lemma scanFrom_app (l1 l2 : list string) :
  forall k st,
  forallb negb (fst (runMatch match_ st l1)) = true ->
  daemon.scanFrom ctx match_ scanErr_ k (l1 ++ l2) st
  = daemon.scanFrom ctx match_ scanErr_ k l2 (snd (runMatch match_ st l1)).
Proof.
  induction l1 as [|line rest IH]; intros k st; [reflexivity|].
  rewrite runMatch_cons. cbn [fst snd]. simpl forallb.
  rewrite andb_true_iff. intros [Hm Hr].
  rewrite <- app_comm_cons, scanFrom_cons, notCancelled.
  destruct (snd (match_ st line)); [discriminate|].
  rewrite (IH (S k) _ Hr). apply scanFrom_index.
Qed.
End Scan.

(** X13: when [ScanLogs] reports a match, it returns no error and the
    first line of the log that [match] accepted, having passed [match] the
    lines before it and no line after it; when it reports none, the line
    it returns is empty. *)
Theorem ScanLogs_outcome (St : Type) (d : daemon.Daemon)
    (ctx : nat -> option daemon.error) (match_ : daemon.Match St) (st : St) :
  let r := daemon.ScanLogs d ctx match_ st in
  let ok := fst (fst (fst r)) in
  let line := snd (fst (fst r)) in
  (ok = true ->
   snd (fst r) = None
   /\ exists pre post,
        daemon.Lines (daemon.logFile d) = pre ++ line :: post
        /\ forallb negb (fst (runMatch match_ st pre)) = true
        /\ snd (match_ (snd (runMatch match_ st pre)) line) = true
        /\ snd r = fst (match_ (snd (runMatch match_ st pre)) line))
  /\ (ok = false -> line = "").
Proof.
  cbv zeta. unfold daemon.ScanLogs.
  destruct (daemon.statErr (daemon.logFile d)) as [err|].
  - cbn [fst snd]. split; [discriminate | reflexivity].
  - apply scanFrom_outcome.
Qed.

(** X14: the variables of [match] outlive a scan.  When a scan of one log
    finds no match, a scan of another log with the same [match] gives what
    one scan of the lines of the first followed by those of the second
    gives: a matcher that counts, polled on a log that grows, counts the
    lines it has seen again. *)
Theorem ScanLogs_rescan (St : Type) (d d' both : daemon.Daemon)
    (ctx : nat -> option daemon.error) (match_ : daemon.Match St) (st : St) :
  (forall k, ctx k = None) ->
  daemon.statErr (daemon.logFile d) = None ->
  daemon.statErr (daemon.logFile d') = None ->
  daemon.logFile both
  = {| daemon.statErr := None;
       daemon.Lines :=
         daemon.Lines (daemon.logFile d) ++ daemon.Lines (daemon.logFile d');
       daemon.scanErr := daemon.scanErr (daemon.logFile d') |} ->
  fst (fst (fst (daemon.ScanLogs d ctx match_ st))) = false ->
  daemon.ScanLogs d' ctx match_ (snd (daemon.ScanLogs d ctx match_ st))
  = daemon.ScanLogs both ctx match_ st.
Proof.
  intros Hctx Hd Hd' Hboth. unfold daemon.ScanLogs.
  rewrite Hd, Hd', Hboth. cbn [daemon.statErr daemon.Lines daemon.scanErr].
  intros Hmiss.
  destruct (@scanFrom_miss St ctx match_ _ Hctx _ _ _ Hmiss) as [Hs Hn].
  rewrite Hs. symmetry. now apply scanFrom_app.
Qed.

Lemma find_seenIn (c : string) (lines : list string) :
  seenIn lines c
  = match find (fun l => strings_Contains l c) lines with
    | Some _ => true
    | None => false
    end.
Proof.
  induction lines as [|l lines IH]; [reflexivity|].
  simpl. destruct (strings_Contains l c); [reflexivity | exact IH].
Qed.

Lemma scanFrom_MatchString (ctx : nat -> option daemon.error)
    (e : option daemon.error) (c : string) :
  (forall k, ctx k = None) ->
  forall lines k,
  daemon.scanFrom ctx (daemon.ScanLogsMatchString c) e k lines tt
  = (match find (fun l => strings_Contains l c) lines with
     | Some l => (true, l, None)
     | None => (false, "", e)
     end, tt).
Proof.
  intros Hctx. induction lines as [|l lines IH]; intros k; [reflexivity|].
  rewrite scanFrom_cons, Hctx. unfold daemon.ScanLogsMatchString at 1 2 3.
  cbn [fst snd]. simpl find.
  destruct (strings_Contains l c); [reflexivity | apply IH].
Qed.

(** X15: with [ScanLogsMatchString(contains)] and a context that is not
    done, [ScanLogs] returns the first line of the log that has [contains]
    as a substring; when no line has, it returns what the scanner ended
    with.  The check of [PollCheckLogs] then succeeds when some line has
    the substring, and otherwise asks to go on, or fails with the
    scanner's error. *)
Theorem ScanLogs_MatchString (d : daemon.Daemon)
    (ctx : nat -> option daemon.error) (contains : string) :
  daemon.statErr (daemon.logFile d) = None ->
  (forall k, ctx k = None) ->
  let lines := daemon.Lines (daemon.logFile d) in
  fst (daemon.ScanLogs d ctx (daemon.ScanLogsMatchString contains) tt)
  = match find (fun l => strings_Contains l contains) lines with
    | Some l => (true, l, None)
    | None => (false, "", daemon.scanErr (daemon.logFile d))
    end
  /\ (forall l,
      find (fun l => strings_Contains l contains) lines = Some l ->
      Substring contains l)
  /\ fst (daemon.PollCheckLogs d ctx (daemon.ScanLogsMatchString contains) tt)
     = if seenIn lines contains then daemon.PollSuccess
       else match daemon.scanErr (daemon.logFile d) with
            | Some e => daemon.PollError e
            | None => daemon.PollContinue "waiting for daemon logs match"
            end.
Proof.
  intros Hstat Hctx. cbv zeta.
  assert (E : daemon.ScanLogs d ctx (daemon.ScanLogsMatchString contains) tt
              = (match find (fun l => strings_Contains l contains)
                         (daemon.Lines (daemon.logFile d)) with
                 | Some l => (true, l, None)
                 | None => (false, "", daemon.scanErr (daemon.logFile d))
                 end, tt)).
  { unfold daemon.ScanLogs. rewrite Hstat. now apply scanFrom_MatchString. }
  split; [now rewrite E|]. split.
  - intros l Hl. apply find_some in Hl as [_ Hl].
    now apply strings_Contains_iff.
  - unfold daemon.PollCheckLogs. rewrite E, find_seenIn.
    destruct (find _ _); cbn [fst snd]; [reflexivity|].
    now destruct (daemon.scanErr (daemon.logFile d)).
Qed.

(* ------------------------------------------------------------------ *)
(** ** The environment and the command of the test daemon *)

Lemma IndexFunc_range (A : Type) (f : A -> bool) (s : list A) :
  daemon.IndexFunc s f = (-1)%Z
  \/ (0 <= daemon.IndexFunc s f < Z.of_nat (length s))%Z.
Proof.
  induction s as [|x s IH]; [now left|].
  cbn [daemon.IndexFunc length]. destruct (f x); [right; lia|].
  destruct IH as [-> | IH]; [now left|].
  destruct (daemon.IndexFunc s f <? 0)%Z eqn:E; [now left|]. right. lia.
Qed.

Lemma IndexFunc_none (A : Type) (f : A -> bool) (s : list A) :
  (forall x, In x s -> f x = false) -> daemon.IndexFunc s f = (-1)%Z.
Proof.
  induction s as [|x s IH]; intros H; [reflexivity|].
  cbn [daemon.IndexFunc]. rewrite (H x (or_introl eq_refl)).
  rewrite IH; [reflexivity|]. intros y Hy. apply H. now right.
Qed.

Lemma IndexFunc_first (A : Type) (f : A -> bool) (pre post : list A) (x : A) :
  (forall y, In y pre -> f y = false) -> f x = true ->
  daemon.IndexFunc (pre ++ x :: post) f = Z.of_nat (length pre).
Proof.
  induction pre as [|a pre IH]; intros Hpre Hx.
  - simpl. now rewrite Hx.
  - cbn [app daemon.IndexFunc length]. rewrite (Hpre a (or_introl eq_refl)).
    rewrite IH; [|intros y Hy; apply Hpre; now right | exact Hx].
    destruct (Z.of_nat (length pre) <? 0)%Z eqn:E; lia.
Qed.

Lemma setIndex_app (A : Type) (pre post : list A) (x v : A) :
  daemon.setIndex (pre ++ x :: post) (length pre) v = pre ++ v :: post.
Proof. induction pre as [|a pre IH]; simpl; [reflexivity | now rewrite IH]. Qed.

Lemma setIndex_In (A : Type) (s : list A) (v : A) :
  forall n, (n < length s)%nat -> In v (daemon.setIndex s n v).
Proof.
  induction s as [|a s IH]; intros n Hn; [simpl in Hn; lia|].
  destruct n as [|n]; simpl; [now left|]. right. apply IH. simpl in Hn. lia.
Qed.

Lemma extraEnv_setExtraEnv (d : daemon.Daemon) (v : list string) :
  daemon.extraEnv (daemon.setExtraEnv d v) = v.
Proof. reflexivity. Qed.

(** X16: [SetEnvVar(name, val)] replaces, where it stands, the first entry
    of [extraEnv] that starts with [name=], when that entry is not the
    first of the slice; the other entries stay. *)
Theorem SetEnvVar_replaces (d : daemon.Daemon) (name val old : string)
    (pre post : list string) :
  daemon.extraEnv d = pre ++ old :: post ->
  pre <> [] ->
  (forall ev, In ev pre -> strings_HasPrefix ev (name ++ "=") = false) ->
  strings_HasPrefix old (name ++ "=") = true ->
  daemon.extraEnv (daemon.SetEnvVar d name val)
  = pre ++ (name ++ "=" ++ val)%string :: post.
Proof.
  intros He Hne Hpre Hold. unfold daemon.SetEnvVar. cbv zeta.
  rewrite He, (IndexFunc_first _ pre post old Hpre Hold).
  assert (Hlen : (0 < length pre)%nat)
    by (destruct pre; [congruence | simpl; lia]).
  destruct (0 <? Z.of_nat (length pre))%Z eqn:E; [|lia].
  rewrite extraEnv_setExtraEnv, Nat2Z.id, setIndex_app.
  now rewrite string_app_assoc.
Qed.

(** X17: when no entry of [extraEnv] starts with [name=], and also when
    the first entry of the slice does, [SetEnvVar(name, val)] appends
    [name=val] and leaves every entry as it is: a variable held at index 0
    is not replaced, the slice then holds it twice. *)
Theorem SetEnvVar_appends (d : daemon.Daemon) (name val : string) :
  (forall ev, In ev (daemon.extraEnv d) ->
              strings_HasPrefix ev (name ++ "=") = false)
  \/ (exists old rest,
        daemon.extraEnv d = old :: rest
        /\ strings_HasPrefix old (name ++ "=") = true) ->
  daemon.extraEnv (daemon.SetEnvVar d name val)
  = daemon.extraEnv d ++ [(name ++ "=" ++ val)%string].
Proof.
  intros H. unfold daemon.SetEnvVar. cbv zeta.
  assert (E : (0 <? daemon.IndexFunc (daemon.extraEnv d)
                      (fun ev => strings_HasPrefix ev (name ++ "=")))%Z
              = false).
  { destruct H as [H | (old & rest & He & Hold)].
    - now rewrite IndexFunc_none.
    - rewrite He. cbn [daemon.IndexFunc]. now rewrite Hold. }
  rewrite E, extraEnv_setExtraEnv. now rewrite string_app_assoc.
Qed.

Lemma SetEnvVar_In (d : daemon.Daemon) (name val : string) :
  In (name ++ "=" ++ val)%string
     (daemon.extraEnv (daemon.SetEnvVar d name val)).
Proof.
  unfold daemon.SetEnvVar. cbv zeta. rewrite <- string_app_assoc.
  destruct (IndexFunc_range (fun ev => strings_HasPrefix ev (name ++ "="))
              (daemon.extraEnv d)) as [E | E].
  - rewrite E. cbn. apply in_or_app. right. now left.
  - destruct (0 <? _)%Z eqn:E0; rewrite extraEnv_setExtraEnv.
    + apply setIndex_In. lia.
    + apply in_or_app. right. now left.
Qed.

Section Start.
Context {os : daemon.OS}.

Lemma extraEnv_handleUserns (d : daemon.Daemon) :
  daemon.extraEnv (daemon.handleUserns d) = daemon.extraEnv d.
Proof. unfold daemon.handleUserns. now destruct (negb _). Qed.

Lemma storageDriver_handleUserns (d : daemon.Daemon) :
  daemon.storageDriver (daemon.handleUserns d) = daemon.storageDriver d.
Proof. unfold daemon.handleUserns. now destruct (negb _). Qed.

Lemma rootlessUser_handleUserns (d : daemon.Daemon) :
  daemon.rootlessUser (daemon.handleUserns d) = daemon.rootlessUser d.
Proof. unfold daemon.handleUserns. now destruct (negb _). Qed.

Lemma dockerdBinary_handleUserns (d : daemon.Daemon) :
  daemon.dockerdBinary (daemon.handleUserns d) = daemon.dockerdBinary d.
Proof. unfold daemon.handleUserns. now destruct (negb _). Qed.

Lemma id_handleUserns (d : daemon.Daemon) :
  daemon.id (daemon.handleUserns d) = daemon.id d.
Proof. unfold daemon.handleUserns. now destruct (negb _). Qed.

(** The command of a start that gets to it, by the daemon the flags are
    read from. *)
Lemma StartWithLogFile_command_inv (d d' : daemon.Daemon)
    (providedArgs : list string) (c : daemon.Command) :
  daemon.StartWithLogFile_command d providedArgs = (d', inl c) ->
  exists d1 args0,
    daemon.extraEnv d1 = daemon.extraEnv d
    /\ daemon.storageDriver d1 = daemon.storageDriver d
    /\ daemon.id d1 = daemon.id d
    /\ daemon.Args c = daemon.ownArgs d1 args0 providedArgs ++ providedArgs
    /\ daemon.args d' = daemon.Args c
    /\ daemon.Env c
       = (daemon.os_Environ ++ ["DOCKER_SERVICE_PREFER_OFFLINE_IMAGE=1"])
         ++ daemon.extraEnv d
         ++ [("OTEL_SERVICE_NAME=dockerd-" ++ daemon.id d)%string].
Proof.
  unfold daemon.StartWithLogFile_command. cbv zeta.
  destruct (daemon.BinaryPath (daemon.handleUserns d)) as [bin|err];
    [|discriminate].
  set (d1 := daemon.setArgs
               (if (daemon.pidFile (daemon.handleUserns d) =? "")%string
                then daemon.setPidFile (daemon.handleUserns d)
                       (daemon.filepath_Join
                          [daemon.Folder (daemon.handleUserns d);
                           "docker.pid"])
                else daemon.handleUserns d) []).
  assert (He : daemon.extraEnv d1 = daemon.extraEnv d).
  { unfold d1. destruct (_ =? _)%string; cbn; apply extraEnv_handleUserns. }
  assert (Hs : daemon.storageDriver d1 = daemon.storageDriver d).
  { unfold d1. destruct (_ =? _)%string; cbn;
      apply storageDriver_handleUserns. }
  assert (Hi : daemon.id d1 = daemon.id d).
  { unfold d1. destruct (_ =? _)%string; cbn; apply id_handleUserns. }
  clearbody d1.
  destruct (daemon.rootlessUser d1) as [u|].
  - destruct (negb _); [discriminate|]. intros H. injection H as <- <-.
    eexists d1, _. cbn [daemon.Args daemon.Env]. rewrite He, Hi.
    repeat split; auto.
  - intros H. injection H as <- <-.
    exists d1, []. cbn [daemon.Args daemon.Env]. rewrite He, Hi.
    repeat split; auto.
Qed.

(** X18: a variable set with [SetEnvVar] is in the environment of the
    command the next start builds. *)
Theorem SetEnvVar_reaches_command (d d' : daemon.Daemon) (name val : string)
    (providedArgs : list string) (c : daemon.Command) :
  daemon.StartWithLogFile_command (daemon.SetEnvVar d name val) providedArgs
  = (d', inl c) ->
  In (name ++ "=" ++ val)%string (daemon.Env c).
Proof.
  intros H. apply StartWithLogFile_command_inv in H
    as (d1 & args0 & _ & _ & _ & _ & _ & ->).
  apply in_or_app. right. apply in_or_app. left. apply SetEnvVar_In.
Qed.

Lemma appendIf_In (cond : bool) (flags a : list string) (x : string) :
  In x a -> In x (daemon.appendIf cond flags a).
Proof.
  unfold daemon.appendIf. destruct cond; [|easy]. intros H.
  apply in_or_app. now left.
Qed.

Lemma appendIf_flag (flags a : list string) (x : string) :
  In x flags -> In x (daemon.appendIf true flags a).
Proof. intros H. apply in_or_app. now right. Qed.

Lemma ownArgs_logFlag (d : daemon.Daemon) (args0 providedArgs : list string) :
  existsb logFlag (daemon.ownArgs d args0 providedArgs ++ providedArgs)
  = true.
Proof.
  rewrite existsb_app. fold logFlag.
  destruct (existsb logFlag providedArgs) eqn:E;
    [apply orb_true_r|]. rewrite orb_false_r.
  apply existsb_exists. exists "--debug". split; [|reflexivity].
  unfold daemon.ownArgs. cbv zeta. fold logFlag. rewrite E.
  do 2 apply appendIf_In. apply appendIf_flag. now left.
Qed.

Lemma ownArgs_storageDriver (d : daemon.Daemon)
    (args0 providedArgs : list string) :
  daemon.storageDriver d <> "" ->
  existsb (fun a0 => strings_Contains a0 "--storage-driver")
    (daemon.ownArgs d args0 providedArgs ++ providedArgs) = true.
Proof.
  intros Hsd. rewrite existsb_app.
  destruct (existsb (fun a0 => strings_Contains a0 "--storage-driver")
              providedArgs) eqn:E; [apply orb_true_r|]. rewrite orb_false_r.
  apply existsb_exists. exists "--storage-driver". split; [|reflexivity].
  unfold daemon.ownArgs. cbv zeta. rewrite E.
  apply appendIf_In.
  assert (Hn : negb (daemon.storageDriver d =? "")%string = true).
  { apply negb_true_iff. now apply String.eqb_neq. }
  rewrite Hn. apply appendIf_flag. now left.
Qed.

(** X19: when [StartWithLogFile] gets to its command, [d.args] holds the
    arguments of the command; they end with the provided arguments; one of
    them mentions a log level or a debug flag; and when the daemon has a
    storage driver one of them mentions [--storage-driver]. *)
Theorem StartWithLogFile_args (d d' : daemon.Daemon)
    (providedArgs : list string) (c : daemon.Command) :
  daemon.StartWithLogFile_command d providedArgs = (d', inl c) ->
  daemon.args d' = daemon.Args c
  /\ (exists own, daemon.Args c = own ++ providedArgs)
  /\ existsb logFlag (daemon.Args c) = true
  /\ (daemon.storageDriver d <> "" ->
      existsb (fun a0 => strings_Contains a0 "--storage-driver")
        (daemon.Args c) = true).
Proof.
  intros H. apply StartWithLogFile_command_inv in H
    as (d1 & args0 & _ & Hs & _ & Ha & Hd & _).
  split; [exact Hd|]. rewrite Ha. split; [eauto|].
  split; [apply ownArgs_logFlag|].
  intros Hsd. apply ownArgs_storageDriver. now rewrite Hs.
Qed.

Lemma appendIf_prefix (cond : bool) (flags a x : list string) :
  (exists r, a = x ++ r) -> exists r, daemon.appendIf cond flags a = x ++ r.
Proof.
  intros [r ->]. unfold daemon.appendIf. destruct cond; [|eauto].
  exists (r ++ flags). now rewrite app_assoc.
Qed.

Lemma ownArgs_prefix (d : daemon.Daemon) (args0 providedArgs : list string) :
  exists r,
    daemon.ownArgs d args0 providedArgs = args0 ++ "--config-file" :: r.
Proof.
  unfold daemon.ownArgs. cbv zeta.
  change (args0 ++ "--config-file" :: ?r)
    with (args0 ++ "--config-file" :: r).
  assert (H : forall a,
            (exists r, a = args0 ++ "--config-file" :: r) ->
            exists r, a = (args0 ++ ["--config-file"]) ++ r).
  { intros a [r ->]. exists r. now rewrite <- app_assoc. }
  assert (H' : forall a,
            (exists r, a = (args0 ++ ["--config-file"]) ++ r) ->
            exists r, a = args0 ++ "--config-file" :: r).
  { intros a [r ->]. exists r. now rewrite <- app_assoc. }
  apply H'. repeat apply appendIf_prefix. apply H. eauto.
Qed.

(** X20: for a rootless daemon whose binary is found, [StartWithLogFile]
    builds a command only when the binary asked for is the default one:
    the command is then [sudo], running [dockerd-rootless.sh] as the
    rootless user before the daemon's own flags; with another binary it
    returns an error and leaves [d.args] empty. *)
Theorem StartWithLogFile_rootless (d : daemon.Daemon) (u : daemon.User)
    (bin : string) (providedArgs : list string) :
  daemon.rootlessUser d = Some u ->
  daemon.exec_LookPath (daemon.dockerdBinary d) = inl bin ->
  let r := daemon.StartWithLogFile_command d providedArgs in
  if (daemon.dockerdBinary d =? "dockerd")%string then
    exists c rest,
      snd r = inl c
      /\ daemon.Path c = "sudo"
      /\ daemon.Args c
         = ["-u"; daemon.Username u; "--preserve-env"; "--preserve-env=PATH";
            ("XDG_RUNTIME_DIR=" ++ daemon.rootlessXDGRuntimeDir d)%string;
            ("HOME=" ++ daemon.HomeDir u)%string; "--";
            "dockerd-rootless.sh"; "--config-file"] ++ rest
  else
    snd r
    = inr (daemon.Errorf
         "[%s] DOCKER_ROOTLESS doesn't support non-default dockerd binary path %q"
         [daemon.id d; daemon.dockerdBinary d])
    /\ daemon.args (fst r) = [].
Proof.
  intros Hu Hbin. cbv zeta. unfold daemon.StartWithLogFile_command.
  cbv zeta. unfold daemon.BinaryPath.
  rewrite dockerdBinary_handleUserns, Hbin.
  set (d1 := daemon.setArgs
               (if (daemon.pidFile (daemon.handleUserns d) =? "")%string
                then daemon.setPidFile (daemon.handleUserns d)
                       (daemon.filepath_Join
                          [daemon.Folder (daemon.handleUserns d);
                           "docker.pid"])
                else daemon.handleUserns d) []).
  assert (Hu1 : daemon.rootlessUser d1 = Some u).
  { unfold d1. destruct (_ =? _)%string; cbn;
      now rewrite rootlessUser_handleUserns. }
  assert (Hb1 : daemon.dockerdBinary d1 = daemon.dockerdBinary d).
  { unfold d1. destruct (_ =? _)%string; cbn;
      apply dockerdBinary_handleUserns. }
  assert (Hi1 : daemon.id d1 = daemon.id d).
  { unfold d1. destruct (_ =? _)%string; cbn; apply id_handleUserns. }
  assert (Hx1 : daemon.rootlessXDGRuntimeDir d1
                = daemon.rootlessXDGRuntimeDir d).
  { unfold d1, daemon.handleUserns.
    destruct (_ =? _)%string; destruct (negb _); reflexivity. }
  assert (Ha1 : daemon.args d1 = []) by reflexivity.
  clearbody d1. rewrite Hu1, Hb1, Hi1, Hx1.
  unfold daemon.defaultDockerdBinary, daemon.defaultDockerdRootlessBinary.
  destruct (daemon.dockerdBinary d =? "dockerd")%string; cbn [negb fst snd].
  - destruct (ownArgs_prefix d1
                ["-u"; daemon.Username u; "--preserve-env";
                 "--preserve-env=PATH";
                 ("XDG_RUNTIME_DIR=" ++ daemon.rootlessXDGRuntimeDir d)%string;
                 ("HOME=" ++ daemon.HomeDir u)%string; "--";
                 "dockerd-rootless.sh"] providedArgs) as [r Hr].
    eexists _, (r ++ providedArgs). split; [reflexivity|].
    split; [reflexivity|]. cbn [daemon.Args]. rewrite Hr.
    now rewrite <- app_assoc.
  - split; [reflexivity | exact Ha1].
Qed.

Lemma appendIf_infix (cond : bool) (flags a : list string) (x y : string) :
  (exists b a', a = b ++ x :: y :: a') ->
  exists b a', daemon.appendIf cond flags a = b ++ x :: y :: a'.
Proof.
  intros (b & a' & ->). unfold daemon.appendIf. destruct cond; [|eauto].
  exists b, (a' ++ flags). now rewrite <- app_assoc.
Qed.

Lemma ownArgs_host (d : daemon.Daemon) (args0 providedArgs : list string) :
  daemon.UseDefaultHost d = false ->
  daemon.UseDefaultTLSHost d = false ->
  exists b a',
    daemon.ownArgs d args0 providedArgs
    = b ++ "--host" :: daemon.Sock d :: a'.
Proof.
  intros Hh Ht. unfold daemon.ownArgs. cbv zeta. rewrite Hh, Ht.
  cbn [negb andb]. do 4 apply appendIf_infix.
  unfold daemon.appendIf at 1. eexists _, []. reflexivity.
Qed.

(** The daemon a start that gets to its command leaves: the one the flags
    were read from, with the arguments of the command. *)
Lemma StartWithLogFile_command_daemon (d d' : daemon.Daemon)
    (providedArgs : list string) (c : daemon.Command) :
  daemon.StartWithLogFile_command d providedArgs = (d', inl c) ->
  exists d1 args0,
    daemon.id d1 = daemon.id d
    /\ daemon.UseDefaultHost d1 = daemon.UseDefaultHost d
    /\ daemon.UseDefaultTLSHost d1 = daemon.UseDefaultTLSHost d
    /\ daemon.Args c = daemon.ownArgs d1 args0 providedArgs ++ providedArgs
    /\ d' = daemon.setArgs d1 (daemon.Args c).
Proof.
  unfold daemon.StartWithLogFile_command. cbv zeta.
  destruct (daemon.BinaryPath (daemon.handleUserns d)) as [bin|err];
    [|discriminate].
  set (d1 := daemon.setArgs
               (if (daemon.pidFile (daemon.handleUserns d) =? "")%string
                then daemon.setPidFile (daemon.handleUserns d)
                       (daemon.filepath_Join
                          [daemon.Folder (daemon.handleUserns d);
                           "docker.pid"])
                else daemon.handleUserns d) []).
  assert (Hi : daemon.id d1 = daemon.id d).
  { unfold d1. destruct (_ =? _)%string; cbn; apply id_handleUserns. }
  assert (Hh : daemon.UseDefaultHost d1 = daemon.UseDefaultHost d).
  { unfold d1, daemon.handleUserns.
    destruct (_ =? _)%string; destruct (negb _); reflexivity. }
  assert (Ht : daemon.UseDefaultTLSHost d1 = daemon.UseDefaultTLSHost d).
  { unfold d1, daemon.handleUserns.
    destruct (_ =? _)%string; destruct (negb _); reflexivity. }
  clearbody d1.
  destruct (daemon.rootlessUser d1) as [u|].
  - destruct (negb _); [discriminate|]. intros H. injection H as <- <-.
    eexists d1, _. cbn [daemon.Args]. repeat split; auto.
  - intros H. injection H as <- <-.
    exists d1, []. cbn [daemon.Args]. repeat split; auto.
Qed.

(** X28: a daemon that uses neither default host is started with
    [--host unix://<socket>], and the client configuration made for it
    afterwards dials that same socket, over [unix] and plain HTTP, with
    the file name of the socket as the address of its requests. *)
Theorem client_dials_daemon_socket (d d' : daemon.Daemon)
    (providedArgs : list string) (c : daemon.Command)
    (cfg : daemon.clientConfig) :
  daemon.UseDefaultHost d = false ->
  daemon.UseDefaultTLSHost d = false ->
  daemon.StartWithLogFile_command d providedArgs = (d', inl c) ->
  daemon.getClientConfig d' = inl cfg ->
  (exists before after,
     daemon.Args c
     = before ++ "--host"
         :: ("unix://" ++ daemon.dialAddr (daemon.transport cfg))%string
         :: after)
  /\ daemon.dialProto (daemon.transport cfg) = "unix"
  /\ daemon.TLSClientConfig (daemon.transport cfg) = false
  /\ daemon.scheme cfg = "http"
  /\ daemon.addr cfg
     = daemon.filepath_Base (daemon.dialAddr (daemon.transport cfg)).
Proof.
  intros Hh Ht Hs Hc.
  apply StartWithLogFile_command_daemon in Hs
    as (d1 & args0 & Hi & Hh1 & Ht1 & Ha & ->).
  rewrite <- Hh1 in Hh. rewrite <- Ht1 in Ht.
  unfold daemon.getClientConfig in Hc. cbv zeta in Hc.
  change (daemon.UseDefaultTLSHost (daemon.setArgs d1 (daemon.Args c)))
    with (daemon.UseDefaultTLSHost d1) in Hc.
  change (daemon.UseDefaultHost (daemon.setArgs d1 (daemon.Args c)))
    with (daemon.UseDefaultHost d1) in Hc.
  change (daemon.sockPath (daemon.setArgs d1 (daemon.Args c)))
    with (daemon.sockPath d1) in Hc.
  rewrite Hh, Ht in Hc.
  destruct (daemon.sockets_ConfigureTransport "unix" (daemon.sockPath d1));
    [discriminate|].
  injection Hc as <-. cbn.
  split; [|auto].
  destruct (ownArgs_host d1 args0 providedArgs Hh Ht) as (b & a' & Ho).
  exists b, (a' ++ providedArgs). rewrite Ha, Ho.
  now rewrite <- app_assoc.
Qed.

(* ------------------------------------------------------------------ *)
(** ** The process of the test daemon *)

(** X21: [Kill] forgets the process whatever it returns, also when the
    process could not be killed: a second [Kill], and every [Signal],
    afterwards return [errDaemonNotStarted] and call nothing. *)
Theorem Kill_is_final (d : daemon.Daemon) :
  let d' := fst (snd (daemon.Kill d)) in
  daemon.Kill d' = ([], (d', Some daemon.errDaemonNotStarted))
  /\ forall sig,
       daemon.Signal_ d' sig = ([], Some daemon.errDaemonNotStarted).
Proof.
  cbv zeta. unfold daemon.Kill at 2 3 4.
  destruct (daemon.cmd d) as [c|] eqn:Hc.
  - destruct (daemon.Wait d) as [w|] eqn:Hw.
    + assert (E : daemon.cmd (daemon.setCmd d None) = None) by reflexivity.
      destruct (daemon.Process_Kill (daemon.Pid c)).
      * cbn [fst snd]. unfold daemon.Kill, daemon.Signal_. now rewrite E.
      * destruct (match daemon.Process_Wait (daemon.Pid c) with
                  | Some err => negb (daemon.isECHILD err)
                  | None => false
                  end);
          [|destruct (negb _)];
          cbn [fst snd]; unfold daemon.Kill, daemon.Signal_; now rewrite E.
    + cbn [fst snd]. unfold daemon.Kill, daemon.Signal_. now rewrite Hc, Hw.
  - cbn [fst snd]. unfold daemon.Kill, daemon.Signal_. now rewrite Hc.
Qed.

(** X22: [Kill] on a started daemon returns no error exactly when the
    process was killed and waiting for it gave no error other than
    [ECHILD]; it waits only for a process it has killed; it removes the
    pid file exactly when it returns no error and the daemon has one; and
    it always closes the log file last. *)
Theorem Kill_calls (d : daemon.Daemon) (c : daemon.Cmd) (w : unit) :
  daemon.cmd d = Some c ->
  daemon.Wait d = Some w ->
  let calls := fst (daemon.Kill d) in
  let err := snd (snd (daemon.Kill d)) in
  let pid := daemon.Pid c in
  (err = None <->
   daemon.Process_Kill pid = None
   /\ (daemon.Process_Wait pid = None
       \/ exists e, daemon.Process_Wait pid = Some e
                    /\ daemon.isECHILD e = true))
  /\ (In (daemon.ProcessWait pid) calls <-> daemon.Process_Kill pid = None)
  /\ (In (daemon.OsRemove (daemon.pidFile d)) calls <->
      err = None /\ daemon.pidFile d <> "")
  /\ last calls (daemon.ProcessKill pid) = daemon.LogFileClose.
Proof.
  intros Hc Hw. cbv zeta. unfold daemon.Kill. rewrite Hc, Hw.
  destruct (daemon.Process_Kill (daemon.Pid c)) as [ke|] eqn:Hk;
    [|destruct (daemon.Process_Wait (daemon.Pid c)) as [we|] eqn:Hwe;
      [destruct (daemon.isECHILD we) eqn:He; cbn [negb]|];
      try (destruct (daemon.pidFile d =? "")%string eqn:Hp;
           [apply String.eqb_eq in Hp | apply String.eqb_neq in Hp])];
    cbn [negb fst snd]; repeat split; intros; simpl in *;
    repeat match goal with
           | H : _ \/ _ |- _ => destruct H
           | H : _ /\ _ |- _ => destruct H
           | H : exists _, _ |- _ => destruct H
           end;
    try congruence; try discriminate; try contradiction; eauto 7.
Qed.

Lemma removeDirs_removed (d : daemon.Daemon) (base dirs : list string) :
  removed (daemon.removeDirs d base dirs)
  = map (fun p0 => daemon.filepath_Join (base ++ [p0])) dirs.
Proof.
  induction dirs as [|p0 dirs IH]; [reflexivity|].
  cbn [daemon.removeDirs map].
  destruct (daemon.os_RemoveAll _); unfold removed in *;
    cbn [flat_map app]; now rewrite IH.
Qed.

Lemma removeDirs_logged (d : daemon.Daemon) (base dirs : list string) :
  loggedFailures (daemon.removeDirs d base dirs)
  = filter removalFails
      (map (fun p0 => daemon.filepath_Join (base ++ [p0])) dirs).
Proof.
  induction dirs as [|p0 dirs IH]; [reflexivity|].
  cbn [daemon.removeDirs map filter]. unfold removalFails at 1.
  destruct (daemon.os_RemoveAll _); unfold loggedFailures in *;
    cbn [flat_map app]; now rewrite IH.
Qed.

(** X23: [cleanupDaemonStorage] and [cleanupRaftDir] go on after a
    directory that cannot be removed: [os.RemoveAll] is called on each of
    their directories under the root, in order, and the failures are the
    removals that are logged.  With no storage driver, the path joined
    from the root and the empty name is among those removed. *)
Theorem cleanup_tries_every_directory (d : daemon.Daemon) :
  removed (daemon.cleanupDaemonStorage d)
  = map (fun p0 => daemon.filepath_Join [daemon.Root d; p0]) (storageDirs d)
  /\ loggedFailures (daemon.cleanupDaemonStorage d)
     = filter removalFails (removed (daemon.cleanupDaemonStorage d))
  /\ removed (daemon.cleanupRaftDir d)
     = map (fun p0 =>
              daemon.filepath_Join [daemon.Root d; "swarm/raft"; p0])
         ["wal"; "wal-v3-encrypted"; "snap-v3-encrypted"]
  /\ loggedFailures (daemon.cleanupRaftDir d)
     = filter removalFails (removed (daemon.cleanupRaftDir d))
  /\ (daemon.storageDriver d = "" ->
      In (daemon.filepath_Join [daemon.Root d; ""])
         (removed (daemon.cleanupDaemonStorage d))).
Proof.
  unfold daemon.cleanupDaemonStorage, daemon.cleanupRaftDir.
  rewrite !removeDirs_logged, !removeDirs_removed.
  repeat split; try reflexivity.
  intros ->. cbn. tauto.
Qed.
End Start.

(* ------------------------------------------------------------------ *)
(** ** The client: exec and container listing *)



Section ClientProperties.
Context {E : client.Env}.

Lemma dropStartConsoleSize_keeps (config : client.ExecStartOptions) :
  client.versions_LessThan client.ClientVersion "1.42" = false ->
  client.dropStartConsoleSize config = config.
Proof.
  intros H. unfold client.dropStartConsoleSize, client.dropConsoleSize.
  rewrite H. now destruct config.
Qed.

(** X24: to a daemon of an API version before 1.42, [ContainerExecCreate],
    [ContainerExecStart] and [ContainerExecAttach] send no console size,
    whatever the options hold; from 1.42 on, each request carries the
    console size of the options. *)
Theorem exec_console_size (containerID execID : string)
    (options : client.ExecOptions) (config : client.ExecStartOptions) :
  let old := client.versions_LessThan client.ClientVersion "1.42" in
  let create := fst (client.ContainerExecCreate containerID options) in
  let start :=
    fst (client.ContainerExecStart execID config)
    ++ fst (client.ContainerExecAttach execID config) in
  Forall (fun c => client.isRequest c = true ->
                   bodyConsoleSize (callBody c)
                   = if old then None else client.ExecConsoleSize options)
    create
  /\ Forall (fun c => client.isRequest c = true ->
                      bodyConsoleSize (callBody c)
                      = if old then None
                        else client.StartConsoleSize config)
       start.
Proof.
  cbv zeta. split.
  - unfold client.ContainerExecCreate.
    destruct (client.trimID "container" containerID) as [cid|err];
      [|constructor].
    destruct client.checkVersion; [constructor|].
    destruct (client.NewVersionError "1.25" "env"),
      (negb (Nat.eqb (length (client.ExecEnv options)) 0));
      try constructor;
      destruct (client.post _ _); cbn [fst];
      repeat constructor; try discriminate;
      intros _; cbn; unfold client.dropConsoleSize;
      now destruct (client.versions_LessThan _ _).
  - cbn [fst client.ContainerExecStart client.ContainerExecAttach app].
    repeat constructor; try discriminate;
      intros _; cbn; unfold client.dropConsoleSize;
      now destruct (client.versions_LessThan _ _).
Qed.

(** X25: [ContainerExecCreate] sends at most one request, a POST to the
    exec endpoint of the trimmed container ID, and only when the ID and
    the negotiated version are accepted and the environment is empty or
    supported by the version; when it sends none it returns an error and
    the zero response. *)
Theorem ContainerExecCreate_requests (containerID : string)
    (options : client.ExecOptions) :
  let r := client.ContainerExecCreate containerID options in
  let requests := filter client.isRequest (fst r) in
  (requests = [] ->
   snd (snd r) <> None /\ fst (snd r) = client.zeroExecCreateResponse)
  /\ (forall c, In c requests ->
      exists cid b,
        client.trimID "container" containerID = Ok cid
        /\ client.checkVersion = None
        /\ (client.ExecEnv options = []
            \/ client.NewVersionError "1.25" "env" = None)
        /\ c = client.Post ("/containers/" ++ cid ++ "/exec") b
        /\ requests = [c]).
Proof.
  cbv zeta. unfold client.ContainerExecCreate.
  destruct (client.trimID "container" containerID) as [cid|err];
    [|cbn; split; [split; [discriminate | reflexivity] | intros c []]].
  destruct client.checkVersion;
    [cbn; split; [split; [discriminate | reflexivity] | intros c []]|].
  destruct (client.NewVersionError "1.25" "env") as [ve|] eqn:Hv;
    destruct (negb (Nat.eqb (length (client.ExecEnv options)) 0)) eqn:Hl;
    try (cbn; split; [split; [discriminate | reflexivity] | intros c []]);
    destruct (client.post _ _); cbn [fst snd filter client.isRequest];
    (split; [discriminate|]); intros c [<- | []];
    eexists cid, _; repeat split;
    solve [ reflexivity
          | now right
          | left; destruct (client.ExecEnv options);
            [reflexivity | discriminate Hl] ].
Qed.

End ClientProperties.

(* ------------------------------------------------------------------ *)
(** ** The provenance processor *)

Section ProcessorProperties.
Context {E : proc.Env}.



End ProcessorProperties.

(* ------------------------------------------------------------------ *)
(** ** Examples *)

(** X8 for the image ID prefix [cfg], which names no repository. *)
Lemma lookupImage_search_is_fallback_example :
  In (ImageStoreSearch "cfg") (calls (@lookupImage Sample.RF Sample.good "cfg")).
Proof.
  apply (@lookupImage_search_is_fallback Sample.RF Sample.good "cfg" _
           eq_refl).
  exists "cfg". split; [reflexivity|].
  intros dgst img H. vm_compute in H. discriminate H.
Defined.

(** X10 for the image without lease, pushed as linux/arm64/v8. *)
Lemma PushImage_platform_mismatch_example :
  (exists err,
     snd (@PushImage Sample.PL Sample.CE Sample.RF Sample.JS Testbed.DP
            Sample.imageKey Sample.unleased "busybox"
            (Some Sample.arm64v8)) = Some err
     /\ errdefs_IsNotFound err = true)
  /\ filter isDistributionPush
       (fst (@PushImage Sample.PL Sample.CE Sample.RF Sample.JS Testbed.DP
               Sample.imageKey Sample.unleased "busybox"
               (Some Sample.arm64v8)))
     = [].
Proof.
  apply (@PushImage_platform_mismatch Sample.PL Sample.CE Sample.RF
           Sample.JS Testbed.DP Sample.imageKey Sample.unleased "busybox"
           Sample.arm64v8 Sample.img); reflexivity.
Defined.

(** X11: the second line at level info is the third line of the log. *)
Lemma ScanLogsMatchCount_counts_example :
  snd (daemon.ScanLogsMatchCount (daemon.ScanLogsMatchString "level=info") 2
         (snd (runMatch
                 (daemon.ScanLogsMatchCount
                    (daemon.ScanLogsMatchString "level=info") 2)
                 (tt, 0%Z)
                 ["level=info msg=starting"; "level=debug msg=listening"]))
         "level=info msg=ready")
  = true.
Proof.
  pose proof (ScanLogsMatchCount_counts
                (daemon.ScanLogsMatchString "level=info") 2 tt
                ["level=info msg=starting"; "level=debug msg=listening"]
                "level=info msg=ready" eq_refl) as H.
  cbv zeta in H. rewrite H. reflexivity.
Defined.

(** X14: the log has two lines at level info; a matcher that waits for
    three finds none in a first scan and, in a second scan of the same
    log, stops at the first line. *)
Lemma ScanLogs_rescan_example :
  let m :=
    daemon.ScanLogsMatchCount (daemon.ScanLogsMatchString "level=info") 3 in
  let first := daemon.ScanLogs Testbed.d1 notDone m (tt, 0%Z) in
  fst first = (false, "", None)
  /\ daemon.ScanLogs Testbed.d1 notDone m (snd first)
     = ((true, "level=info msg=starting", None), (tt, 3%Z)).
Proof.
  cbv zeta. split; [reflexivity|].
  rewrite (ScanLogs_rescan Testbed.d1 Testbed.d1 Testbed.twice notDone
             (daemon.ScanLogsMatchCount
                (daemon.ScanLogsMatchString "level=info") 3)
             (tt, 0%Z) (fun _ => eq_refl) eq_refl eq_refl eq_refl eq_refl).
  reflexivity.
Defined.

(** X15 for the line that says the daemon listens. *)
Lemma ScanLogs_MatchString_example :
  fst (daemon.ScanLogs Testbed.d1 notDone
         (daemon.ScanLogsMatchString "msg=listening") tt)
  = (true, "level=debug msg=listening", None)
  /\ fst (daemon.PollCheckLogs Testbed.d1 notDone
            (daemon.ScanLogsMatchString "msg=stopped") tt)
     = daemon.PollContinue "waiting for daemon logs match".
Proof.
  split.
  - destruct (ScanLogs_MatchString Testbed.d1 notDone "msg=listening"
                eq_refl (fun _ => eq_refl)) as [E _].
    rewrite E. reflexivity.
  - destruct (ScanLogs_MatchString Testbed.d1 notDone "msg=stopped"
                eq_refl (fun _ => eq_refl)) as (_ & _ & E).
    rewrite E. reflexivity.
Defined.

(** X16: [BAR] is the second variable of the daemon. *)
Lemma SetEnvVar_replaces_example :
  daemon.extraEnv (daemon.SetEnvVar Testbed.d1 "BAR" "3")
  = ["FOO=1"; "BAR=3"].
Proof.
  apply (@SetEnvVar_replaces Testbed.d1 "BAR" "3" "BAR=2" ["FOO=1"] []
           eq_refl).
  - discriminate.
  - intros ev [<- | []]. reflexivity.
  - reflexivity.
Defined.

(** X17: [FOO] is the first variable of the daemon. *)
Lemma SetEnvVar_appends_example :
  daemon.extraEnv (daemon.SetEnvVar Testbed.d1 "FOO" "9")
  = ["FOO=1"; "BAR=2"; "FOO=9"].
Proof.
  apply (SetEnvVar_appends Testbed.d1 "FOO" "9").
  right. exists "FOO=1", ["BAR=2"]. split; reflexivity.
Defined.

(** X18 for a variable of the daemon set again before a start. *)
Lemma SetEnvVar_reaches_command_example :
  match snd (@daemon.StartWithLogFile_command Testbed.os
               (daemon.SetEnvVar Testbed.d1 "FOO" "9")
               ["--iptables=false"]) with
  | inl c => In "FOO=9" (daemon.Env c)
  | inr _ => False
  end.
Proof.
  destruct (@daemon.StartWithLogFile_command Testbed.os
              (daemon.SetEnvVar Testbed.d1 "FOO" "9")
              ["--iptables=false"]) as [d' [c|e]] eqn:E; cbn [snd].
  - exact (@SetEnvVar_reaches_command Testbed.os Testbed.d1 d' "FOO" "9"
             ["--iptables=false"] c E).
  - vm_compute in E. discriminate E.
Defined.

(** X19 for a start with one flag. *)
Lemma StartWithLogFile_args_example :
  match @daemon.StartWithLogFile_command Testbed.os Testbed.d1
          ["--iptables=false"] with
  | (d', inl c) =>
    daemon.args d' = daemon.Args c
    /\ (exists own, daemon.Args c = own ++ ["--iptables=false"])
    /\ existsb logFlag (daemon.Args c) = true
    /\ existsb (fun a0 => strings_Contains a0 "--storage-driver")
         (daemon.Args c) = true
  | (_, inr _) => False
  end.
Proof.
  destruct (@daemon.StartWithLogFile_command Testbed.os Testbed.d1
              ["--iptables=false"]) as [d' [c|e]] eqn:E.
  - destruct (@StartWithLogFile_args Testbed.os Testbed.d1 d'
                ["--iptables=false"] c E) as (H1 & H2 & H3 & H4).
    repeat split; try assumption. apply H4. discriminate.
  - vm_compute in E. discriminate E.
Defined.

(** X20 for a rootless daemon with a binary of its own. *)
Lemma StartWithLogFile_rootless_example :
  snd (@daemon.StartWithLogFile_command Testbed.os Testbed.rootless [])
  = inr (daemon.Errorf
       "[%s] DOCKER_ROOTLESS doesn't support non-default dockerd binary path %q"
       ["d1"; "dockerd-dev"])
  /\ daemon.args
       (fst (@daemon.StartWithLogFile_command Testbed.os Testbed.rootless []))
     = [].
Proof.
  exact (@StartWithLogFile_rootless Testbed.os Testbed.rootless
           Testbed.unpriv "/usr/bin/dockerd-dev" [] eq_refl eq_refl).
Defined.

(** X28 for a daemon with a socket of its own. *)
Lemma client_dials_daemon_socket_example :
  let r := @daemon.StartWithLogFile_command Testbed.os Testbed.d1 [] in
  exists c cfg,
    snd r = inl c
    /\ @daemon.getClientConfig Testbed.os (fst r) = inl cfg
    /\ (exists before after,
          daemon.Args c
          = before ++ "--host"
              :: ("unix://" ++ daemon.dialAddr (daemon.transport cfg))%string
              :: after)
    /\ daemon.dialAddr (daemon.transport cfg)
       = "/tmp/docker-integration/d1.sock"
    /\ daemon.addr cfg = "d1.sock".
Proof.
  cbv zeta.
  destruct (@daemon.StartWithLogFile_command Testbed.os Testbed.d1 [])
    as [d' [c|e]] eqn:E; [|vm_compute in E; discriminate E].
  pose proof E as E0. vm_compute in E0. injection E0 as Hd Hc.
  cbn [fst snd].
  destruct (@daemon.getClientConfig Testbed.os d') as [cfg|e] eqn:G;
    [|rewrite <- Hd in G; vm_compute in G; discriminate G].
  destruct (@client_dials_daemon_socket Testbed.os Testbed.d1 d' [] c cfg
              eq_refl eq_refl E G) as (H1 & _).
  exists c, cfg. split; [reflexivity|]. split; [reflexivity|].
  split; [exact H1|].
  rewrite <- Hd in G. vm_compute in G. injection G as <-.
  split; reflexivity.
Defined.

(** X22 for a daemon whose process has been reaped when it is waited
    for. *)
Lemma Kill_calls_example :
  snd (snd (@daemon.Kill Testbed.os Testbed.d1)) = None
  /\ In (daemon.OsRemove "/tmp/d1/docker.pid")
        (fst (@daemon.Kill Testbed.os Testbed.d1)).
Proof.
  pose proof (@Kill_calls Testbed.os Testbed.d1 {| daemon.Pid := 42 |} tt
                eq_refl eq_refl) as H.
  cbv zeta in H. destruct H as (H1 & _ & H3 & _).
  assert (Herr : snd (snd (@daemon.Kill Testbed.os Testbed.d1)) = None).
  { apply H1. split; [reflexivity|]. right. exists Testbed.noChild.
    split; reflexivity. }
  split; [exact Herr|]. apply H3. split; [exact Herr | discriminate].
Defined.

